(** * Intelligent Recipe Generator: a shallow embedding and its properties

    The repository is a React/Redux front end over an image-to-recipe
    pipeline.  The front-end state slices ([userSlice], [ingredientSlice])
    and the pages that build requests are embedded from their JavaScript
    source.  The server-side pipeline (ingredient resolver, recipe matcher,
    filter search) is not part of the source tree; it is modelled from the
    design document and every such definition says so.

    Part I holds the definitions, Part II the properties the design
    document states, Part III further properties of the front-end code. *)

From Stdlib Require Import QArith Qround Lqa Strings.Byte Ascii.
From stdpp Require Import base strings list gmap sorting.

Set Default Proof Using "Type".
Set Warnings "-register-all,-clear-no-such-hyp".
Local Open Scope Z_scope.

(** * Part I: definitions *)

(** ** JavaScript values

    Action payloads and server responses are JSON values.  [JUndefined] is
    what a property read gives for an absent key. Objects are association
    lists, the first binding of a key being the visible one. *)

Module JS.

Inductive jsval : Type :=
| JUndefined
| JNull
| JBool (b : bool)
| JNum (q : Q)
| JNaN
| JStr (s : string)
| JArr (items : list jsval)
| JObj (fields : list (string * jsval)).

(** ToBoolean: [undefined], [null], [false], [0] and the empty string are
    falsy, every array and object is truthy. *)
Definition truthy (v : jsval) : bool :=
  match v with
  | JUndefined | JNull | JNaN => false
  | JBool b => b
  | JNum q => negb (Qeq_bool q 0)
  | JStr s => negb (String.eqb s "")
  | JArr _ | JObj _ => true
  end.

(** [a || b] *)
Definition or_else (a b : jsval) : jsval := if truthy a then a else b.

Fixpoint lookup_field (k : string) (fields : list (string * jsval)) : jsval :=
  match fields with
  | [] => JUndefined
  | (k', v) :: rest => if String.eqb k k' then v else lookup_field k rest
  end.

(** [v.k] for the data keys read in this repository (not [length] and the
    other built-in properties): a [TypeError] ([None]) on [undefined] and
    [null], [undefined] on the other primitives and on arrays. *)
Definition get_prop (v : jsval) (k : string) : option jsval :=
  match v with
  | JUndefined | JNull => None
  | JObj fields => Some (lookup_field k fields)
  | _ => Some JUndefined
  end.

(** [{ ...obj, k: v }] on the association list: the binding of [k] is
    replaced where it stands, or added. *)
Fixpoint set_field (k : string) (v : jsval) (fields : list (string * jsval))
  : list (string * jsval) :=
  match fields with
  | [] => [(k, v)]
  | (k', v') :: rest =>
      if String.eqb k k' then (k, v) :: rest else (k', v') :: set_field k v rest
  end.

Fixpoint chars (s : string) : list jsval :=
  match s with
  | EmptyString => []
  | String c rest => JStr (String c EmptyString) :: chars rest
  end.

(** The elements [...v] contributes to an array literal; a value that is not
    iterable raises a [TypeError] ([None]). *)
Definition spread (v : jsval) : option (list jsval) :=
  match v with
  | JArr items => Some items
  | JStr s => Some (chars s)
  | _ => None
  end.

End JS.

(** ** userSlice (frontend/src/features/userSlice.js) *)

Module UserSlice.
Import JS.

Record Preferences : Type := {
  dietary : list string;
  cuisine : list string;
  difficulty : string;
  pref_extra : gmap string jsval   (* keys a payload added by spreading *)
}.

Record Profile : Type := {
  name : string;
  email : string;
  preferences : Preferences;
  favorites : list Z;              (* recipe ids *)
  history : list jsval;
  extra : gmap string jsval        (* keys a payload added by spreading *)
}.

Record State : Type := {
  profile : Profile;
  isAuthenticated : bool;
  loading : bool;
  error : option string
}.

(** A payload of [updatePreferences]: the keys it carries. *)
Record PreferencesPatch : Type := {
  p_dietary : option (list string);
  p_cuisine : option (list string);
  p_difficulty : option string;
  p_pref_extra : gmap string jsval
}.

(** A payload of [setUserProfile]: the keys it carries. *)
Record ProfilePatch : Type := {
  p_name : option string;
  p_email : option string;
  p_preferences : option Preferences;
  p_favorites : option (list Z);
  p_history : option (list jsval);
  p_extra : gmap string jsval
}.

Definition emptyPreferences : Preferences :=
  {| dietary := []; cuisine := []; difficulty := "Easy"; pref_extra := ∅ |}.

Definition emptyProfile : Profile :=
  {| name := ""; email := ""; preferences := emptyPreferences;
     favorites := []; history := []; extra := ∅ |}.

Definition initialState : State :=
  {| profile := emptyProfile; isAuthenticated := false;
     loading := false; error := None |}.

(** [{ ...state.profile.preferences, ...payload }] *)
Definition spreadPreferences (p : Preferences) (q : PreferencesPatch) : Preferences :=
  {| dietary := default (dietary p) (p_dietary q);
     cuisine := default (cuisine p) (p_cuisine q);
     difficulty := default (difficulty p) (p_difficulty q);
     pref_extra := p_pref_extra q ∪ pref_extra p |}.

(** [{ ...state.profile, ...payload }] *)
Definition spreadProfile (p : Profile) (q : ProfilePatch) : Profile :=
  {| name := default (name p) (p_name q);
     email := default (email p) (p_email q);
     preferences := default (preferences p) (p_preferences q);
     favorites := default (favorites p) (p_favorites q);
     history := default (history p) (p_history q);
     extra := p_extra q ∪ extra p |}.

Definition with_profile (s : State) (p : Profile) : State :=
  {| profile := p; isAuthenticated := isAuthenticated s;
     loading := loading s; error := error s |}.

Definition with_favorites (p : Profile) (f : list Z) : Profile :=
  {| name := name p; email := email p; preferences := preferences p;
     favorites := f; history := history p; extra := extra p |}.

Definition with_history (p : Profile) (h : list jsval) : Profile :=
  {| name := name p; email := email p; preferences := preferences p;
     favorites := favorites p; history := h; extra := extra p |}.

Definition with_preferences (p : Profile) (q : Preferences) : Profile :=
  {| name := name p; email := email p; preferences := q;
     favorites := favorites p; history := history p; extra := extra p |}.

(** [Array.prototype.includes] on recipe ids. *)
Definition includes (l : list Z) (x : Z) : bool := existsb (Z.eqb x) l.

Definition setUserProfile (s : State) (payload : ProfilePatch) : State :=
  {| profile := spreadProfile (profile s) payload; isAuthenticated := true;
     loading := loading s; error := error s |}.

Definition updatePreferences (s : State) (payload : PreferencesPatch) : State :=
  with_profile s
    (with_preferences (profile s)
       (spreadPreferences (preferences (profile s)) payload)).

Definition addToFavorites (s : State) (payload : Z) : State :=
  if negb (includes (favorites (profile s)) payload)
  then with_profile s
         (with_favorites (profile s) (favorites (profile s) ++ [payload]))
  else s.

Definition removeFromFavorites (s : State) (payload : Z) : State :=
  with_profile s
    (with_favorites (profile s)
       (List.filter (fun id => negb (Z.eqb id payload)) (favorites (profile s)))).

(** [unshift] then [slice(0, 20)]. *)
Definition addToHistory (s : State) (payload : jsval) : State :=
  with_profile s
    (with_history (profile s) (take 20 (payload :: history (profile s)))).

Definition clearHistory (s : State) : State :=
  with_profile s (with_history (profile s) []).

Definition logout (s : State) : State :=
  {| profile := emptyProfile; isAuthenticated := false;
     loading := loading s; error := error s |}.

Definition clearError (s : State) : State :=
  {| profile := profile s; isAuthenticated := isAuthenticated s;
     loading := loading s; error := None |}.

Inductive Action : Type :=
| SetUserProfile (payload : ProfilePatch)
| UpdatePreferences (payload : PreferencesPatch)
| AddToFavorites (payload : Z)
| RemoveFromFavorites (payload : Z)
| AddToHistory (payload : jsval)
| ClearHistory
| Logout
| ClearError.

Definition reducer (s : State) (a : Action) : State :=
  match a with
  | SetUserProfile p => setUserProfile s p
  | UpdatePreferences p => updatePreferences s p
  | AddToFavorites id => addToFavorites s id
  | RemoveFromFavorites id => removeFromFavorites s id
  | AddToHistory e => addToHistory s e
  | ClearHistory => clearHistory s
  | Logout => logout s
  | ClearError => clearError s
  end.

(** The state after dispatching [acts] in order. *)
Definition run (s : State) (acts : list Action) : State :=
  fold_left reducer acts s.

(** A [setUserProfile] payload that replaces the history by more than 20
    entries; every other action is harmless for the history bound. *)
Definition keeps_history_bound (a : Action) : Prop :=
  match a with
  | SetUserProfile p =>
      match p_history p with
      | Some h => (length h <= 20)%nat
      | None => True
      end
  | _ => True
  end.

(** A [setUserProfile] payload whose [history] key holds 21 entries. *)
Definition long_history_payload : ProfilePatch :=
  {| p_name := None; p_email := None; p_preferences := None;
     p_favorites := None; p_history := Some (replicate 21 JNull);
     p_extra := ∅ |}.

(** A [setUserProfile] payload whose [favorites] key repeats an id; every
    other action is harmless for the favorites being distinct. *)
Definition keeps_favorites_distinct (a : Action) : Prop :=
  match a with
  | SetUserProfile p =>
      match p_favorites p with
      | Some f => NoDup f
      | None => True
      end
  | _ => True
  end.

(** The actions that decide [isAuthenticated]. *)
Definition sets_authentication (a : Action) : option bool :=
  match a with
  | SetUserProfile _ => Some true
  | Logout => Some false
  | _ => None
  end.

End UserSlice.

(** ** ingredientSlice (frontend/src/features/ingredientSlice.js) *)

Module IngredientSlice.
Import JS.

Record State : Type := {
  detectedIngredients : jsval;
  uploadedImage : jsval;
  matchedRecipes : jsval;
  loading : bool;
  error : jsval
}.

Definition initialState : State :=
  {| detectedIngredients := JArr []; uploadedImage := JNull;
     matchedRecipes := JArr []; loading := false; error := JNull |}.

Definition setIngredients (s : State) (payload : jsval) : State :=
  {| detectedIngredients := payload; uploadedImage := uploadedImage s;
     matchedRecipes := matchedRecipes s; loading := loading s;
     error := error s |}.

(** [push] on a value that is not an array raises a [TypeError]. *)
Definition addIngredient (s : State) (payload : jsval) : option State :=
  match detectedIngredients s with
  | JArr items => Some (setIngredients s (JArr (items ++ [payload])))
  | _ => None
  end.

(** [index !== action.payload]: only a number payload can equal an index. *)
Definition index_differs (index : nat) (payload : jsval) : bool :=
  match payload with
  | JNum q => negb (Qeq_bool q (inject_Z (Z.of_nat index)))
  | _ => true
  end.

Fixpoint filter_index (payload : jsval) (index : nat) (items : list jsval)
  : list jsval :=
  match items with
  | [] => []
  | x :: rest =>
      if index_differs index payload
      then x :: filter_index payload (S index) rest
      else filter_index payload (S index) rest
  end.

Definition removeIngredient (s : State) (payload : jsval) : option State :=
  match detectedIngredients s with
  | JArr items => Some (setIngredients s (JArr (filter_index payload 0 items)))
  | _ => None
  end.

Definition clearIngredients (s : State) : State :=
  {| detectedIngredients := JArr []; uploadedImage := JNull;
     matchedRecipes := JArr []; loading := loading s; error := error s |}.

Definition clearError (s : State) : State :=
  {| detectedIngredients := detectedIngredients s;
     uploadedImage := uploadedImage s; matchedRecipes := matchedRecipes s;
     loading := loading s; error := JNull |}.

Definition setImageProcessed (s : State) (payload : jsval) : State := s.

Definition pending (s : State) : State :=
  {| detectedIngredients := detectedIngredients s;
     uploadedImage := uploadedImage s; matchedRecipes := matchedRecipes s;
     loading := true; error := error s |}.

Definition rejected (s : State) (message : jsval) : State :=
  {| detectedIngredients := detectedIngredients s;
     uploadedImage := uploadedImage s; matchedRecipes := matchedRecipes s;
     loading := false; error := message |}.

(** The [processImage.fulfilled] case.  [None] is a [TypeError] raised by a
    property read on a missing payload or by spreading a value that is not
    iterable; the draft is then discarded. *)
Definition processImage_fulfilled (s : State) (payload : jsval) : option State :=
  ingredients ← get_prop payload "ingredients";
  ocr_text ← get_prop payload "ocr_text";
  ai ← get_prop payload "ai_generated_recipes";
  db ← get_prop payload "database_matching_recipes";
  aiRecipes ← spread (or_else ai (JArr []));
  dbRecipes ← spread (or_else db (JArr []));
  Some {| detectedIngredients := ingredients; uploadedImage := ocr_text;
          matchedRecipes := JArr (aiRecipes ++ dbRecipes);
          loading := false; error := error s |}.

(** The [findRecipes.fulfilled] case. *)
Definition findRecipes_fulfilled (s : State) (payload : jsval) : option State :=
  recipes ← get_prop payload "recipes";
  Some {| detectedIngredients := detectedIngredients s;
          uploadedImage := uploadedImage s;
          matchedRecipes := or_else recipes (JArr []);
          loading := false; error := error s |}.

(** A response with the four keys of the documented contract: one detected
    ingredient and one matching recipe. *)
Definition sample_response : jsval :=
  JObj [("ocr_text", JStr "tomato");
        ("ingredients",
         JArr [JObj [("name", JStr "tomato"); ("confidence", JNum 0.9)]]);
        ("matching_recipes",
         JArr [JObj [("id", JNum 1); ("title", JStr "Tomato soup");
                     ("match_score", JNum 0.5)]]);
        ("database_status", JStr "connected")].

Inductive Action : Type :=
| SetIngredients (payload : jsval)
| AddIngredient (payload : jsval)
| RemoveIngredient (payload : jsval)
| ClearIngredients
| ClearError
| SetImageProcessed (payload : jsval)
| ProcessImagePending
| ProcessImageFulfilled (payload : jsval)
| ProcessImageRejected (message : jsval)
| FindRecipesPending
| FindRecipesFulfilled (payload : jsval)
| FindRecipesRejected (message : jsval).

Definition reducer (s : State) (a : Action) : option State :=
  match a with
  | SetIngredients p => Some (setIngredients s p)
  | AddIngredient p => addIngredient s p
  | RemoveIngredient p => removeIngredient s p
  | ClearIngredients => Some (clearIngredients s)
  | ClearError => Some (clearError s)
  | SetImageProcessed p => Some (setImageProcessed s p)
  | ProcessImagePending | FindRecipesPending => Some (pending s)
  | ProcessImageFulfilled p => processImage_fulfilled s p
  | ProcessImageRejected m | FindRecipesRejected m => Some (rejected s m)
  | FindRecipesFulfilled p => findRecipes_fulfilled s p
  end.

(** A reducer that throws leaves the store as it was. *)
Definition dispatch (s : State) (a : Action) : State := default s (reducer s a).

Definition run (s : State) (acts : list Action) : State := fold_left dispatch acts s.

(** The actions that write [state.error]. *)
Definition writes_error (a : Action) : bool :=
  match a with
  | ClearError | ProcessImageRejected _ | FindRecipesRejected _ => true
  | _ => false
  end.

(** The actions that write [state.detectedIngredients]. *)
Definition writes_ingredients (a : Action) : bool :=
  match a with
  | SetIngredients _ | AddIngredient _ | RemoveIngredient _ | ClearIngredients
  | ProcessImageFulfilled _ => true
  | _ => false
  end.

(** The array index a payload denotes, if any. *)
Definition index_of (payload : jsval) : option nat :=
  match payload with
  | JNum q =>
      if Qeq_bool q (inject_Z (Qfloor q)) && (0 <=? Qfloor q)
      then Some (Z.to_nat (Qfloor q)) else None
  | _ => None
  end.

End IngredientSlice.

(** ** App.jsx of the bundled front end (backend/frontend/src/App.jsx)

    The props handed to [ResultCard] once [results] holds the response of
    [uploadImage]. *)

Module App.
Import JS.

Record ResultCardProps : Type := {
  ingredients : jsval;
  ocrText : jsval;
  image : jsval;
  detectedItems : jsval;
  matchingRecipes : jsval;
  databaseStatus : jsval
}.

(** [results && <ResultCard ... />]: nothing is rendered for a falsy
    [results]; a truthy one is read key by key. *)
Definition resultCard (results uploadedImage : jsval) : option ResultCardProps :=
  if truthy results then
    i ← get_prop results "ingredients";
    o ← get_prop results "ocr_text";
    d ← get_prop results "detected_items";
    m ← get_prop results "matching_recipes";
    st ← get_prop results "database_status";
    Some {| ingredients := i; ocrText := o; image := uploadedImage;
            detectedItems := d; matchingRecipes := m; databaseStatus := st |}
  else None.

End App.

(** ** The filter form of the Recipes page (frontend/src/pages/Recipes.js) *)

Module RecipesPage.
Import JS.

(** The [filters] state; every input hands its value over as a string. *)
Record FilterState : Type := {
  dietary_preferences : list string;
  cuisine_type : string;
  difficulty_level : string;
  max_prep_time : string;
  max_cook_time : string;
  query : string;
  max_calories : string;
  min_protein : string;
  max_carbs : string;
  max_fat : string;
  max_sugar : string;
  max_sodium : string
}.

(** The object behind [filters], keys in the order of [Object.keys]. *)
Definition entries (f : FilterState) : list (string * jsval) :=
  [ ("dietary_preferences", JArr (JStr <$> dietary_preferences f));
    ("cuisine_type", JStr (cuisine_type f));
    ("difficulty_level", JStr (difficulty_level f));
    ("max_prep_time", JStr (max_prep_time f));
    ("max_cook_time", JStr (max_cook_time f));
    ("query", JStr (query f));
    ("max_calories", JStr (max_calories f));
    ("min_protein", JStr (min_protein f));
    ("max_carbs", JStr (max_carbs f));
    ("max_fat", JStr (max_fat f));
    ("max_sugar", JStr (max_sugar f));
    ("max_sodium", JStr (max_sodium f)) ].

(** [v !== '' && !(Array.isArray(v) && v.length === 0)] *)
Definition supplied (v : jsval) : bool :=
  match v with
  | JStr s => negb (String.eqb s "")
  | JArr [] => false
  | _ => true
  end.

Definition numericFields : list string :=
  [ "max_calories"; "min_protein"; "max_carbs"; "max_fat"; "max_sugar";
    "max_sodium"; "max_prep_time"; "max_cook_time" ].

Definition is_white (c : ascii) : bool :=
  let n := N_of_ascii c in ((n =? 32) || ((9 <=? n) && (n <=? 13)))%N.

Fixpoint skip_white (s : string) : string :=
  match s with
  | EmptyString => EmptyString
  | String c rest => if is_white c then skip_white rest else s
  end.

Definition digit (c : ascii) : option Z :=
  let n := N_of_ascii c in
  if ((48 <=? n) && (n <=? 57))%N then Some (Z.of_N (n - 48)) else None.

(** The value of the longest prefix of decimal digits; [acc] is [None]
    until a digit has been read. *)
Fixpoint digits (s : string) (acc : option Z) : option Z :=
  match s with
  | EmptyString => acc
  | String c rest =>
      match digit c with
      | Some d => digits rest (Some (10 * default 0 acc + d))
      | None => acc
      end
  end.

(** [parseInt(s, 10)]: leading white space, an optional sign, then decimal
    digits; [NaN] when no digit follows.  The value is the integer the
    digits denote; JavaScript returns the nearest double, which is that
    integer up to 2^53 and may differ from it beyond. *)
Definition parseInt (s : string) : jsval :=
  let t := skip_white s in
  let '(sign, body) :=
    match t with
    | String "-" rest => (-1, rest)
    | String "+" rest => (1, rest)
    | _ => (1, t)
    end in
  match digits body None with
  | Some n => JNum (inject_Z (sign * n))
  | None => JNaN
  end.

(** One round of the [numericFields.forEach] loop.  The numeric fields hold
    strings (see [entries]), so a truthy value found here is a string. *)
Definition convert (clean : list (string * jsval)) (field : string)
  : list (string * jsval) :=
  match lookup_field field clean with
  | JStr s => if truthy (JStr s) then set_field field (parseInt s) clean else clean
  | _ => clean
  end.

(** The object [handleApplyFilters] dispatches with [searchRecipes]. *)
Definition handleApplyFilters (f : FilterState) : list (string * jsval) :=
  fold_left convert numericFields
    (List.filter (fun kv => supplied (snd kv)) (entries f)).

Definition empty_form : FilterState :=
  {| dietary_preferences := []; cuisine_type := ""; difficulty_level := "";
     max_prep_time := ""; max_cook_time := ""; query := "";
     max_calories := ""; min_protein := ""; max_carbs := ""; max_fat := "";
     max_sugar := ""; max_sodium := "" |}.

End RecipesPage.

(** ** JavaScript strings (ASCII) and the array toggle

    The string methods the pages call, on strings of ASCII characters. *)

Module JSString.

Definition is_white (c : ascii) : bool :=
  let n := N_of_ascii c in ((n =? 32) || ((9 <=? n) && (n <=? 13)))%N.

Definition lower_char (c : ascii) : ascii :=
  let n := N_of_ascii c in
  if ((65 <=? n) && (n <=? 90))%N then ascii_of_N (n + 32) else c.

Fixpoint toLowerCase (s : string) : string :=
  match s with
  | EmptyString => EmptyString
  | String c rest => String (lower_char c) (toLowerCase rest)
  end.

Fixpoint startsWith (s p : string) : bool :=
  match p, s with
  | EmptyString, _ => true
  | String a p', String b s' => Ascii.eqb a b && startsWith s' p'
  | String _ _, EmptyString => false
  end.

(** [s.includes(p)] *)
Fixpoint includes (s p : string) : bool :=
  startsWith s p
  || match s with
     | EmptyString => false
     | String _ s' => includes s' p
     end.

Fixpoint trimStart (s : string) : string :=
  match s with
  | EmptyString => EmptyString
  | String c rest => if is_white c then trimStart rest else s
  end.

Fixpoint trimEnd (s : string) : string :=
  match s with
  | EmptyString => EmptyString
  | String c rest =>
      let r := trimEnd rest in
      if is_white c && String.eqb r "" then EmptyString else String c r
  end.

Definition trim (s : string) : string := trimEnd (trimStart s).

(** Only white space, or nothing. *)
Fixpoint blank (s : string) : bool :=
  match s with
  | EmptyString => true
  | String c rest => is_white c && blank rest
  end.

(** [s.split('\n')]; [cur] is the piece being read. *)
Fixpoint split_lines (s : string) (cur : string) : list string :=
  match s with
  | EmptyString => [cur]
  | String c rest =>
      if Ascii.eqb c "010" then cur :: split_lines rest ""
      else split_lines rest (cur +:+ String c EmptyString)
  end.

(** [l.includes(v) ? l.filter(p => p !== v) : [...l, v]], the expression
    behind the preference check boxes of Recipes.js and Profile.js. *)
Definition toggled (l : list string) (v : string) : list string :=
  if existsb (String.eqb v) l
  then List.filter (fun p => negb (String.eqb p v)) l
  else l ++ [v].

End JSString.

(** ** The filter form's handlers (frontend/src/pages/Recipes.js) *)

Module FilterForm.
Import JS RecipesPage.

(** The keys [handleFilterChange] is called with. *)
Inductive FilterKey : Type :=
| KCuisineType | KDifficultyLevel | KMaxPrepTime | KMaxCookTime | KQuery
| KMaxCalories | KMinProtein | KMaxCarbs | KMaxFat | KMaxSugar | KMaxSodium.

Definition key_name (k : FilterKey) : string :=
  match k with
  | KCuisineType => "cuisine_type"
  | KDifficultyLevel => "difficulty_level"
  | KMaxPrepTime => "max_prep_time"
  | KMaxCookTime => "max_cook_time"
  | KQuery => "query"
  | KMaxCalories => "max_calories"
  | KMinProtein => "min_protein"
  | KMaxCarbs => "max_carbs"
  | KMaxFat => "max_fat"
  | KMaxSugar => "max_sugar"
  | KMaxSodium => "max_sodium"
  end.

Definition with_dietary (f : FilterState) (l : list string) : FilterState :=
  {| dietary_preferences := l; cuisine_type := cuisine_type f;
     difficulty_level := difficulty_level f; max_prep_time := max_prep_time f;
     max_cook_time := max_cook_time f; query := query f;
     max_calories := max_calories f; min_protein := min_protein f;
     max_carbs := max_carbs f; max_fat := max_fat f;
     max_sugar := max_sugar f; max_sodium := max_sodium f |}.

(** [setFilters(prev => ({ ...prev, [key]: value }))] *)
Definition handleFilterChange (f : FilterState) (k : FilterKey) (value : string)
  : FilterState :=
  let pick k' old := match k, k' with
                     | KCuisineType, KCuisineType
                     | KDifficultyLevel, KDifficultyLevel
                     | KMaxPrepTime, KMaxPrepTime
                     | KMaxCookTime, KMaxCookTime
                     | KQuery, KQuery
                     | KMaxCalories, KMaxCalories
                     | KMinProtein, KMinProtein
                     | KMaxCarbs, KMaxCarbs
                     | KMaxFat, KMaxFat
                     | KMaxSugar, KMaxSugar
                     | KMaxSodium, KMaxSodium => value
                     | _, _ => old
                     end in
  {| dietary_preferences := dietary_preferences f;
     cuisine_type := pick KCuisineType (cuisine_type f);
     difficulty_level := pick KDifficultyLevel (difficulty_level f);
     max_prep_time := pick KMaxPrepTime (max_prep_time f);
     max_cook_time := pick KMaxCookTime (max_cook_time f);
     query := pick KQuery (query f);
     max_calories := pick KMaxCalories (max_calories f);
     min_protein := pick KMinProtein (min_protein f);
     max_carbs := pick KMaxCarbs (max_carbs f);
     max_fat := pick KMaxFat (max_fat f);
     max_sugar := pick KMaxSugar (max_sugar f);
     max_sodium := pick KMaxSodium (max_sodium f) |}.

Definition handleDietaryPreferenceToggle (f : FilterState) (preference : string)
  : FilterState :=
  with_dietary f (JSString.toggled (dietary_preferences f) preference).

(** The form [handleClearFilters] sets. *)
Definition handleClearFilters (f : FilterState) : FilterState := empty_form.

(** What one round of the conversion loop does to a value. *)
Definition converted (v : jsval) : jsval :=
  match v with
  | JStr s => if truthy (JStr s) then parseInt s else v
  | _ => v
  end.

(** What the request carries for a value of the form under key [k]. *)
Definition sent (k : string) (v : jsval) : jsval :=
  if supplied v then
    match v with
    | JStr s => if bool_decide (k ∈ numericFields) then parseInt s else v
    | _ => v
    end
  else JUndefined.

Fixpoint all_white (s : string) : bool :=
  match s with
  | EmptyString => true
  | String c rest => is_white c && all_white rest
  end.

(** An optional sign in front of a numeral. *)
Definition sign_text (sign : option bool) : string :=
  match sign with
  | None => ""
  | Some true => "-"
  | Some false => "+"
  end.

Definition sign_factor (sign : option bool) : Z :=
  match sign with
  | Some true => -1
  | _ => 1
  end.

Definition digit_char (d : N) : ascii := ascii_of_N (48 + d).

(** The numeral written with the digits [ds], and its value. *)
Fixpoint numeral (ds : list N) : string :=
  match ds with
  | [] => EmptyString
  | d :: rest => String (digit_char d) (numeral rest)
  end.

Definition numeral_value (ds : list N) : Z :=
  fold_left (fun acc d => 10 * acc + Z.of_N d) ds 0.

(** A string that does not go on with a digit. *)
Definition stops_digits (rest : string) : Prop :=
  match rest with
  | EmptyString => True
  | String c _ => digit c = None
  end.

End FilterForm.

(** ** Recipe cards (frontend/src/pages/Recipes.js, RecipeDetail.js) *)

Module RecipeCards.
Import JS.

Inductive Emoji : Type :=
| Pasta | Chicken | Salad | Curry | Taco | Bento | Noodles
| Baguette | Olive | Burger | Plate.

(** [(v).toLowerCase()] for the value of an [a || b || ''] chain: a
    [TypeError] when the value is not a string. *)
Definition lowered (v : jsval) : option string :=
  match v with
  | JStr s => Some (JSString.toLowerCase s)
  | _ => None
  end.

Definition title_of (recipe : jsval) : option string :=
  t ← get_prop recipe "title";
  n ← get_prop recipe "name";
  lowered (or_else (or_else t n) (JStr "")).

Definition cuisine_of (recipe : jsval) : option string :=
  c ← get_prop recipe "cuisine_type";
  lowered (or_else c (JStr "")).

(** The chain of tests that both pages share. *)
Definition common_emoji (title cuisine : string) : option Emoji :=
  if JSString.includes title "pasta" || JSString.includes title "italian"
  then Some Pasta
  else if JSString.includes title "chicken" || JSString.includes title "stir"
          || JSString.includes cuisine "chinese"
  then Some Chicken
  else if JSString.includes title "salad" || JSString.includes title "fresh"
  then Some Salad
  else if JSString.includes cuisine "indian" then Some Curry
  else if JSString.includes cuisine "mexican" then Some Taco
  else if JSString.includes cuisine "japanese" then Some Bento
  else if JSString.includes cuisine "thai" then Some Noodles
  else None.

(** [getRecipeImage] of Recipes.js. *)
Definition getRecipeImage (recipe : jsval) : option Emoji :=
  title ← title_of recipe;
  cuisine ← cuisine_of recipe;
  Some (default Plate (common_emoji title cuisine)).

(** The emoji of RecipeDetail.js: three more cuisines before the plate. *)
Definition detail_emoji (title cuisine : string) : Emoji :=
  match common_emoji title cuisine with
  | Some e => e
  | None =>
      if JSString.includes cuisine "french" then Baguette
      else if JSString.includes cuisine "mediterranean" then Olive
      else if JSString.includes cuisine "american" then Burger
      else Plate
  end.

(** [getRecipeImage] of RecipeDetail.js; [recipeImageUrl] is the component's
    state, an uploaded image's URL or [null]. *)
Definition getRecipeImage_detail (recipeImageUrl : option string) (recipe : jsval)
  : option (string + Emoji) :=
  let emoji :=
    title ← title_of recipe;
    cuisine ← cuisine_of recipe;
    Some (inr (detail_emoji title cuisine)) in
  match recipeImageUrl with
  | Some url => if negb (String.eqb url "") then Some (inl url) else emoji
  | None => emoji
  end.

(** [recipe.match_percentage || recipe.match || recipe.matchScore || 0] of
    [renderRecipeCard]. *)
Definition matchPercent (recipe : jsval) : option jsval :=
  a ← get_prop recipe "match_percentage";
  b ← get_prop recipe "match";
  c ← get_prop recipe "matchScore";
  Some (or_else (or_else (or_else a b) c) (JNum 0)).

(** Whether the card shows the match badge: the truthiness of
    [matchPercent && Number(matchPercent) > 0]; [number] is [Number] on the
    values that are not numbers already ([None] for [NaN]). *)
Definition isMatching (number : jsval → option Q) (recipe : jsval) : option bool :=
  mp ← matchPercent recipe;
  Some (truthy mp
        && match mp with
           | JNum q => negb (Qle_bool q 0)
           | JNaN => false
           | v => match number v with
                  | Some q => negb (Qle_bool q 0)
                  | None => false
                  end
           end).

End RecipeCards.

(** ** Saving a generated recipe (frontend/src/pages/Recipes.js,
    [handleSaveGeneratedRecipe]) *)

Module GeneratedRecipe.
Import JS.

(** [recipeText.split('\n').map(line => line.trim()).filter(line => line)] *)
Definition lines_of (recipeText : string) : list string :=
  List.filter (fun line => negb (String.eqb line ""))
    (JSString.trim <$> JSString.split_lines recipeText "").

Definition ingredients_header (lowerLine : string) : bool :=
  JSString.includes lowerLine "ingredients"
  || JSString.includes lowerLine "ingredients:".

Definition instructions_header (lowerLine : string) : bool :=
  JSString.includes lowerLine "instructions"
  || JSString.includes lowerLine "directions"
  || JSString.includes lowerLine "steps".

Definition description_header (lowerLine : string) : bool :=
  JSString.includes lowerLine "description"
  || JSString.includes lowerLine "about".

(** A line the loop can store: not a header, not empty. *)
Definition storable (line : string) : bool :=
  negb (ingredients_header (JSString.toLowerCase line)
        || instructions_header (JSString.toLowerCase line)
        || description_header (JSString.toLowerCase line))
  && negb (String.eqb line "").

(** A line that switches the section and is itself dropped. *)
Definition is_header (line : string) : bool :=
  let lowerLine := JSString.toLowerCase line in
  ingredients_header lowerLine || instructions_header lowerLine
  || description_header lowerLine.

(** The variables of the parsing loop. *)
Record Scan : Type := {
  inIngredients : bool;
  inInstructions : bool;
  ingredients : list string;
  instructions : list string;
  description : string
}.

Definition start : Scan :=
  {| inIngredients := false; inInstructions := false; ingredients := [];
     instructions := []; description := "" |}.

Definition enter (st : Scan) (ing ins : bool) : Scan :=
  {| inIngredients := ing; inInstructions := ins;
     ingredients := ingredients st; instructions := instructions st;
     description := description st |}.

Definition nonempty (line : string) : bool := negb (String.eqb line "").

(** One round of [for (const line of lines.slice(1))]. *)
Definition scan_line (st : Scan) (line : string) : Scan :=
  let lowerLine := JSString.toLowerCase line in
  if ingredients_header lowerLine then enter st true false
  else if instructions_header lowerLine then enter st false true
  else if description_header lowerLine then enter st false false
  else if inIngredients st && nonempty line then
    {| inIngredients := inIngredients st; inInstructions := inInstructions st;
       ingredients := ingredients st ++ [line];
       instructions := instructions st; description := description st |}
  else if inInstructions st && nonempty line then
    {| inIngredients := inIngredients st; inInstructions := inInstructions st;
       ingredients := ingredients st;
       instructions := instructions st ++ [line];
       description := description st |}
  else if negb (inIngredients st) && negb (inInstructions st) && nonempty line
          && negb (nonempty (description st)) then
    {| inIngredients := inIngredients st; inInstructions := inInstructions st;
       ingredients := ingredients st; instructions := instructions st;
       description := line |}
  else st.

Definition scan (lines : list string) : Scan :=
  fold_left scan_line (tail lines) start.

(** The body of the [POST /save-recipe] request. *)
Record RecipeData : Type := {
  d_title : string;
  d_description : string;
  d_ingredients : jsval;
  d_instructions : list string;
  d_cuisine_type : string;
  d_difficulty_level : string
}.

(** [recipeText] is [generatedRecipe.recipe], [given] is
    [generatedRecipe.ingredients]. *)
Definition recipeData (recipeText : string) (given : jsval) : RecipeData :=
  let lines := lines_of recipeText in
  let st := scan lines in
  {| d_title := match lines with
                | first :: _ => first
                | [] => "Generated Recipe"
                end;
     d_description := description st;
     d_ingredients := match ingredients st with
                      | [] => or_else given (JArr [])
                      | l => JArr (JStr <$> l)
                      end;
     d_instructions := match instructions st with
                       | [] => [recipeText]
                       | l => l
                       end;
     d_cuisine_type := "General";
     d_difficulty_level := "medium" |}.

End GeneratedRecipe.

(** ** Request headers (frontend/src/utils/api-config.js) *)

Module ApiConfig.
Import JS.

(** The own properties of an object: for each key its visible binding. *)
Fixpoint own (obj : list (string * jsval)) : list (string * jsval) :=
  match obj with
  | [] => []
  | (k, v) :: rest =>
      (k, v) :: List.filter (fun kv => negb (String.eqb (fst kv) k)) (own rest)
  end.

(** [k in obj] *)
Definition has_key (k : string) (obj : list (string * jsval)) : bool :=
  existsb (fun kv => String.eqb k (fst kv)) obj.

(** [{ ...target, ...source }] *)
Definition assign (target source : list (string * jsval))
  : list (string * jsval) :=
  fold_left (fun acc kv => set_field (fst kv) (snd kv) acc) (own source) target.

(** [localStorage.getItem('token')] is a string or [null]; the header value
    when the token is truthy. *)
Definition bearer (token : option string) : option jsval :=
  match token with
  | Some t => if String.eqb t "" then None else Some (JStr ("Bearer " +:+ t))
  | None => None
  end.

Definition with_token (token : option string) (headers : list (string * jsval))
  : list (string * jsval) :=
  match bearer token with
  | Some b => set_field "Authorization" b headers
  | None => headers
  end.

Definition getApiHeaders (token : option string)
    (additionalHeaders : list (string * jsval)) : list (string * jsval) :=
  with_token token
    (assign [("Content-Type", JStr "application/json")] additionalHeaders).

Definition getFormDataHeaders (token : option string)
    (additionalHeaders : list (string * jsval)) : list (string * jsval) :=
  with_token token (assign [] additionalHeaders).

(** The options [secureFetch] hands to [fetch]. *)
Definition secureFetch (token : option string) (options : list (string * jsval))
  : list (string * jsval) :=
  set_field "headers"
    (or_else (lookup_field "headers" options) (JObj (getApiHeaders token [])))
    (assign [] options).

End ApiConfig.

(** ** The image upload dialog (frontend/src/components/ImageUploadModal.js) *)

Module ImageUploadModal.
Import JS.

Record File : Type := {
  file_name : string;
  file_type : string;
  file_size : Z
}.

Record ModalState : Type := {
  selectedFile : option File;
  preview : option string;
  uploading : bool;
  error : jsval
}.

Definition initial : ModalState :=
  {| selectedFile := None; preview := None; uploading := false;
     error := JStr "" |}.

Definition allowedTypes : list string :=
  ["image/jpeg"; "image/jpg"; "image/png"; "image/gif"; "image/webp"].

Definition with_error (st : ModalState) (e : jsval) : ModalState :=
  {| selectedFile := selectedFile st; preview := preview st;
     uploading := uploading st; error := e |}.

(** [handleFileSelect] on [event.target.files]; the preview arrives later,
    when the reader has loaded the file ([previewLoaded]). *)
Definition handleFileSelect (st : ModalState) (files : list File) : ModalState :=
  match files with
  | [] => st
  | file :: _ =>
      if negb (existsb (String.eqb (file_type file)) allowedTypes) then
        with_error st
          (JStr "Please select a valid image file (JPEG, PNG, GIF, or WebP)")
      else if 5 * 1024 * 1024 <? file_size file then
        with_error st (JStr "Image file must be less than 5MB")
      else
        {| selectedFile := Some file; preview := preview st;
           uploading := uploading st; error := JStr "" |}
  end.

Definition previewLoaded (st : ModalState) (dataUrl : string) : ModalState :=
  {| selectedFile := selectedFile st; preview := Some dataUrl;
     uploading := uploading st; error := error st |}.

Definition handleDrop (st : ModalState) (files : list File) : ModalState :=
  match files with
  | [] => st
  | file :: _ => handleFileSelect st [file]
  end.

Definition resetModal (st : ModalState) : ModalState :=
  {| selectedFile := None; preview := None; uploading := uploading st;
     error := JStr "" |}.

(** How the upload request ended: a success response with its [image_url],
    an error response with its [error], or an exception. *)
Inductive UploadOutcome : Type :=
| UploadOk (image_url : jsval)
| UploadRefused (message : jsval)
| UploadThrew.

(** [handleUpload]: the state when it has settled, and the file sent. *)
Definition handleUpload (st : ModalState) (outcome : UploadOutcome)
  : ModalState * option File :=
  match selectedFile st with
  | None => (with_error st (JStr "Please select an image to upload"), None)
  | Some file =>
      ({| selectedFile := selectedFile st; preview := preview st;
          uploading := false;
          error := match outcome with
                   | UploadOk _ => JStr ""
                   | UploadRefused m => or_else m (JStr "Failed to upload image")
                   | UploadThrew => JStr "Network error. Please try again."
                   end |},
       Some file)
  end.

Inductive Event : Type :=
| Select (files : list File)
| Drop (files : list File)
| PreviewLoaded (dataUrl : string)
| Reset
| Upload (outcome : UploadOutcome).

Definition step (st : ModalState) (e : Event) : ModalState :=
  match e with
  | Select files => handleFileSelect st files
  | Drop files => handleDrop st files
  | PreviewLoaded url => previewLoaded st url
  | Reset => resetModal st
  | Upload outcome => fst (handleUpload st outcome)
  end.

(** A file the dialog accepts. *)
Definition acceptable (file : File) : Prop :=
  file_type file ∈ allowedTypes ∧ file_size file <= 5242880.

End ImageUploadModal.

(** ** recipeSlice (frontend/src/features/recipeSlice.js) *)

Module RecipeSlice.
Import JS.

Record State : Type := {
  recipes : jsval;
  currentRecipe : jsval;
  generatedRecipe : jsval;
  suggestions : jsval;
  instructions : jsval;
  loading : bool;
  error : jsval;
  totalRecipes : jsval;
  currentPage : jsval;
  totalPages : jsval
}.

Definition initialState : State :=
  {| recipes := JArr []; currentRecipe := JNull; generatedRecipe := JNull;
     suggestions := JArr []; instructions := JArr []; loading := false;
     error := JNull; totalRecipes := JNum 0; currentPage := JNum 1;
     totalPages := JNum 1 |}.

(** [v.length]: a [TypeError] on [undefined] and [null]. *)
Definition js_length (v : jsval) : option jsval :=
  match v with
  | JUndefined | JNull => None
  | JArr items => Some (JNum (inject_Z (Z.of_nat (length items))))
  | JStr s => Some (JNum (inject_Z (Z.of_nat (String.length s))))
  | JObj fields => Some (lookup_field "length" fields)
  | _ => Some JUndefined
  end.

Definition clearError (s : State) : State :=
  {| recipes := recipes s; currentRecipe := currentRecipe s;
     generatedRecipe := generatedRecipe s; suggestions := suggestions s;
     instructions := instructions s; loading := loading s; error := JNull;
     totalRecipes := totalRecipes s; currentPage := currentPage s;
     totalPages := totalPages s |}.

Definition setCurrentRecipe (s : State) (payload : jsval) : State :=
  {| recipes := recipes s; currentRecipe := payload;
     generatedRecipe := generatedRecipe s; suggestions := suggestions s;
     instructions := instructions s; loading := loading s; error := error s;
     totalRecipes := totalRecipes s; currentPage := currentPage s;
     totalPages := totalPages s |}.

Definition setRecipes (s : State) (payload : jsval) : option State :=
  n ← js_length payload;
  Some {| recipes := payload; currentRecipe := currentRecipe s;
          generatedRecipe := generatedRecipe s; suggestions := suggestions s;
          instructions := instructions s; loading := loading s;
          error := error s; totalRecipes := n; currentPage := currentPage s;
          totalPages := totalPages s |}.

Definition clearGeneratedRecipe (s : State) : State :=
  {| recipes := recipes s; currentRecipe := currentRecipe s;
     generatedRecipe := JNull; suggestions := suggestions s;
     instructions := instructions s; loading := loading s; error := error s;
     totalRecipes := totalRecipes s; currentPage := currentPage s;
     totalPages := totalPages s |}.

Definition clearSuggestions (s : State) : State :=
  {| recipes := recipes s; currentRecipe := currentRecipe s;
     generatedRecipe := generatedRecipe s; suggestions := JArr [];
     instructions := instructions s; loading := loading s; error := error s;
     totalRecipes := totalRecipes s; currentPage := currentPage s;
     totalPages := totalPages s |}.

Definition pending (s : State) : State :=
  {| recipes := recipes s; currentRecipe := currentRecipe s;
     generatedRecipe := generatedRecipe s; suggestions := suggestions s;
     instructions := instructions s; loading := true; error := error s;
     totalRecipes := totalRecipes s; currentPage := currentPage s;
     totalPages := totalPages s |}.

Definition rejected (s : State) (message : jsval) : State :=
  {| recipes := recipes s; currentRecipe := currentRecipe s;
     generatedRecipe := generatedRecipe s; suggestions := suggestions s;
     instructions := instructions s; loading := false; error := message;
     totalRecipes := totalRecipes s; currentPage := currentPage s;
     totalPages := totalPages s |}.

Definition fetchRecipes_fulfilled (s : State) (payload : jsval) : option State :=
  r ← get_prop payload "recipes";
  t ← get_prop payload "total_recipes";
  Some {| recipes := r; currentRecipe := currentRecipe s;
          generatedRecipe := generatedRecipe s; suggestions := suggestions s;
          instructions := instructions s; loading := false; error := error s;
          totalRecipes := t; currentPage := currentPage s;
          totalPages := totalPages s |}.

Definition searchRecipes_fulfilled (s : State) (payload : jsval) : option State :=
  r ← get_prop payload "recipes";
  t ← get_prop payload "total_recipes";
  tp ← get_prop payload "total_pages";
  cp ← get_prop payload "current_page";
  Some {| recipes := r; currentRecipe := currentRecipe s;
          generatedRecipe := generatedRecipe s; suggestions := suggestions s;
          instructions := instructions s; loading := false; error := error s;
          totalRecipes := t; currentPage := cp; totalPages := tp |}.

Definition generateRecipe_fulfilled (s : State) (payload : jsval) : State :=
  {| recipes := recipes s; currentRecipe := currentRecipe s;
     generatedRecipe := payload; suggestions := suggestions s;
     instructions := instructions s; loading := false; error := error s;
     totalRecipes := totalRecipes s; currentPage := currentPage s;
     totalPages := totalPages s |}.

Definition generateRecipeSuggestions_fulfilled (s : State) (payload : jsval)
  : option State :=
  sg ← get_prop payload "suggestions";
  Some {| recipes := recipes s; currentRecipe := currentRecipe s;
          generatedRecipe := generatedRecipe s; suggestions := sg;
          instructions := instructions s; loading := false; error := error s;
          totalRecipes := totalRecipes s; currentPage := currentPage s;
          totalPages := totalPages s |}.

Definition generateInstructions_fulfilled (s : State) (payload : jsval)
  : option State :=
  i ← get_prop payload "instructions";
  Some {| recipes := recipes s; currentRecipe := currentRecipe s;
          generatedRecipe := generatedRecipe s; suggestions := suggestions s;
          instructions := i; loading := false; error := error s;
          totalRecipes := totalRecipes s; currentPage := currentPage s;
          totalPages := totalPages s |}.

End RecipeSlice.

(** ** Values as React children *)

Module React.
Import JS.

(** A value in the place of a child, [{v}]: a string or a number is shown
    as text, [undefined], [null] and the booleans show nothing, an array
    shows its elements in turn; a plain object is refused with an
    exception ([false]). *)
Fixpoint child_ok (v : jsval) : bool :=
  match v with
  | JObj _ => false
  | JArr items => forallb child_ok items
  | _ => true
  end.

End React.

(** ** The Ingredients page (frontend/src/pages/Ingredients.js) *)

Module IngredientsPage.
Import JS.

(** [x > 0] for the value of a [length]; [number] is [Number] on the values
    that are not numbers already ([None] for [NaN]). *)
Definition positive (number : jsval → option Q) (v : jsval) : bool :=
  match v with
  | JNum q => negb (Qle_bool q 0)
  | JNaN | JUndefined => false
  | _ => match number v with
         | Some q => negb (Qle_bool q 0)
         | None => false
         end
  end.

(** The effect that hands matched recipes over to the recipe slice:
    the recipe state after it, and whether it navigated to [/recipes]. *)
Definition handOver (number : jsval → option Q) (ing : IngredientSlice.State)
    (rec : RecipeSlice.State) : option (RecipeSlice.State * bool) :=
  let matched := IngredientSlice.matchedRecipes ing in
  if truthy matched then
    n ← RecipeSlice.js_length matched;
    if positive number n && negb (IngredientSlice.loading ing) then
      rec' ← RecipeSlice.setRecipes rec matched;
      Some (rec', true)
    else Some (rec, false)
  else Some (rec, false).

(** Whether the page renders in this state; [false] is an exception thrown
    while rendering.  The places that depend on the store: the error
    message, [{error && ... {error}}]; the notice of an image without
    ingredients, [!loading && !error && imageProcessed &&
    detectedIngredients.length === 0]; and the list,
    [detectedIngredients.length > 0 && ...], with its count and one
    [<span>{ingredient}</span>] for each element of
    [detectedIngredients.map]. *)
Definition renders (number : jsval → option Q) (imageProcessed : bool)
    (ing : IngredientSlice.State) : bool :=
  let detected := IngredientSlice.detectedIngredients ing in
  React.child_ok (IngredientSlice.error ing)
  && (if negb (IngredientSlice.loading ing)
         && negb (truthy (IngredientSlice.error ing)) && imageProcessed
      then match RecipeSlice.js_length detected with
           | Some _ => true
           | None => false
           end
      else true)
  && match RecipeSlice.js_length detected with
     | None => false
     | Some n =>
         if positive number n then
           React.child_ok n
           && match detected with
              | JArr items => forallb React.child_ok items
              | _ => false               (* no [map] to call *)
              end
         else true
     end.

(** The page after a store update: it renders, and then its effect runs;
    [None] when either throws. *)
Definition shown (number : jsval → option Q) (imageProcessed : bool)
    (ing : IngredientSlice.State) (rec : RecipeSlice.State)
  : option (RecipeSlice.State * bool) :=
  if renders number imageProcessed ing then handOver number ing rec else None.

(** [handleAddManualIngredient]: the action dispatched, if any, and the
    text left in the input. *)
Definition handleAddManualIngredient (manualIngredient : string)
  : option IngredientSlice.Action * string :=
  if negb (String.eqb (JSString.trim manualIngredient) "")
  then (Some (IngredientSlice.AddIngredient (JStr (JSString.trim manualIngredient))),
        "")
  else (None, manualIngredient).

End IngredientsPage.

(** ** ResultCard of the bundled App (the component that follows
    ImageUploader in backend/frontend/src/components/ImageUploader.jsx) *)

Module ResultCard.
Import JS.

(** What the ingredients section shows: the message that nothing was
    detected, or a tag for each ingredient and a card, with name and
    confidence, for each detected item. *)
Inductive IngredientsSection : Type :=
| NoIngredients
| Detected (tags : list jsval) (cards : list (jsval * jsval)).

(** One card of [detectedItems.map]: [{item.name}] and the figure computed
    from [item.confidence]. *)
Definition card (item : jsval) : option (jsval * jsval) :=
  name ← get_prop item "name";
  confidence ← get_prop item "confidence";
  if React.child_ok name then Some (name, confidence) else None.

(** [detectedItems && detectedItems.length > 0 && detectedItems.map(...)] *)
Definition cards_of (number : jsval → option Q) (detectedItems : jsval)
  : option (list (jsval * jsval)) :=
  if truthy detectedItems then
    n ← RecipeSlice.js_length detectedItems;
    if IngredientsPage.positive number n then
      match detectedItems with
      | JArr items => mapM card items
      | _ => None
      end
    else Some []
  else Some [].

(** The ingredients section, [ingredients && ingredients.length > 0 ? ... :
    ...]: each element of [ingredients] is the text of a tag,
    [<span>{ingredient}</span>].  [None] is an exception thrown while
    rendering. *)
Definition ingredientsSection (number : jsval → option Q)
    (p : App.ResultCardProps) : option IngredientsSection :=
  if truthy (App.ingredients p) then
    n ← RecipeSlice.js_length (App.ingredients p);
    if IngredientsPage.positive number n then
      match App.ingredients p with
      | JArr items =>
          if forallb React.child_ok items then
            cards ← cards_of number (App.detectedItems p);
            Some (Detected items cards)
          else None
      | _ => None
      end
    else Some NoIngredients
  else Some NoIngredients.

(** The match figure of a recipe card, [(recipe.match_score * 100)
    .toFixed(0)]: the value it is computed from. *)
Definition matchScore (recipe : jsval) : option jsval :=
  get_prop recipe "match_score".

End ResultCard.

(** ** The Profile page (frontend/src/pages/Profile.js) *)

Module ProfilePage.
Import JS UserSlice.

(** The preference lists [handlePreferenceChange] is called for. *)
Inductive PreferenceType : Type := Dietary | Cuisine.

Definition other_type (ty : PreferenceType) : PreferenceType :=
  match ty with Dietary => Cuisine | Cuisine => Dietary end.

Definition currentPrefs (s : State) (ty : PreferenceType) : list string :=
  match ty with
  | Dietary => dietary (preferences (profile s))
  | Cuisine => cuisine (preferences (profile s))
  end.

(** [{ [preferenceType]: newPrefs }] *)
Definition patch (ty : PreferenceType) (newPrefs : list string) : PreferencesPatch :=
  {| p_dietary := match ty with Dietary => Some newPrefs | Cuisine => None end;
     p_cuisine := match ty with Cuisine => Some newPrefs | Dietary => None end;
     p_difficulty := None; p_pref_extra := ∅ |}.

Definition handlePreferenceChange (s : State) (ty : PreferenceType) (value : string)
  : State :=
  updatePreferences s (patch ty (JSString.toggled (currentPrefs s ty) value)).

Definition handleRemoveFavorite (s : State) (recipeId : Z) : State :=
  removeFromFavorites s recipeId.

End ProfilePage.

(** ** The recipe browser of the bundled App (backend/frontend/src/App.jsx) *)

Module Browse.
Import JS.

Record BrowseState : Type := {
  allRecipes : jsval;
  showBrowse : bool;
  browseLoading : bool
}.

Definition initial : BrowseState :=
  {| allRecipes := JArr []; showBrowse := false; browseLoading := false |}.

(** How [getAllRecipes] ended: with the response data, or by throwing. *)
Inductive FetchOutcome : Type :=
| Fetched (data : jsval)
| Failed.

(** [allRecipes.length === 0] *)
Definition is_empty (v : jsval) : option bool :=
  n ← RecipeSlice.js_length v;
  Some match n with
       | JNum q => Qeq_bool q 0
       | _ => false
       end.

(** [handleBrowseRecipes], settled; [None] is a [TypeError] outside the
    [try] block. *)
Definition handleBrowseRecipes (st : BrowseState) (outcome : FetchOutcome)
  : option BrowseState :=
  noneLoaded ← is_empty (allRecipes st);
  let loaded :=
    if (noneLoaded : bool) then
      match outcome with
      | Fetched data =>
          match get_prop data "recipes" with
          | Some r => or_else r (JArr [])
          | None => allRecipes st      (* caught: the alert, no update *)
          end
      | Failed => allRecipes st
      end
    else allRecipes st in
  Some {| allRecipes := loaded; showBrowse := negb (showBrowse st);
          browseLoading := if (noneLoaded : bool) then false
                           else browseLoading st |}.

(** One ingredient of a card, [{ing.quantity} {ing.unit} {ing.name}]; the
    notes go into a template string. *)
Definition ingredient_renders (ing : jsval) : bool :=
  match get_prop ing "quantity", get_prop ing "unit", get_prop ing "name" with
  | Some q, Some u, Some n =>
      React.child_ok q && React.child_ok u && React.child_ok n
  | _, _, _ => false
  end.

(** One step of a card, [{step.step_number}. {step.description}]. *)
Definition step_renders (step : jsval) : bool :=
  match get_prop step "step_number", get_prop step "description" with
  | Some n, Some d => React.child_ok n && React.child_ok d
  | _, _ => false
  end.

(** [recipe.instructions && recipe.instructions.length > 0 &&
    ... recipe.instructions.slice(0, 2).map(...)] *)
Definition instructions_render (number : jsval → option Q) (instructions : jsval)
  : bool :=
  if truthy instructions then
    match RecipeSlice.js_length instructions with
    | Some n =>
        if IngredientsPage.positive number n then
          match instructions with
          | JArr steps => forallb step_renders (take 2 steps)
          | _ => false
          end
        else true
    | None => false
    end
  else true.

(** [recipe.nutrition && ...]: each of the four values is shown when it is
    truthy. *)
Definition nutrition_renders (nutrition : jsval) : bool :=
  if truthy nutrition then
    forallb (fun k => match get_prop nutrition k with
                      | Some v => React.child_ok v
                      | None => false
                      end)
      ["calories"; "protein"; "carbohydrates"; "fat"]
  else true.

(** One card of [allRecipes.map]; [false] is an exception thrown while
    rendering.  [recipe.prep_time + recipe.cook_time] is a number or a
    string whatever the two values are. *)
Definition card_renders (number : jsval → option Q) (recipe : jsval) : bool :=
  match get_prop recipe "title", get_prop recipe "servings",
        get_prop recipe "description", get_prop recipe "ingredients",
        get_prop recipe "instructions", get_prop recipe "nutrition" with
  | Some title, Some servings, Some description, Some ingredients,
    Some instructions, Some nutrition =>
      React.child_ok title && React.child_ok servings
      && React.child_ok description
      && match ingredients with
         | JArr ings => forallb ingredient_renders (take 4 ings)
         | _ => false                    (* no [slice], or no [map] *)
         end
      && instructions_render number instructions
      && nutrition_renders nutrition
  | _, _, _, _, _, _ => false
  end.

(** The browse section, [{showBrowse && ...}], with the count
    [{allRecipes.length}] and the cards of [allRecipes.map]. *)
Definition browse_renders (number : jsval → option Q) (st : BrowseState) : bool :=
  if showBrowse st then
    match RecipeSlice.js_length (allRecipes st) with
    | Some n =>
        React.child_ok n
        && match allRecipes st with
           | JArr rs => forallb (card_renders number) rs
           | _ => false
           end
    | None => false
    end
  else true.

(** An answer whose [recipes], when there are any, are an array of recipes
    that the cards can show. *)
Definition presentable (number : jsval → option Q) (o : FetchOutcome) : Prop :=
  match o with
  | Failed => True
  | Fetched data =>
      match get_prop data "recipes" with
      | Some r =>
          truthy r = false
          ∨ ∃ rs, r = JArr rs ∧ forallb (card_renders number) rs = true
      | None => True
      end
  end.

(** Presses of the button, each with the outcome its request would have;
    the section is rendered when a press has settled, and an exception
    there ends the session ([None]). *)
Fixpoint presses (number : jsval → option Q) (st : BrowseState)
    (outcomes : list FetchOutcome) : option BrowseState :=
  match outcomes with
  | [] => Some st
  | o :: rest =>
      st' ← handleBrowseRecipes st o;
      if browse_renders number st' then presses number st' rest else None
  end.

(** A sequence of clicks, each with the outcome its request would have. *)
Fixpoint clicks (st : BrowseState) (outcomes : list FetchOutcome)
  : option BrowseState :=
  match outcomes with
  | [] => Some st
  | o :: rest => st' ← handleBrowseRecipes st o; clicks st' rest
  end.

End Browse.

(** ** Text normalisation

    The Text Normalizer runs on the server and is not in the source tree;
    it follows section 2 and the NormalizedToken entry of section 3 of the
    design document, on ASCII text. *)

Module Text.

Definition code (c : ascii) : N := N_of_ascii c.

Definition lower_char (c : ascii) : ascii :=
  if ((65 <=? code c) && (code c <=? 90))%N
  then ascii_of_N (code c + 32) else c.

Definition is_space (c : ascii) : bool :=
  ((code c =? 32) || ((9 <=? code c) && (code c <=? 13)))%N.

Definition is_alnum (c : ascii) : bool :=
  (((48 <=? code c) && (code c <=? 57))
   || ((97 <=? code c) && (code c <=? 122))
   || ((65 <=? code c) && (code c <=? 90)))%N.

Fixpoint lower (s : string) : string :=
  match s with
  | EmptyString => EmptyString
  | String c rest => String (lower_char c) (lower rest)
  end.

Fixpoint strip_punct (s : string) : string :=
  match s with
  | EmptyString => EmptyString
  | String c rest =>
      if is_alnum c then String c (strip_punct rest) else strip_punct rest
  end.

Definition flush (cur : string) (acc : list string) : list string :=
  if String.eqb cur "" then acc else acc ++ [cur].

(** Split on white space; [cur] is the word being read. *)
Fixpoint split_ws (s : string) (cur : string) (acc : list string) : list string :=
  match s with
  | EmptyString => flush cur acc
  | String c rest =>
      if is_space c then split_ws rest "" (flush cur acc)
      else split_ws rest (cur +:+ String c EmptyString) acc
  end.

Fixpoint join (ws : list string) : string :=
  match ws with
  | [] => ""
  | [w] => w
  | w :: rest => w +:+ " " +:+ join rest
  end.

(** Modelled from the spec: the case-insensitive, whitespace-normalised
    form under which the Direct tier compares a token with a canonical
    name (section 4.3). *)
Definition squash (s : string) : string := join (split_ws (lower s) "" []).

(** Modelled from the spec: the words of a text as NormalizedTokens,
    lowercase and punctuation-stripped (section 3). *)
Definition words (text : string) : list string :=
  List.filter (fun w => negb (String.eqb w ""))
    (map strip_punct (split_ws (lower text) "" [])).

Fixpoint phrases (ws : list string) : list string :=
  match ws with
  | w1 :: ((w2 :: _) as rest) => (w1 +:+ " " +:+ w2) :: phrases rest
  | _ => []
  end.

(** Modelled from the spec: the token stream of the Text Normalizer, the
    candidate tokens and phrases of section 4.3 in reading order: the words
    of the text, then its phrases of two adjacent words. *)
Definition candidates (text : string) : list string :=
  words text ++ phrases (words text).

End Text.

(** ** Ingredient resolver

    The ingredient recognition engine ([backend/app/model.py] in the
    README's project structure) is not in the source tree; the resolver
    follows section 4.3 of the design document and the Ingredient Detection
    Algorithm of the README.  The static tables, the similarity test of the
    Fuzzy tier and the confidence of a Fallback guess are parameters. *)

Module Resolver.

Inductive Tier : Type := Variation | Direct | Fuzzy | Keyword | Fallback.

Record IngredientMatch : Type := {
  canonical_name : string;
  confidence : Q;
  tier : Tier;
  source_text : string
}.

(** An entry of the IngredientDatabase: a canonical name and its keyword
    set. *)
Record IngredientEntry : Type := {
  entry_name : string;
  entry_keywords : list string
}.

(** Modelled from the spec: the IngredientVariationTable and the
    IngredientDatabase of section 3, with what the Fuzzy and Fallback tiers
    need besides. *)
Record Tables : Type := {
  variation_table : gmap string string;  (* surface form to canonical name *)
  database : list IngredientEntry;
  similar : string → string → bool;      (* token against canonical name *)
  default_first : string;                (* the non-empty list of defaults *)
  default_rest : list string
}.

(** Modelled from the spec: the tiers tried for a token, in the fixed
    priority order of section 4.3. *)
Definition cascade : list Tier := [Variation; Direct; Fuzzy; Keyword].

(** Modelled from the spec: the confidence of each tier (section 4.3,
    README).  The Fallback tier has a band, of which this is the lower end;
    a Fallback match takes its confidence from [fallback_confidence]. *)
Definition tier_confidence (t : Tier) : Q :=
  match t with
  | Variation => 0.95
  | Direct => 0.90
  | Fuzzy => 0.75
  | Keyword => 0.80
  | Fallback => 0.60
  end.

Definition find_entry (T : Tables) (test : IngredientEntry → bool) : option string :=
  entry_name <$> List.find test (database T).

(** Modelled from the spec: what tier [t] alone says about a token
    (section 4.3): an exact lookup in the variation table; an exact match,
    case and white space apart, with a canonical name; the similarity test
    against the canonical names; the token being one of an ingredient's
    keywords.  [Fallback] is not decided per token. *)
Definition tier_match (T : Tables) (t : Tier) (tok : string) : option string :=
  match t with
  | Variation => variation_table T !! tok
  | Direct =>
      find_entry T (fun e => String.eqb (Text.squash (entry_name e)) (Text.squash tok))
  | Fuzzy => find_entry T (fun e => similar T tok (entry_name e))
  | Keyword => find_entry T (fun e => existsb (String.eqb tok) (entry_keywords e))
  | Fallback => None
  end.

(** Modelled from the spec: the cascade of section 4.3, the first tier
    that succeeds wins. *)
Fixpoint first_success (T : Tables) (tiers : list Tier) (tok : string)
  : option IngredientMatch :=
  match tiers with
  | [] => None
  | t :: rest =>
      match tier_match T t tok with
      | Some c => Some {| canonical_name := c; confidence := tier_confidence t;
                          tier := t; source_text := tok |}
      | None => first_success T rest tok
      end
  end.

Definition resolve_token (T : Tables) (tok : string) : option IngredientMatch :=
  first_success T cascade tok.

(** Modelled from the spec: merging one match into the matches so far
    (section 4.3, deduplication by canonical name): the entry of the same
    canonical name keeps its place and holds the higher confidence, the
    earlier match on a tie. *)
Fixpoint merge_match (m : IngredientMatch) (acc : list IngredientMatch)
  : list IngredientMatch :=
  match acc with
  | [] => [m]
  | a :: rest =>
      if String.eqb (canonical_name a) (canonical_name m)
      then (if Qle_bool (confidence m) (confidence a) then a else m) :: rest
      else a :: merge_match m rest
  end.

Definition merge_all (ms acc : list IngredientMatch) : list IngredientMatch :=
  fold_left (fun acc m => merge_match m acc) ms acc.

Definition dedupe (ms : list IngredientMatch) : list IngredientMatch :=
  merge_all ms [].

(** Modelled from the spec: the output ordering of section 4.3, descending
    confidence with ties in first-seen order: [m] goes behind every entry
    whose confidence is at least its own. *)
Fixpoint insert_desc (m : IngredientMatch) (l : list IngredientMatch)
  : list IngredientMatch :=
  match l with
  | [] => [m]
  | a :: rest =>
      if Qle_bool (confidence m) (confidence a)
      then a :: insert_desc m rest
      else m :: a :: rest
  end.

Definition sort_desc (ms : list IngredientMatch) : list IngredientMatch :=
  fold_left (fun acc m => insert_desc m acc) ms [].

(** The order of the output: confidence never increases down the list. *)
Definition by_confidence_desc (a b : IngredientMatch) : Prop :=
  (confidence b <= confidence a)%Q.

(** Modelled from the spec: tiers 1 to 4 over the distinct tokens, merged
    and ordered (section 4.3). *)
Definition resolve_tokens (T : Tables) (toks : list string) : list IngredientMatch :=
  sort_desc (dedupe (omap (resolve_token T) (remove_dups toks))).

Definition defaults (T : Tables) : list string := default_first T :: default_rest T.

(** Modelled from the spec: the Fallback tier's choice (section 4.3), the
    default ingredient picked by the hash of the image content. *)
Definition fallback_choice (T : Tables) (h : N) : string :=
  nth (N.to_nat (h mod N.of_nat (length (defaults T)))) (defaults T)
      (default_first T).

(** Modelled from the spec: the confidence of a Fallback match (sections 3
    and 4.3; README: hash-based selection, 60-75%).  The design document
    gives the band and the source of the value, the content hash; the model
    takes the hundredths above 0.60 from the hash, sixteen steps from 0.60
    to 0.75. *)
Definition fallback_confidence (h : N) : Q := (60 + Z.of_N (h mod 16)) # 100.

Definition fallback_match (T : Tables) (h : N) : IngredientMatch :=
  {| canonical_name := fallback_choice T h;
     confidence := fallback_confidence h;
     tier := Fallback; source_text := "" |}.

(** Modelled from the spec: the Ingredient Resolver (section 4.3); the
    Fallback tier answers only when no token matched. *)
Definition resolve (T : Tables) (h : N) (toks : list string) : list IngredientMatch :=
  match resolve_tokens T toks with
  | [] => [fallback_match T h]
  | ms => ms
  end.


End Resolver.

(** ** Image pipeline

    The server's [main.py], [image_processing.py] and [ocr_utils.py] are
    not in the source tree; the stages follow sections 2, 4.1, 4.2 and 7 of
    the design document.  Decoding, the five filters, the two engines and
    the content hash are parameters; [Run] stands for what may differ
    between two invocations on the same bytes (an engine timing out). *)

Module Pipeline.
Import Resolver.

Inductive Technique : Type :=
  Clahe | Bilateral | AdaptiveThreshold | Morphology | Sharpen.

Inductive Engine : Type := EngineA | EngineB.

Record TextFragment : Type := {
  text : string;
  source_engine : Engine;
  variant_id : Technique;
  frag_confidence : Q
}.

Record Platform (Image Run : Type) : Type := {
  decode : list byte → option Image;
  preprocess : Technique → Image → Image;
  (* the texts an engine reads on a variant, each with its confidence;
     [None] when the engine times out *)
  recognise : Run → Engine → Technique → Image → option (list (string * Q));
  same_text : string → string → bool;   (* edit distance under the threshold *)
  image_hash : list byte → N
}.
Arguments decode {Image Run}.
Arguments preprocess {Image Run}.
Arguments recognise {Image Run}.
Arguments same_text {Image Run}.
Arguments image_hash {Image Run}.

Inductive PipelineError : Type := MalformedImage.

Record Detection : Type := {
  ocr_text : string;
  fragments : list TextFragment;
  ocr_no_text : bool;                   (* the recoverable OcrNoText condition *)
  matches : list IngredientMatch
}.

(** Modelled from the spec: the Image Preprocessor of section 4.1; all five
    variants are always produced, in this order. *)
Definition techniques : list Technique :=
  [Clahe; Bilateral; AdaptiveThreshold; Morphology; Sharpen].

Definition engine_eqb (a b : Engine) : bool :=
  match a, b with
  | EngineA, EngineA | EngineB, EngineB => true
  | _, _ => false
  end.

(** Modelled from the spec: one engine on one variant (section 4.2); an
    engine that times out counts as having read nothing (section 5). *)
Definition run_engine {Image Run : Type} (P : Platform Image Run) (r : Run)
    (img : Image) (v : Technique) (e : Engine) : list TextFragment :=
  (fun tc => {| text := fst tc; source_engine := e; variant_id := v;
                frag_confidence := snd tc |})
    <$> default [] (recognise P r e v (preprocess P v img)).

Definition all_fragments {Image Run : Type} (P : Platform Image Run) (r : Run)
    (img : Image) : list TextFragment :=
  flat_map (fun v => flat_map (run_engine P r img v) [EngineA; EngineB]) techniques.

(** Modelled from the spec: the merge rule of section 4.2.  A fragment that
    describes the same text as a kept fragment of the other engine is
    collapsed with it, the higher confidence staying; any other fragment
    is kept as it is. *)
Fixpoint merge_fragment (same : string → string → bool) (f : TextFragment)
    (acc : list TextFragment) : list TextFragment :=
  match acc with
  | [] => [f]
  | a :: rest =>
      if negb (engine_eqb (source_engine a) (source_engine f))
         && same (text a) (text f)
      then (if Qle_bool (frag_confidence f) (frag_confidence a) then a else f)
           :: rest
      else a :: merge_fragment same f rest
  end.

Definition merge_fragments (same : string → string → bool)
    (fs : list TextFragment) : list TextFragment :=
  fold_left (fun acc f => merge_fragment same f acc) fs [].

(** The merged text blob: the kept fragments in extraction order. *)
Definition merged_text (fs : list TextFragment) : string :=
  Text.join (text <$> fs).

(** Modelled from the spec: the OCR Extractor of section 4.2. *)
Definition extract_text {Image Run : Type} (P : Platform Image Run) (r : Run)
    (img : Image) : string :=
  merged_text (merge_fragments (same_text P) (all_fragments P r img)).

Definition is_nil {A : Type} (l : list A) : bool :=
  match l with
  | [] => true
  | _ => false
  end.

(** Modelled from the spec: the pipeline from image bytes to ingredient
    matches (data flow of section 2, failures of sections 4.1, 4.2 and 7).
    A decoding failure aborts with [MalformedImage]; both engines reading
    nothing raises the [OcrNoText] condition and the resolver still runs. *)
Definition detect {Image Run : Type} (P : Platform Image Run) (T : Tables)
    (r : Run) (bytes : list byte) : PipelineError + Detection :=
  match decode P bytes with
  | None => inl MalformedImage
  | Some img =>
      let found := all_fragments P r img in
      let blob := extract_text P r img in
      inr {| ocr_text := blob;
             fragments := merge_fragments (same_text P) found;
             ocr_no_text := is_nil found;
             matches := resolve T (image_hash P bytes) (Text.candidates blob) |}
  end.

(** The matches of an outcome; an error has none. *)
Definition matches_of (o : PipelineError + Detection) : list IngredientMatch :=
  match o with
  | inl _ => []
  | inr d => matches d
  end.


End Pipeline.

(** ** Recipes

    The recipe store is on the server and not in the source tree; the
    records follow section 3 of the design document. *)

Module Recipes.

Record RecipeIngredient : Type := {
  ing_name : string;
  quantity : string;
  unit : string;
  notes : string
}.

(** Modelled from the spec: the nutrition of a Recipe (section 3); a value
    may be unset (section 9). *)
Record Nutrition : Type := {
  calories : option Q;
  protein : option Q;
  carbohydrates : option Q;
  fat : option Q;
  fiber : option Q;
  sugar : option Q;
  sodium : option Q
}.

(** Modelled from the spec: the Recipe record of section 3. *)
Record Recipe : Type := {
  id : Z;
  title : string;
  description : string;
  cuisine_type : string;
  difficulty_level : string;
  prep_time : Z;
  cook_time : Z;
  servings : Z;
  ingredients : list RecipeIngredient;
  instructions : list (Z * string);
  nutrition : option Nutrition
}.

(** Modelled from the spec: the MatchResult record of section 3. *)
Record MatchResult : Type := {
  recipe : Recipe;
  match_score : Q
}.

Definition ingredient_names (r : Recipe) : list string :=
  ing_name <$> ingredients r.

End Recipes.

(** ** Ingredient-driven matching

    The handler of [POST /find-recipes] is on the server and not in the
    source tree; it follows the first entry contract of section 4.4. *)

Module Matcher.
Import Recipes.

(** Modelled from the spec: how many of the recipe's required ingredients
    the input set holds (section 4.4). *)
Definition present (have : gset string) (r : Recipe) : nat :=
  length (List.filter (fun i => bool_decide (ing_name i ∈ have)) (ingredients r)).

(** Modelled from the spec: the match score (section 4.4), the fraction
    of the recipe's required ingredients present in the input set; a recipe
    without ingredients has no overlap. *)
Definition score (have : gset string) (r : Recipe) : Q :=
  match ingredients r with
  | [] => 0
  | _ => Z.of_nat (present have r) # Pos.of_nat (length (ingredients r))
  end.

Definition scored (have : gset string) (r : Recipe) : MatchResult :=
  {| recipe := r; match_score := score have r |}.

Definition overlaps (have : gset string) (r : Recipe) : bool :=
  negb (Nat.eqb (present have r) 0).

(** Modelled from the spec: the result order of section 4.4, higher score
    first and on equal scores the smaller recipe id first. *)
Definition ranked_before (a b : MatchResult) : Prop :=
  (match_score b < match_score a)%Q
  ∨ ((match_score a == match_score b)%Q ∧ id (recipe a) <= id (recipe b)).

Definition ranked_beforeb (a b : MatchResult) : bool :=
  match match_score a ?= match_score b with
  | Gt => true
  | Eq => id (recipe a) <=? id (recipe b)
  | Lt => false
  end%Q.

(** The order handed to the sort. *)
Definition ranked (a b : MatchResult) : Prop := ranked_beforeb a b = true.

#[global] Instance ranked_dec : RelDecision ranked :=
  fun a b => decide (ranked_beforeb a b = true).

(** Modelled from the spec: ingredient-driven matching (section 4.4,
    [POST /find-recipes] of section 6): recipes without overlap are left
    out, the others are scored and ranked. *)
Definition find_recipes (corpus : list Recipe) (given : list string)
  : list MatchResult :=
  let have : gset string := list_to_set given in
  merge_sort ranked
    (scored have <$> List.filter (overlaps have) corpus).

End Matcher.

(** ** Filter-driven search

    The handler of [POST /search-recipes] is on the server and not in the
    source tree; it follows the second entry contract of section 4.4.  What
    the design document leaves open is a parameter: whether a recipe
    without the nutrition value passes a bound on it, how a recipe
    satisfies a dietary preference, and the page size. *)

Module Search.
Import Recipes.

(** Modelled from the spec: the structured filter object of section 4.4;
    [None] is a key that the request does not carry. *)
Record Filters : Type := {
  query : option string;
  f_cuisine_type : option string;
  f_difficulty_level : option string;
  max_prep_time : option Z;
  max_cook_time : option Z;
  dietary_preferences : list string;
  max_calories : option Q;
  min_protein : option Q;
  max_carbs : option Q;
  max_fat : option Q;
  max_sugar : option Q;
  max_sodium : option Q
}.

Record Policy : Type := {
  missing_passes : bool;
  satisfies_preference : Recipe → string → bool;
  page_size : positive
}.

(** The request that carries no filter key. *)
Definition no_filters : Filters :=
  {| query := None; f_cuisine_type := None; f_difficulty_level := None;
     max_prep_time := None; max_cook_time := None; dietary_preferences := [];
     max_calories := None; min_protein := None; max_carbs := None;
     max_fat := None; max_sugar := None; max_sodium := None |}.

Fixpoint starts_with (p s : string) : bool :=
  match p, s with
  | EmptyString, _ => true
  | String a p', String b s' => Ascii.eqb a b && starts_with p' s'
  | String _ _, EmptyString => false
  end.

Fixpoint contains (p s : string) : bool :=
  starts_with p s
  || match s with
     | EmptyString => false
     | String _ s' => contains p s'
     end.

Definition contains_ci (p s : string) : bool :=
  contains (Text.lower p) (Text.lower s).

Definition same_ci (a b : string) : bool :=
  String.eqb (Text.lower a) (Text.lower b).

Definition nutrient (field : Nutrition → option Q) (r : Recipe) : option Q :=
  nutrition r ≫= field.

Definition check {A B : Type} (bound : option A) (test : A → B → bool) (value : B)
  : bool :=
  match bound with
  | None => true
  | Some b => test b value
  end.

Definition at_most (P : Policy) (b : Q) (value : option Q) : bool :=
  match value with
  | Some v => Qle_bool v b
  | None => missing_passes P
  end.

Definition at_least (P : Policy) (b : Q) (value : option Q) : bool :=
  match value with
  | Some v => Qle_bool b v
  | None => missing_passes P
  end.

(** Modelled from the spec: the predicate of filter-driven search
    (section 4.4), the conjunction of the filters the request carries. *)
Definition matches (P : Policy) (f : Filters) (r : Recipe) : bool :=
  check (query f)
    (fun q r => contains_ci q (title r) || contains_ci q (description r)) r
  && check (f_cuisine_type f) same_ci (cuisine_type r)
  && check (f_difficulty_level f) same_ci (difficulty_level r)
  && check (max_prep_time f) (fun b t => t <=? b) (prep_time r)
  && check (max_cook_time f) (fun b t => t <=? b) (cook_time r)
  && forallb (satisfies_preference P r) (dietary_preferences f)
  && check (max_calories f) (at_most P) (nutrient calories r)
  && check (min_protein f) (at_least P) (nutrient protein r)
  && check (max_carbs f) (at_most P) (nutrient carbohydrates r)
  && check (max_fat f) (at_most P) (nutrient fat r)
  && check (max_sugar f) (at_most P) (nutrient sugar r)
  && check (max_sodium f) (at_most P) (nutrient sodium r).

(** Modelled from the spec: the recipes a request selects (section 4.4),
    in store order. *)
Definition hits (P : Policy) (corpus : list Recipe) (f : Filters) : list Recipe :=
  List.filter (matches P f) corpus.

Definition per_page (P : Policy) : nat := Pos.to_nat (page_size P).

(** Page [n], counted from 1. *)
Definition page (P : Policy) (l : list Recipe) (n : nat) : list Recipe :=
  take (per_page P) (drop ((n - 1) * per_page P) l).

Definition page_count (P : Policy) (l : list Recipe) : nat :=
  (length l + per_page P - 1) / per_page P.

Record SearchResponse : Type := {
  recipes : list Recipe;
  total_recipes : nat;
  total_pages : nat;
  current_page : nat
}.

(** Modelled from the spec: the response of [POST /search-recipes]
    (section 6) for page [n] of the selected recipes. *)
Definition search (P : Policy) (corpus : list Recipe) (f : Filters) (n : nat)
  : SearchResponse :=
  let l := hits P corpus f in
  {| recipes := page P l n; total_recipes := length l;
     total_pages := page_count P l; current_page := n |}.

(** The wording of the design document, one clause per filter: an absent bound
    asks nothing, a bound that is present is met with equality allowed. *)
Definition upper (P : Policy) (bound value : option Q) : Prop :=
  ∀ b, bound = Some b →
    match value with
    | Some v => (v <= b)%Q
    | None => missing_passes P = true
    end.

Definition lower (P : Policy) (bound value : option Q) : Prop :=
  ∀ b, bound = Some b →
    match value with
    | Some v => (b <= v)%Q
    | None => missing_passes P = true
    end.

Definition meets (P : Policy) (f : Filters) (r : Recipe) : Prop :=
  (∀ q, query f = Some q →
     contains_ci q (title r) = true ∨ contains_ci q (description r) = true)
  ∧ (∀ c, f_cuisine_type f = Some c → same_ci c (cuisine_type r) = true)
  ∧ (∀ d, f_difficulty_level f = Some d → same_ci d (difficulty_level r) = true)
  ∧ (∀ b, max_prep_time f = Some b → prep_time r <= b)
  ∧ (∀ b, max_cook_time f = Some b → cook_time r <= b)
  ∧ (∀ p, p ∈ dietary_preferences f → satisfies_preference P r p = true)
  ∧ upper P (max_calories f) (nutrient calories r)
  ∧ lower P (min_protein f) (nutrient protein r)
  ∧ upper P (max_carbs f) (nutrient carbohydrates r)
  ∧ upper P (max_fat f) (nutrient fat r)
  ∧ upper P (max_sugar f) (nutrient sugar r)
  ∧ upper P (max_sodium f) (nutrient sodium r).

(** The request whose every numeric bound is the recipe's own value (no
    key where the recipe has no value). *)
Definition own_bounds (r : Recipe) : Filters :=
  {| query := None; f_cuisine_type := None; f_difficulty_level := None;
     max_prep_time := Some (prep_time r); max_cook_time := Some (cook_time r);
     dietary_preferences := [];
     max_calories := nutrient calories r; min_protein := nutrient protein r;
     max_carbs := nutrient carbohydrates r; max_fat := nutrient fat r;
     max_sugar := nutrient sugar r; max_sodium := nutrient sodium r |}.

(** Modelled from the spec: reading the request object of
    [POST /search-recipes] (sections 4.4 and 6): a text filter is a string,
    a bound is a number, the preferences are the strings of an array; a key
    that is absent (or holds anything else) leaves its filter unset.  A
    time bound [q] on whole minutes is the bound [Qfloor q]. *)
Definition text_key (body : list (string * JS.jsval)) (k : string) : option string :=
  match JS.lookup_field k body with
  | JS.JStr s => Some s
  | _ => None
  end.

Definition number_key (body : list (string * JS.jsval)) (k : string) : option Q :=
  match JS.lookup_field k body with
  | JS.JNum q => Some q
  | _ => None
  end.

Definition strings_of (v : JS.jsval) : list string :=
  match v with
  | JS.JArr items =>
      omap (fun x => match x with JS.JStr s => Some s | _ => None end) items
  | _ => []
  end.

Definition of_request (body : list (string * JS.jsval)) : Filters :=
  {| query := text_key body "query";
     f_cuisine_type := text_key body "cuisine_type";
     f_difficulty_level := text_key body "difficulty_level";
     max_prep_time := Qfloor <$> number_key body "max_prep_time";
     max_cook_time := Qfloor <$> number_key body "max_cook_time";
     dietary_preferences := strings_of (JS.lookup_field "dietary_preferences" body);
     max_calories := number_key body "max_calories";
     min_protein := number_key body "min_protein";
     max_carbs := number_key body "max_carbs";
     max_fat := number_key body "max_fat";
     max_sugar := number_key body "max_sugar";
     max_sodium := number_key body "max_sodium" |}.

(** All pages of a result, first to last. *)
Definition pages (P : Policy) (l : list Recipe) : list (list Recipe) :=
  page P l <$> seq 1 (page_count P l).

End Search.

(** ** The response of [POST /process-image]

    The handler is on the server and not in the source tree; the response
    follows section 6 of the design document. *)

Module Api.
Import JS Resolver Pipeline Recipes.

Definition encode_option {A : Type} (f : A → jsval) (o : option A) : jsval :=
  match o with
  | Some a => f a
  | None => JNull
  end.

(** Modelled from the spec: an entry [{name, confidence}] of [ingredients]
    (section 6). *)
Definition encode_match (m : IngredientMatch) : jsval :=
  JObj [("name", JStr (canonical_name m)); ("confidence", JNum (confidence m))].

Definition encode_ingredient (i : RecipeIngredient) : jsval :=
  JObj [("name", JStr (ing_name i)); ("quantity", JStr (quantity i));
        ("unit", JStr (unit i)); ("notes", JStr (notes i))].

Definition encode_step (st : Z * string) : jsval :=
  JObj [("step_number", JNum (inject_Z (fst st))); ("description", JStr (snd st))].

Definition encode_nutrition (n : Nutrition) : jsval :=
  JObj [("calories", encode_option JNum (calories n));
        ("protein", encode_option JNum (protein n));
        ("carbohydrates", encode_option JNum (carbohydrates n));
        ("fat", encode_option JNum (fat n));
        ("fiber", encode_option JNum (fiber n));
        ("sugar", encode_option JNum (sugar n));
        ("sodium", encode_option JNum (sodium n))].

(** Modelled from the spec: the fields of a Recipe (section 3) as the keys
    of a JSON object. *)
Definition encode_recipe (r : Recipe) : list (string * jsval) :=
  [("id", JNum (inject_Z (id r)));
   ("title", JStr (title r));
   ("description", JStr (description r));
   ("cuisine_type", JStr (cuisine_type r));
   ("difficulty_level", JStr (difficulty_level r));
   ("prep_time", JNum (inject_Z (prep_time r)));
   ("cook_time", JNum (inject_Z (cook_time r)));
   ("servings", JNum (inject_Z (servings r)));
   ("ingredients", JArr (encode_ingredient <$> ingredients r));
   ("instructions", JArr (encode_step <$> instructions r));
   ("nutrition", encode_option encode_nutrition (nutrition r))].

(** Modelled from the spec: a recipe augmented with its [match_score]
    (section 6). *)
Definition encode_result (x : MatchResult) : jsval :=
  JObj (encode_recipe (recipe x) ++ [("match_score", JNum (match_score x))]).

(** Modelled from the spec: the success response of [POST /process-image]
    (section 6): the merged text, the ingredient matches, the recipes
    matched against the detected ingredients (section 4.4) and the status
    of the recipe store. *)
Definition process_image_response (d : Detection) (corpus : list Recipe)
    (status : jsval) : jsval :=
  JObj [("ocr_text", JStr (ocr_text d));
        ("ingredients", JArr (encode_match <$> Pipeline.matches d));
        ("matching_recipes",
         JArr (encode_result
                 <$> Matcher.find_recipes corpus
                       (canonical_name <$> Pipeline.matches d)));
        ("database_status", status)].

End Api.

(** ** Sample tables and platform

    Small instances on which the models run: a variation table of two
    surface forms over a database of four ingredients, and a platform
    whose images carry their text as bytes. *)

Module Samples.
Import Resolver Pipeline Recipes.

Definition sample_tables : Tables :=
  {| variation_table := {[ "lays" := "chips"; "penne" := "pasta" ]};
     database :=
       [ {| entry_name := "chips"; entry_keywords := ["snack"; "crisps"] |};
         {| entry_name := "pasta"; entry_keywords := ["spaghetti"; "macaroni"] |};
         {| entry_name := "rice"; entry_keywords := ["basmati"] |};
         {| entry_name := "potato"; entry_keywords := ["spud"] |} ];
     similar := fun tok name => String.prefix name tok;
     default_first := "tomato";
     default_rest := ["onion"; "rice"] |}.

Fixpoint text_of_bytes (bytes : list byte) : string :=
  match bytes with
  | [] => EmptyString
  | b :: rest => String (ascii_of_byte b) (text_of_bytes rest)
  end.

Fixpoint sum_bytes (bytes : list byte) : N :=
  match bytes with
  | [] => 0%N
  | b :: rest => (Byte.to_N b + sum_bytes rest)%N
  end.

(** An empty buffer does not decode; the filters leave the image as it is;
    both engines read the text off the first variant with different
    confidence, and time out in a run flagged [true]. *)
Definition sample_platform : Platform (list byte) bool :=
  {| decode := fun bytes => match bytes with [] => None | _ => Some bytes end;
     preprocess := fun _ img => img;
     recognise := fun (timed_out : bool) e v img =>
       if timed_out then None
       else match v, e with
            | Clahe, EngineA => Some [(text_of_bytes img, 0.9%Q)]
            | Clahe, EngineB => Some [(text_of_bytes img, 0.8%Q)]
            | _, _ => Some []
            end;
     same_text := String.eqb;
     image_hash := sum_bytes |}.

(** The bytes of ["zz"]: two bytes, no ingredient. *)
Definition blank_image : list byte := [x7a; x7a].


Definition sample_recipe (i : Z) (t : string) (names : list string)
    (cal : option Q) : Recipe :=
  {| id := i; title := t; description := ""; cuisine_type := "indian";
     difficulty_level := "easy"; prep_time := 10; cook_time := 20; servings := 2;
     ingredients :=
       (fun n => {| ing_name := n; quantity := "1"; unit := ""; notes := "" |})
         <$> names;
     instructions := [];
     nutrition :=
       Some {| calories := cal; protein := None; carbohydrates := None;
               fat := None; fiber := None; sugar := None; sodium := None |} |}.

(** A recipe of five ingredients. *)
Definition five_ingredient_recipe : Recipe :=
  sample_recipe 1 "Curry" ["rice"; "onion"; "garlic"; "ginger"; "chili"] None.

Definition salsa : Recipe :=
  sample_recipe 3 "Salsa" ["tomato"; "onion"; "garlic"; "oil"] (Some 500%Q).
Definition salad : Recipe :=
  sample_recipe 1 "Salad" ["tomato"; "lettuce"] (Some 501%Q).
Definition omelette : Recipe :=
  sample_recipe 2 "Omelette" ["egg"; "butter"] None.

Definition sample_corpus : list Recipe := [salsa; salad; omelette].

Definition strict_policy : Search.Policy :=
  {| Search.missing_passes := false;
     Search.satisfies_preference := fun _ _ => true;
     Search.page_size := 2 |}.

Definition calories_at_most (c : Q) : Search.Filters :=
  {| Search.query := None; Search.f_cuisine_type := None;
     Search.f_difficulty_level := None; Search.max_prep_time := None;
     Search.max_cook_time := None; Search.dietary_preferences := [];
     Search.max_calories := Some c; Search.min_protein := None;
     Search.max_carbs := None; Search.max_fat := None;
     Search.max_sugar := None; Search.max_sodium := None |}.

(** A generated text of two lines without section words. *)
Definition toast_text : string :=
  "Toast" +:+ String "010" "Put bread in the toaster".

(** Files for the upload dialog: a picture of exactly five megabytes, a
    document, and a picture that is one byte too large. *)
Definition photo : ImageUploadModal.File :=
  {| ImageUploadModal.file_name := "dish.png";
     ImageUploadModal.file_type := "image/png";
     ImageUploadModal.file_size := 5242880 |}.

Definition document : ImageUploadModal.File :=
  {| ImageUploadModal.file_name := "menu.pdf";
     ImageUploadModal.file_type := "application/pdf";
     ImageUploadModal.file_size := 1024 |}.

Definition large_photo : ImageUploadModal.File :=
  {| ImageUploadModal.file_name := "raw.png";
     ImageUploadModal.file_type := "image/png";
     ImageUploadModal.file_size := 5242881 |}.

(** A recipe as the browse section lists it. *)
Definition soup_card : JS.jsval :=
  JS.JObj [("title", JS.JStr "Soup"); ("prep_time", JS.JNum 5);
           ("cook_time", JS.JNum 20); ("servings", JS.JNum 2);
           ("ingredients",
            JS.JArr [JS.JObj [("quantity", JS.JNum 1); ("unit", JS.JStr "l");
                              ("name", JS.JStr "water")]]);
           ("instructions",
            JS.JArr [JS.JObj [("step_number", JS.JNum 1);
                              ("description", JS.JStr "Boil")]])].

End Samples.

(** * Part II: properties *)

(** ** JavaScript values *)

Section JSFacts.
Import JS.

Lemma lookup_set_field_eq k v fields :
  lookup_field k (set_field k v fields) = v.
Proof.
  induction fields as [|[k' v'] rest IH]; simpl.
  - by rewrite String.eqb_refl.
  - destruct (String.eqb k k') eqn:E; simpl.
    + by rewrite String.eqb_refl.
    + by rewrite E.
Qed.

Lemma lookup_set_field_ne k k' v fields :
  k ≠ k' → lookup_field k' (set_field k v fields) = lookup_field k' fields.
Proof.
  intros Hne. induction fields as [|[k2 v2] rest IH]; simpl.
  - destruct (String.eqb_spec k' k); [congruence | done].
  - destruct (String.eqb_spec k k2) as [->|Hk]; simpl.
    + destruct (String.eqb_spec k' k2); [congruence | done].
    + by rewrite IH.
Qed.

End JSFacts.

(** ** Lengths and children *)

Section RenderFacts.
Import JS.

Lemma positive_length (n : nat) :
  negb (Qle_bool (inject_Z (Z.of_nat (S n))) 0) = true.
Proof.
  apply negb_true_iff, not_true_is_false. intros H.
  apply Qle_bool_iff in H. unfold Qle in H. simpl in H. lia.
Qed.

Lemma array_length_positive (number : jsval → option Q) (items : list jsval) :
  items ≠ [] →
  RecipeSlice.js_length (JArr items)
    = Some (JNum (inject_Z (Z.of_nat (length items))))
  ∧ IngredientsPage.positive number
      (JNum (inject_Z (Z.of_nat (length items)))) = true.
Proof.
  intros Hne. split; [done|]. destruct items as [|x l]; [done|].
  apply positive_length.
Qed.

Lemma texts_are_children (names : list string) :
  forallb React.child_ok (JStr <$> names) = true.
Proof. induction names as [|n l IH]; [done|]. exact IH. Qed.

Lemma forallb_refused (items : list jsval) (x : jsval) :
  x ∈ items → React.child_ok x = false →
  forallb React.child_ok items = false.
Proof.
  intros Hin Hx. apply not_true_is_false. intros Hall.
  rewrite forallb_forall in Hall. apply list_elem_of_In, Hall in Hin.
  congruence.
Qed.

End RenderFacts.

(** ** userSlice *)

Section UserSliceFacts.
Import JS UserSlice.

Lemma includes_elem_of (l : list Z) (x : Z) : includes l x = true ↔ x ∈ l.
Proof.
  unfold includes. rewrite existsb_exists. split.
  - intros (y & Hin & Heq). apply Z.eqb_eq in Heq. subst y.
    by apply list_elem_of_In.
  - intros Hin. exists x. split; [by apply list_elem_of_In | apply Z.eqb_refl].
Qed.

Lemma includes_false (l : list Z) (x : Z) : includes l x = false ↔ x ∉ l.
Proof.
  rewrite <- includes_elem_of. destruct (includes l x); split; congruence.
Qed.

Lemma includes_snoc (l : list Z) (x : Z) : includes (l ++ [x]) x = true.
Proof. apply includes_elem_of. set_solver. Qed.

Lemma addToFavorites_present (s : State) (id : Z) :
  id ∈ favorites (profile s) → addToFavorites s id = s.
Proof.
  intros Hin. unfold addToFavorites.
  apply includes_elem_of in Hin. by rewrite Hin.
Qed.

Lemma addToFavorites_absent (s : State) (id : Z) :
  id ∉ favorites (profile s) →
  favorites (profile (addToFavorites s id)) = favorites (profile s) ++ [id].
Proof.
  intros Hout. unfold addToFavorites.
  apply includes_false in Hout. by rewrite Hout.
Qed.

Lemma addToFavorites_contains (s : State) (id : Z) :
  id ∈ favorites (profile (addToFavorites s id)).
Proof.
  destruct (decide (id ∈ favorites (profile s))) as [Hin|Hout].
  - by rewrite addToFavorites_present.
  - rewrite addToFavorites_absent by done. set_solver.
Qed.

(** C8: [addToFavorites] with an id that is already a favorite returns the
    state unchanged, dispatching it twice gives the state of dispatching it
    once, and a favorites list without duplicates stays without
    duplicates. *)
Theorem addToFavorites_idempotent (s : State) (id : Z) :
  (id ∈ favorites (profile s) → addToFavorites s id = s)
  ∧ addToFavorites (addToFavorites s id) id = addToFavorites s id
  ∧ (NoDup (favorites (profile s)) →
     NoDup (favorites (profile (addToFavorites s id)))).
Proof.
  split; [apply addToFavorites_present|]. split.
  - apply addToFavorites_present, addToFavorites_contains.
  - intros Hnd. destruct (decide (id ∈ favorites (profile s))) as [Hin|Hout].
    + by rewrite addToFavorites_present.
    + rewrite addToFavorites_absent by done.
      apply NoDup_app. split; [done|]. split.
      * intros x Hx Hx'. apply list_elem_of_singleton in Hx'. by subst.
      * apply NoDup_singleton.
Qed.

Lemma addToFavorites_idempotent_witness :
  addToFavorites (addToFavorites initialState 7) 7 = addToFavorites initialState 7
  ∧ addToFavorites (addToFavorites initialState 7) 7
    = addToFavorites (addToFavorites initialState 7) 7
  ∧ NoDup (favorites (profile (addToFavorites (addToFavorites initialState 7) 7))).
Proof.
  pose proof (addToFavorites_idempotent (addToFavorites initialState 7) 7)
    as (Hsame & Htwice & Hnodup).
  split; [|split].
  - apply Hsame. vm_compute. apply list_elem_of_here.
  - exact Htwice.
  - apply Hnodup. vm_compute. apply NoDup_singleton.
Defined.

Lemma history_length_step (s : State) (a : Action) :
  keeps_history_bound a →
  (length (history (profile s)) ≤ 20)%nat →
  (length (history (profile (reducer s a))) ≤ 20)%nat.
Proof.
  intros Ha Hs. destruct a as [p|p|id|id|e| | |]; simpl in *; try done.
  - destruct (p_history p); simpl; done.
  - unfold addToFavorites. by destruct (negb _).
  - rewrite length_take. lia.
  - lia.
  - lia.
Qed.

Lemma history_length_run (acts : list Action) (s : State) :
  Forall keeps_history_bound acts →
  (length (history (profile s)) ≤ 20)%nat →
  (length (history (profile (run s acts))) ≤ 20)%nat.
Proof.
  unfold run. revert s.
  induction acts as [|a acts IH]; intros s Hall Hs; simpl; [done|].
  apply Forall_cons in Hall as [Ha Hall].
  apply IH; [done|]. by apply history_length_step.
Qed.

(** C9, as stated, fails: one [setUserProfile] whose payload carries a
    history of 21 entries leaves 21 entries in [profile.history]. *)
Lemma history_bound_broken_by_setUserProfile :
  ¬ (length (history (profile
       (run initialState [SetUserProfile long_history_payload]))) ≤ 20)%nat.
Proof. vm_compute. lia. Qed.

(** C9, amended: from the initial state, after any sequence of actions in
    which no [setUserProfile] payload carries a history of more than 20
    entries, [profile.history] has at most 20 entries; and [addToHistory]
    puts the new entry first, shifts the former entries by one place and
    drops what would fall beyond the twentieth place. *)
Theorem history_bounded_newest_first (acts : list Action) :
  Forall keeps_history_bound acts →
  (length (history (profile (run initialState acts))) ≤ 20)%nat
  ∧ (∀ (s : State) (e : jsval),
       history (profile (addToHistory s e)) !! 0%nat = Some e
       ∧ (∀ i : nat, (i < 19)%nat →
            history (profile (addToHistory s e)) !! S i
            = history (profile s) !! i)
       ∧ length (history (profile (addToHistory s e)))
         = (S (length (history (profile s))) `min` 20)%nat).
Proof.
  intros Hall. split.
  - apply history_length_run; [done | simpl; lia].
  - intros s e.
    cbn [addToHistory profile history with_profile with_history].
    split; [done|]. split.
    + intros i Hi. by rewrite lookup_take_lt by lia.
    + rewrite length_take, length_cons. lia.
Qed.

Lemma history_bounded_newest_first_witness :
  Forall keeps_history_bound (replicate 25 (AddToHistory (JStr "soup")))
  ∧ (length (history (profile
       (run initialState (replicate 25 (AddToHistory (JStr "soup"))))))
     ≤ 20)%nat.
Proof.
  assert (Forall keeps_history_bound (replicate 25 (AddToHistory (JStr "soup"))))
    as Hall by (apply Forall_replicate; exact I).
  split; [exact Hall|].
  exact (proj1 (history_bounded_newest_first _ Hall)).
Defined.

End UserSliceFacts.

(** ** ingredientSlice and the bundled App *)

Section IngredientSliceFacts.
Import JS IngredientSlice.

(** C10: [clearIngredients] sets [detectedIngredients] to the empty array,
    [uploadedImage] to [null] and [matchedRecipes] to the empty array, and
    leaves [loading] and [error] as they were, from every state. *)
Theorem clearIngredients_frame (s : State) :
  detectedIngredients (clearIngredients s) = JArr []
  ∧ uploadedImage (clearIngredients s) = JNull
  ∧ matchedRecipes (clearIngredients s) = JArr []
  ∧ loading (clearIngredients s) = loading s
  ∧ error (clearIngredients s) = error s.
Proof. by destruct s. Qed.

(** The state is a record of exactly these five fields, so the three resets
    and the two kept fields determine the whole result. *)
Lemma clearIngredients_determined (s t : State) :
  clearIngredients s = t ↔
  detectedIngredients t = JArr [] ∧ uploadedImage t = JNull
  ∧ matchedRecipes t = JArr [] ∧ loading t = loading s ∧ error t = error s.
Proof.
  split.
  - intros <-. by destruct s.
  - destruct t; simpl. intros (-> & -> & -> & -> & ->). done.
Qed.

Lemma processImage_fulfilled_obj (s : State) (fields : list (string * jsval)) :
  processImage_fulfilled s (JObj fields) =
    aiRecipes ← spread (or_else (lookup_field "ai_generated_recipes" fields) (JArr []));
    dbRecipes ← spread (or_else (lookup_field "database_matching_recipes" fields) (JArr []));
    Some {| detectedIngredients := lookup_field "ingredients" fields;
            uploadedImage := lookup_field "ocr_text" fields;
            matchedRecipes := JArr (aiRecipes ++ dbRecipes);
            loading := false; error := error s |}.
Proof. reflexivity. Qed.

Lemma processImage_fulfilled_fields (s s' : State)
    (fields : list (string * jsval)) :
  processImage_fulfilled s (JObj fields) = Some s' →
  detectedIngredients s' = lookup_field "ingredients" fields
  ∧ loading s' = false ∧ error s' = error s.
Proof.
  rewrite processImage_fulfilled_obj.
  destruct (spread (or_else (lookup_field "ai_generated_recipes" fields) (JArr [])))
    as [ai|]; [|done].
  destruct (spread (or_else (lookup_field "database_matching_recipes" fields)
                      (JArr []))) as [db|]; [|done].
  by intros [= <-].
Qed.

(** The record [{name, confidence}] of one detected item. *)
Lemma records_are_cards (recs : list (string * Q)) :
  mapM ResultCard.card
    ((fun r => JObj [("name", JStr (fst r)); ("confidence", JNum (snd r))])
       <$> recs)
  = Some ((fun r => (JStr (fst r), JNum (snd r))) <$> recs).
Proof.
  induction recs as [|r l IH]; [done|].
  rewrite !fmap_cons. cbn [mapM]. rewrite IH. reflexivity.
Qed.

(** The ingredients section is refused when an element of [ingredients]
    is an object. *)
Lemma section_refused (number : jsval → option Q) (p : App.ResultCardProps)
    (items : list jsval) (x : jsval) :
  App.ingredients p = JArr items → x ∈ items → React.child_ok x = false →
  ResultCard.ingredientsSection number p = None.
Proof.
  intros Hi Hin Hx. unfold ResultCard.ingredientsSection. rewrite Hi.
  assert (items ≠ []) as Hne by (intros ->; by apply elem_of_nil in Hin).
  destruct (array_length_positive number items Hne) as [Hl Hp].
  cbn [truthy]. rewrite Hl. cbn [mbind option_bind]. rewrite Hp.
  by rewrite (forallb_refused items x).
Qed.

(** The Ingredients page is refused in the same case. *)
Lemma page_refused (number : jsval → option Q) (imageProcessed : bool)
    (st : State) (items : list jsval) (x : jsval) :
  detectedIngredients st = JArr items → x ∈ items → React.child_ok x = false →
  IngredientsPage.renders number imageProcessed st = false.
Proof.
  intros Hd Hin Hx. unfold IngredientsPage.renders. rewrite Hd.
  assert (items ≠ []) as Hne by (intros ->; by apply elem_of_nil in Hin).
  destruct (array_length_positive number items Hne) as [Hl Hp].
  rewrite Hl, Hp, (forallb_refused items x) by done.
  by rewrite !andb_false_r.
Qed.

(** C7, as stated, fails on the front ends: on a response that lists one
    recipe under [matching_recipes] and one [{name, confidence}] record
    under [ingredients], [processImage.fulfilled] stores no matched recipe
    at all, while the key does hold the recipe; and neither ResultCard nor
    the Ingredients page can show the record, an object where each of them
    puts a text. *)
Lemma matching_recipes_key_not_read :
  matchedRecipes <$> processImage_fulfilled initialState sample_response
    = Some (JArr [])
  ∧ matchedRecipes <$> processImage_fulfilled initialState sample_response
    ≠ get_prop sample_response "matching_recipes"
  ∧ (App.resultCard sample_response JNull
       ≫= ResultCard.ingredientsSection (fun _ => None)) = None
  ∧ IngredientsPage.renders (fun _ => None) true
      (dispatch initialState (ProcessImageFulfilled sample_response)) = false.
Proof.
  split; [reflexivity|]. split; [discriminate|]. split; reflexivity.
Qed.

(** C7, amended: the front ends read a success response of
    [POST /process-image] as an object with the keys [ocr_text],
    [ingredients], [matching_recipes] and [database_status].  The elements
    of [ingredients] are shown as text by both front ends, so they are the
    names; the [{name, confidence}] records are what ResultCard reads from
    [detected_items], and a record among [ingredients] stops both from
    rendering.  The bundled [App] hands [ResultCard] the matched recipes
    found under [matching_recipes], whose [match_score] the cards show; the
    Redux [processImage.fulfilled] reducer takes [detectedIngredients] from
    [ingredients] and [uploadedImage] from [ocr_text], sets
    [matchedRecipes] to the recipes of [ai_generated_recipes] followed by
    those of [database_matching_recipes] (each one empty when its key is
    absent) and does not read [matching_recipes].  On a response in the
    shape the design document gives, with at least one ingredient, the App
    gets the recipes with their scores, the reducer stores no matched
    recipe, and neither front end can show the ingredients. *)
Theorem processImage_response_keys
    (number : jsval → option Q) (s : State) (fields : list (string * jsval))
    (img : jsval) :
  (∀ ai db : option (list jsval),
     lookup_field "ai_generated_recipes" fields = from_option JArr JUndefined ai →
     lookup_field "database_matching_recipes" fields
       = from_option JArr JUndefined db →
     processImage_fulfilled s (JObj fields) =
       Some {| detectedIngredients := lookup_field "ingredients" fields;
               uploadedImage := lookup_field "ocr_text" fields;
               matchedRecipes := JArr (default [] ai ++ default [] db);
               loading := false; error := error s |})
  ∧ (∀ v : jsval,
       processImage_fulfilled s (JObj (set_field "matching_recipes" v fields))
       = processImage_fulfilled s (JObj fields))
  ∧ App.resultCard (JObj fields) img =
      Some {| App.ingredients := lookup_field "ingredients" fields;
              App.ocrText := lookup_field "ocr_text" fields;
              App.image := img;
              App.detectedItems := lookup_field "detected_items" fields;
              App.matchingRecipes := lookup_field "matching_recipes" fields;
              App.databaseStatus := lookup_field "database_status" fields |}
  ∧ (∀ (names : list string) (recs : list (string * Q)),
       names ≠ [] →
       lookup_field "ingredients" fields = JArr (JStr <$> names) →
       lookup_field "detected_items" fields
         = JArr ((fun r => JObj [("name", JStr (fst r));
                                 ("confidence", JNum (snd r))]) <$> recs) →
       (App.resultCard (JObj fields) img ≫= ResultCard.ingredientsSection number)
         = Some (ResultCard.Detected (JStr <$> names)
                   ((fun r => (JStr (fst r), JNum (snd r))) <$> recs))
       ∧ ∀ imageProcessed s',
           processImage_fulfilled s (JObj fields) = Some s' →
           React.child_ok (error s) = true →
           IngredientsPage.renders number imageProcessed s' = true)
  ∧ (∀ (items : list jsval) (x : jsval),
       lookup_field "ingredients" fields = JArr items →
       x ∈ items → React.child_ok x = false →
       (App.resultCard (JObj fields) img ≫= ResultCard.ingredientsSection number)
         = None
       ∧ ∀ imageProcessed s',
           processImage_fulfilled s (JObj fields) = Some s' →
           IngredientsPage.renders number imageProcessed s' = false)
  ∧ (∀ (d : Pipeline.Detection) (corpus : list Recipes.Recipe) (status : jsval),
       Pipeline.matches d ≠ [] →
       App.matchingRecipes
         <$> App.resultCard (Api.process_image_response d corpus status) img
       = Some (JArr (Api.encode_result
                       <$> Matcher.find_recipes corpus
                             (Resolver.canonical_name <$> Pipeline.matches d)))
       ∧ Forall (fun r => ∃ q, ResultCard.matchScore r = Some (JNum q))
           (Api.encode_result
              <$> Matcher.find_recipes corpus
                    (Resolver.canonical_name <$> Pipeline.matches d))
       ∧ matchedRecipes
           <$> processImage_fulfilled s (Api.process_image_response d corpus status)
         = Some (JArr [])
       ∧ (App.resultCard (Api.process_image_response d corpus status) img
            ≫= ResultCard.ingredientsSection number) = None
       ∧ ∀ imageProcessed s',
           processImage_fulfilled s (Api.process_image_response d corpus status)
             = Some s' →
           IngredientsPage.renders number imageProcessed s' = false).
Proof.
  split; [|split; [|split; [|split; [|split]]]].
  - intros ai db Hai Hdb. rewrite processImage_fulfilled_obj, Hai, Hdb.
    by destruct ai, db.
  - intros v. rewrite !processImage_fulfilled_obj.
    by rewrite !(lookup_set_field_ne "matching_recipes").
  - reflexivity.
  - intros names recs Hne Hing Hitems. split.
    + change (App.resultCard (JObj fields) img ≫= ResultCard.ingredientsSection number)
        with (ResultCard.ingredientsSection number
                {| App.ingredients := lookup_field "ingredients" fields;
                   App.ocrText := lookup_field "ocr_text" fields;
                   App.image := img;
                   App.detectedItems := lookup_field "detected_items" fields;
                   App.matchingRecipes := lookup_field "matching_recipes" fields;
                   App.databaseStatus := lookup_field "database_status" fields |}).
      unfold ResultCard.ingredientsSection.
      cbn [App.ingredients App.detectedItems]. rewrite Hing, Hitems.
      assert (JStr <$> names ≠ []) as Hne' by (by destruct names).
      destruct (array_length_positive number _ Hne') as [Hl Hp].
      cbn [truthy]. rewrite Hl. cbn [mbind option_bind].
      rewrite Hp, texts_are_children.
      unfold ResultCard.cards_of. cbn [truthy].
      destruct recs as [|r recs]; [reflexivity|].
      assert ((fun r => JObj [("name", JStr (fst r)); ("confidence", JNum (snd r))])
                <$> r :: recs ≠ []) as Hr by done.
      destruct (array_length_positive number _ Hr) as [Hl' Hp'].
      rewrite Hl'. cbn [mbind option_bind]. rewrite Hp'.
      by rewrite records_are_cards.
    + intros imageProcessed s' Hs' Herr.
      destruct (processImage_fulfilled_fields s s' fields Hs') as (Hd & Hl0 & He).
      unfold IngredientsPage.renders. rewrite Hd, Hl0, He, Hing, Herr.
      assert (JStr <$> names ≠ []) as Hne' by (by destruct names).
      destruct (array_length_positive number _ Hne') as [Hl Hp].
      rewrite Hl, Hp, texts_are_children.
      by destruct (negb false && negb (truthy (error s)) && imageProcessed).
  - intros items x Hing Hin Hx. split.
    + by apply (section_refused number _ items x).
    + intros imageProcessed s' Hs'. apply (page_refused _ _ _ items x); [|done..].
      destruct (processImage_fulfilled_fields s s' fields Hs') as (Hd & _).
      by rewrite Hd.
  - intros d corpus status Hne.
    assert (∃ m, m ∈ Pipeline.matches d) as [m Hin].
    { destruct (Pipeline.matches d) as [|m ms]; [done|].
      exists m. apply list_elem_of_here. }
    split; [reflexivity|]. split; [|split; [reflexivity|split]].
    + apply Forall_fmap, Forall_forall. intros x _.
      exists (Recipes.match_score x). reflexivity.
    + apply (section_refused number _ (Api.encode_match <$> Pipeline.matches d)
               (Api.encode_match m)); [reflexivity | | done].
      by apply list_elem_of_fmap_2.
    + intros imageProcessed s' [= <-].
      apply (page_refused _ _ _ (Api.encode_match <$> Pipeline.matches d)
               (Api.encode_match m)); [reflexivity | | done].
      by apply list_elem_of_fmap_2.
Qed.

(** A response with AI-generated recipes and no database key: the one list
    is stored. *)
Lemma processImage_response_keys_witness :
  processImage_fulfilled initialState
    (JObj [("ingredients", JArr [JStr "tomato"]);
           ("ai_generated_recipes", JArr [JStr "a"])])
  = Some {| detectedIngredients := JArr [JStr "tomato"];
            uploadedImage := JUndefined;
            matchedRecipes := JArr [JStr "a"];
            loading := false; error := JNull |}.
Proof.
  exact (proj1 (processImage_response_keys (fun _ => None) initialState
    [("ingredients", JArr [JStr "tomato"]);
     ("ai_generated_recipes", JArr [JStr "a"])] JNull)
    (Some [JStr "a"]) None eq_refl eq_refl).
Defined.

End IngredientSliceFacts.

(** ** Ingredient resolver *)

Section ResolverFacts.
Import Resolver.

Local Abbreviation names l := (canonical_name <$> l) (only parsing).



(** *** Merging *)

Lemma merge_match_names (m : IngredientMatch) (acc : list IngredientMatch) :
  names (merge_match m acc) =
    if bool_decide (canonical_name m ∈ names acc)
    then names acc else names acc ++ [canonical_name m].
Proof.
  induction acc as [|a acc IH].
  - reflexivity.
  - cbn [merge_match].
    destruct (String.eqb_spec (canonical_name a) (canonical_name m)) as [Heq|Hne].
    + rewrite bool_decide_eq_true_2
        by (rewrite fmap_cons, Heq; apply list_elem_of_here).
      destruct (Qle_bool _ _); rewrite !fmap_cons; congruence.
    + rewrite !fmap_cons, IH. case_bool_decide as Hin.
      * rewrite bool_decide_eq_true_2; [done | by apply list_elem_of_further].
      * rewrite bool_decide_eq_false_2; [done|].
        rewrite elem_of_cons. intros [?|?]; congruence.
Qed.

Lemma merge_match_NoDup (m : IngredientMatch) (acc : list IngredientMatch) :
  NoDup (names acc) → NoDup (names (merge_match m acc)).
Proof.
  intros Hnd. rewrite merge_match_names. case_bool_decide as Hin; [done|].
  apply NoDup_app. split; [done|]. split; [|apply NoDup_singleton].
  intros x Hx Hx'. apply list_elem_of_singleton in Hx'. by subst.
Qed.

Lemma merge_match_elem (m x : IngredientMatch) (acc : list IngredientMatch) :
  x ∈ merge_match m acc → x = m ∨ x ∈ acc.
Proof.
  induction acc as [|a acc IH]; simpl.
  - set_solver.
  - destruct (String.eqb _ _); [destruct (Qle_bool _ _)|]; set_solver.
Qed.

(** Every match that enters a merge, old or new, is answered by an entry of
    the same name with at least its confidence. *)
Lemma merge_match_covers (m x : IngredientMatch) (acc : list IngredientMatch) :
  x = m ∨ x ∈ acc →
  ∃ y, y ∈ merge_match m acc ∧ canonical_name y = canonical_name x
       ∧ (confidence x <= confidence y)%Q.
Proof.
  induction acc as [|a acc IH]; simpl; intros Hx.
  - exists m. destruct Hx as [->|Hx]; [|set_solver].
    split; [set_solver|]. split; [done | apply Qle_refl].
  - destruct (String.eqb_spec (canonical_name a) (canonical_name m)) as [Heq|Hne].
    + destruct (Qle_bool (confidence m) (confidence a)) eqn:Hle.
      * apply Qle_bool_iff in Hle.
        destruct Hx as [->|Hx]; [exists a; split; [set_solver|done]|].
        exists x. split; [done|]. split; [done | apply Qle_refl].
      * assert (confidence a <= confidence m)%Q as Hlt.
        { apply Qlt_le_weak, Qnot_le_lt. intros H.
          apply Qle_bool_iff in H. congruence. }
        destruct Hx as [->|Hx].
        -- exists m. split; [set_solver|]. split; [done | apply Qle_refl].
        -- apply elem_of_cons in Hx as [->|Hx].
           ++ exists m. split; [set_solver|]. done.
           ++ exists x. split; [set_solver|]. split; [done | apply Qle_refl].
    + destruct Hx as [->|Hx].
      * destruct IH as (y & Hy & Hn & Hc); [by left|].
        exists y. split; [set_solver | done].
      * apply elem_of_cons in Hx as [->|Hx].
        -- exists a. split; [set_solver|]. split; [done | apply Qle_refl].
        -- destruct IH as (y & Hy & Hn & Hc); [by right|].
           exists y. split; [set_solver | done].
Qed.

(** A match of lower or equal confidence never replaces the entry of its
    ingredient. *)
Lemma merge_match_keeps (m a : IngredientMatch) (acc : list IngredientMatch) :
  a ∈ acc → NoDup (names acc) →
  canonical_name a = canonical_name m →
  (confidence m <= confidence a)%Q →
  merge_match m acc = acc.
Proof.
  intros Hin Hnd Hname Hle.
  induction acc as [|b acc IH]; simpl; [set_solver|].
  apply NoDup_cons in Hnd as [Hb Hnd].
  apply elem_of_cons in Hin as [<-|Hin].
  - rewrite Hname, String.eqb_refl.
    apply Qle_bool_iff in Hle. by rewrite Hle.
  - destruct (String.eqb_spec (canonical_name b) (canonical_name m)) as [Heq|Hne].
    + exfalso. apply Hb. rewrite Heq, <- Hname. by apply list_elem_of_fmap_2.
    + by rewrite IH.
Qed.

Lemma merge_all_NoDup (ms acc : list IngredientMatch) :
  NoDup (names acc) → NoDup (names (merge_all ms acc)).
Proof.
  revert acc. induction ms as [|m ms IH]; intros acc Hnd; simpl; [done|].
  by apply IH, merge_match_NoDup.
Qed.

Lemma merge_all_elem (x : IngredientMatch) (ms acc : list IngredientMatch) :
  x ∈ merge_all ms acc → x ∈ ms ∨ x ∈ acc.
Proof.
  revert acc. induction ms as [|m ms IH]; intros acc; simpl; [by right|].
  intros Hx. apply IH in Hx as [Hx|Hx]; [set_solver|].
  apply merge_match_elem in Hx. set_solver.
Qed.

Lemma merge_all_covers (x : IngredientMatch) (ms acc : list IngredientMatch) :
  x ∈ ms ∨ x ∈ acc →
  ∃ y, y ∈ merge_all ms acc ∧ canonical_name y = canonical_name x
       ∧ (confidence x <= confidence y)%Q.
Proof.
  revert x acc. induction ms as [|m ms IH]; intros x acc Hx; simpl.
  - destruct Hx as [Hx|Hx]; [set_solver|].
    exists x. split; [done|]. split; [done | apply Qle_refl].
  - assert (x ∈ ms ∨ (x = m ∨ x ∈ acc)) as [Hx'|Hx'] by set_solver.
    + apply IH. by left.
    + apply (merge_match_covers m x acc) in Hx' as (y & Hy & Hn & Hc).
      destruct (IH y (merge_match m acc)) as (z & Hz & Hzn & Hzc); [by right|].
      exists z. split; [done|]. split; [congruence|].
      by apply Qle_trans with (confidence y).
Qed.

(** *** Ordering *)

Lemma insert_desc_Permutation (m : IngredientMatch) (l : list IngredientMatch) :
  insert_desc m l ≡ₚ m :: l.
Proof.
  induction l as [|a l IH]; simpl; [done|].
  destruct (Qle_bool _ _); [|done].
  rewrite IH. apply Permutation_swap.
Qed.

Lemma sort_desc_Permutation (ms : list IngredientMatch) : sort_desc ms ≡ₚ ms.
Proof.
  unfold sort_desc.
  assert (∀ acc, fold_left (fun acc m => insert_desc m acc) ms acc ≡ₚ ms ++ acc)
    as Hgen.
  { induction ms as [|m ms IH]; intros acc; simpl; [done|].
    rewrite IH, insert_desc_Permutation. by rewrite Permutation_middle. }
  by rewrite Hgen, app_nil_r.
Qed.

Lemma insert_desc_Sorted (m : IngredientMatch) (l : list IngredientMatch) :
  StronglySorted by_confidence_desc l →
  StronglySorted by_confidence_desc (insert_desc m l).
Proof.
  induction 1 as [|a l Hl IH Ha]; simpl.
  - repeat constructor.
  - destruct (Qle_bool (confidence m) (confidence a)) eqn:Hle.
    + apply Qle_bool_iff in Hle. constructor; [done|].
      apply Forall_forall. intros x Hx.
      rewrite insert_desc_Permutation in Hx.
      apply elem_of_cons in Hx as [->|Hx]; [done|].
      rewrite Forall_forall in Ha. by apply Ha.
    + assert (confidence a <= confidence m)%Q as Hlt.
      { apply Qlt_le_weak, Qnot_le_lt. intros H.
        apply Qle_bool_iff in H. congruence. }
      constructor; [by constructor|].
      constructor; [done|].
      eapply Forall_impl; [exact Ha|].
      intros x Hx. unfold by_confidence_desc in *.
      by apply Qle_trans with (confidence a).
Qed.

Lemma sort_desc_Sorted (ms : list IngredientMatch) :
  StronglySorted by_confidence_desc (sort_desc ms).
Proof.
  unfold sort_desc.
  assert (∀ acc, StronglySorted by_confidence_desc acc →
            StronglySorted by_confidence_desc
              (fold_left (fun acc m => insert_desc m acc) ms acc)) as Hgen.
  { induction ms as [|m ms IH]; intros acc Hacc; simpl; [done|].
    by apply IH, insert_desc_Sorted. }
  apply Hgen. constructor.
Qed.

End ResolverFacts.

Section ResolverTheorems.
Import Resolver.

Local Abbreviation names l := (canonical_name <$> l) (only parsing).

Lemma resolve_tokens_elem (T : Tables) (toks : list string) (m : IngredientMatch) :
  m ∈ resolve_tokens T toks →
  ∃ tok, tok ∈ toks ∧ resolve_token T tok = Some m.
Proof.
  unfold resolve_tokens, dedupe. rewrite sort_desc_Permutation.
  intros Hm. apply (merge_all_elem m _ []) in Hm as [Hm|Hm].
  - apply list_elem_of_omap in Hm as (tok & Htok & Hres).
    exists tok. split; [|done]. by apply elem_of_remove_dups.
  - by apply elem_of_nil in Hm.
Qed.

Lemma resolve_tokens_covers (T : Tables) (toks : list string) (tok : string)
    (m : IngredientMatch) :
  tok ∈ toks → resolve_token T tok = Some m →
  ∃ m', m' ∈ resolve_tokens T toks
        ∧ canonical_name m' = canonical_name m
        ∧ (confidence m <= confidence m')%Q.
Proof.
  intros Htok Hres.
  assert (m ∈ omap (resolve_token T) (remove_dups toks)) as Hm.
  { apply list_elem_of_omap. exists tok. split; [|done].
    by apply elem_of_remove_dups. }
  destruct (merge_all_covers m _ [] (or_introl Hm)) as (y & Hy & Hn & Hc).
  exists y. split; [|done].
  unfold resolve_tokens, dedupe. by rewrite sort_desc_Permutation.
Qed.

Lemma resolve_tokens_NoDup (T : Tables) (toks : list string) :
  NoDup (names (resolve_tokens T toks)).
Proof.
  unfold resolve_tokens, dedupe. rewrite sort_desc_Permutation.
  apply merge_all_NoDup. constructor.
Qed.

Lemma resolve_tokens_nil (T : Tables) (toks : list string) :
  resolve_tokens T toks = [] ↔ ∀ tok, tok ∈ toks → resolve_token T tok = None.
Proof.
  split.
  - intros Hnil tok Htok.
    destruct (resolve_token T tok) as [m|] eqn:Hres; [|done].
    destruct (resolve_tokens_covers T toks tok m Htok Hres) as (y & Hy & _).
    rewrite Hnil in Hy. by apply elem_of_nil in Hy.
  - intros Hnone. destruct (resolve_tokens T toks) as [|m ms] eqn:Hms; [done|].
    destruct (resolve_tokens_elem T toks m) as (tok & Htok & Hres).
    { rewrite Hms. apply list_elem_of_here. }
    rewrite Hnone in Hres; done.
Qed.

Lemma resolve_fallback (T : Tables) (h : N) (toks : list string) :
  (∀ tok, tok ∈ toks → resolve_token T tok = None) →
  resolve T h toks = [fallback_match T h].
Proof. intros Hnone. unfold resolve. by rewrite (proj2 (resolve_tokens_nil T toks)). Qed.

Lemma resolve_matched (T : Tables) (h : N) (toks : list string) :
  resolve_tokens T toks ≠ [] → resolve T h toks = resolve_tokens T toks.
Proof. unfold resolve. by destruct (resolve_tokens T toks). Qed.

Lemma resolve_nonempty (T : Tables) (h : N) (toks : list string) :
  resolve T h toks ≠ [].
Proof. unfold resolve. by destruct (resolve_tokens T toks). Qed.

Lemma resolve_origin (T : Tables) (h : N) (toks : list string)
    (m : IngredientMatch) :
  m ∈ resolve T h toks →
  (∃ tok, tok ∈ toks ∧ resolve_token T tok = Some m)
  ∨ (resolve T h toks = [fallback_match T h]
     ∧ ∀ tok, tok ∈ toks → resolve_token T tok = None).
Proof.
  intros Hm. destruct (resolve_tokens T toks) as [|x xs] eqn:Hms.
  - right. pose proof (proj1 (resolve_tokens_nil T toks) Hms) as Hnone.
    split; [by apply resolve_fallback | done].
  - left. apply resolve_tokens_elem.
    rewrite resolve_matched in Hm; [done | by rewrite Hms].
Qed.



(** C3: the resolver returns at most one match per canonical ingredient;
    every match found for a token is answered in the output by the one
    entry of its ingredient, whose confidence is at least as high; every
    entry of the output is the match of some token (or the lone Fallback
    match when no token matched); and merging a match of lower or equal
    confidence leaves the entry of its ingredient in place, the tiers
    standing by confidence in the order Variation, Direct, Keyword, Fuzzy. *)
Theorem resolve_deduplicated (T : Tables) (h : N) (toks : list string) :
  NoDup (names (resolve T h toks))
  ∧ (∀ tok m, tok ∈ toks → resolve_token T tok = Some m →
       ∃ m', m' ∈ resolve T h toks
             ∧ canonical_name m' = canonical_name m
             ∧ (confidence m <= confidence m')%Q)
  ∧ (∀ m', m' ∈ resolve T h toks →
       (∃ tok, tok ∈ toks ∧ resolve_token T tok = Some m')
       ∨ (resolve T h toks = [fallback_match T h]
          ∧ ∀ tok, tok ∈ toks → resolve_token T tok = None))
  ∧ (∀ m a acc, a ∈ acc → NoDup (names acc) →
       canonical_name a = canonical_name m →
       (confidence m <= confidence a)%Q →
       merge_match m acc = acc)
  ∧ (tier_confidence Fuzzy < tier_confidence Keyword
     ∧ tier_confidence Keyword < tier_confidence Direct
     ∧ tier_confidence Direct < tier_confidence Variation)%Q.
Proof.
  split; [|split; [|split; [|split; [|done]]]].
  - unfold resolve. pose proof (resolve_tokens_NoDup T toks) as Hnd.
    destruct (resolve_tokens T toks); [|done].
    apply NoDup_singleton.
  - intros tok m Htok Hres.
    destruct (resolve_tokens_covers T toks tok m Htok Hres) as (y & Hy & Hrest).
    exists y. split; [|done]. rewrite resolve_matched; [done|].
    intros Hnil. rewrite Hnil in Hy. by apply elem_of_nil in Hy.
  - intros m'. apply resolve_origin.
  - intros m a acc. apply merge_match_keeps.
Qed.

Lemma resolve_deduplicated_witness :
  "potato" ∈ Text.candidates "Lay's Classic Potato Chips"
  ∧ ∃ m', m' ∈ resolve Samples.sample_tables 5
                  (Text.candidates "Lay's Classic Potato Chips")
          ∧ canonical_name m' = "potato" ∧ (0.90 <= confidence m')%Q.
Proof.
  assert ("potato" ∈ Text.candidates "Lay's Classic Potato Chips") as Htok.
  { vm_compute. do 2 apply list_elem_of_further. apply list_elem_of_here. }
  split; [exact Htok|].
  exact (proj1 (proj2 (resolve_deduplicated Samples.sample_tables 5
           (Text.candidates "Lay's Classic Potato Chips")))
         "potato"
         {| canonical_name := "potato"; confidence := 0.90;
            tier := Direct; source_text := "potato" |}
         Htok eq_refl).
Defined.

End ResolverTheorems.

(** ** Image pipeline *)

Section PipelineTheorems.
Import Resolver Pipeline.
Context {Image Run : Type}.
Variable P : Platform Image Run.
Variable T : Tables.

Lemma detect_decoded (r : Run) (bytes : list byte) (img : Image) :
  decode P bytes = Some img →
  detect P T r bytes =
    inr {| ocr_text := extract_text P r img;
           fragments := merge_fragments (same_text P) (all_fragments P r img);
           ocr_no_text := is_nil (all_fragments P r img);
           matches := resolve T (image_hash P bytes)
                        (Text.candidates (extract_text P r img)) |}.
Proof. intros Hdec. unfold detect. by rewrite Hdec. Qed.

Lemma detect_no_text (r : Run) (bytes : list byte) (d : Detection) :
  detect P T r bytes = inr d → ocr_no_text d = true → ocr_text d = "".
Proof.
  unfold detect. destruct (decode P bytes) as [img|]; [|done].
  intros [= <-]. simpl. unfold extract_text.
  by destruct (all_fragments P r img).
Qed.

Lemma detect_matches (r : Run) (bytes : list byte) (d : Detection) :
  detect P T r bytes = inr d →
  matches d = resolve T (image_hash P bytes) (Text.candidates (ocr_text d)).
Proof.
  unfold detect. destruct (decode P bytes) as [img|]; [|done].
  by intros [= <-].
Qed.

Lemma fallback_confidence_band (h : N) :
  (0.60 <= fallback_confidence h)%Q ∧ (fallback_confidence h <= 0.75)%Q.
Proof.
  unfold fallback_confidence.
  assert (h mod 16 < 16)%N as Hlt by (by apply N.mod_upper_bound).
  revert Hlt. generalize (h mod 16)%N. intros k Hlt.
  unfold Qle. cbn [Qnum Qden]. lia.
Qed.

(** The Fallback tier picks the default at the position the hash gives,
    counted round the list of defaults. *)
Lemma fallback_choice_indexed (h : N) :
  (default_first T :: default_rest T)
    !! N.to_nat (h mod N.of_nat (S (length (default_rest T))))
  = Some (fallback_choice T h).
Proof.
  unfold fallback_choice, defaults. cbn [length].
  set (n := S (length (default_rest T))).
  assert (N.to_nat (h mod N.of_nat n) < n)%nat as Hlt.
  { assert (h mod N.of_nat n < N.of_nat n)%N by (apply N.mod_upper_bound; lia).
    lia. }
  destruct (lookup_lt_is_Some_2 (default_first T :: default_rest T)
              (N.to_nat (h mod N.of_nat n))) as [x Hx]; [simpl; lia|].
  rewrite Hx. f_equal. symmetry. by apply nth_lookup_Some with (d := default_first T).
Qed.


(** C4: [detect] fails with [MalformedImage] exactly when decoding fails, and
    an error carries no detection; for a decodable image it returns a
    detection whose match list is not empty; and when no candidate token of
    the text matches tiers 1 to 4, in particular when there is no text, the
    list is the single Fallback match: one of the default ingredients, with
    no source text and a confidence in [0.60, 0.75]. *)
Theorem detect_never_empty (r : Run) (bytes : list byte) :
  (detect P T r bytes = inl MalformedImage ↔ decode P bytes = None)
  ∧ (∀ img, decode P bytes = Some img →
       ∃ d, detect P T r bytes = inr d ∧ matches d ≠ []
            ∧ ocr_text d = extract_text P r img)
  ∧ (∀ d, detect P T r bytes = inr d →
       (∀ tok, tok ∈ Text.candidates (ocr_text d) → resolve_token T tok = None)
       ∨ ocr_no_text d = true →
       ∃ m, matches d = [m] ∧ tier m = Fallback
            ∧ (0.60 <= confidence m)%Q ∧ (confidence m <= 0.75)%Q
            ∧ canonical_name m ∈ default_first T :: default_rest T
            ∧ source_text m = "").
Proof.
  split; [|split].
  - unfold detect. destruct (decode P bytes); split; done.
  - intros img Hdec. eexists. split; [by apply detect_decoded|].
    split; [apply resolve_nonempty | done].
  - intros d Hd Hnone. exists (fallback_match T (image_hash P bytes)).
    split.
    + rewrite (detect_matches r bytes d Hd). apply resolve_fallback.
      destruct Hnone as [Hnone|Hno]; [done|].
      rewrite (detect_no_text r bytes d Hd Hno).
      intros tok Htok. vm_compute in Htok. by apply elem_of_nil in Htok.
    + split; [done|].
      destruct (fallback_confidence_band (image_hash P bytes)) as [Hlo Hhi].
      split; [exact Hlo|]. split; [exact Hhi|]. split; [|done].
      eapply list_elem_of_lookup_2. apply fallback_choice_indexed.
Qed.


End PipelineTheorems.

Section PipelineWitnesses.
Import Resolver Pipeline Samples.

Lemma detect_never_empty_witness :
  ∃ m, matches_of (detect sample_platform sample_tables true blank_image) = [m]
       ∧ tier m = Fallback
       ∧ (0.60 <= confidence m)%Q ∧ (confidence m <= 0.75)%Q
       ∧ canonical_name m ∈ ["tomato"; "onion"; "rice"]
       ∧ source_text m = "".
Proof.
  destruct (detect_never_empty sample_platform sample_tables true blank_image)
    as (_ & _ & Hfallback).
  destruct (detect sample_platform sample_tables true blank_image)
    as [e|d] eqn:Hd; [discriminate Hd|].
  apply (Hfallback d eq_refl). right.
  injection Hd as <-. reflexivity.
Defined.


End PipelineWitnesses.

(** ** Ingredient-driven matching *)

Section MatcherFacts.
Import Recipes Matcher Samples.

Lemma ranked_iff (a b : MatchResult) : ranked a b ↔ ranked_before a b.
Proof.
  unfold ranked, ranked_before, ranked_beforeb.
  destruct (match_score a ?= match_score b)%Q eqn:Hcmp.
  - apply Qeq_alt in Hcmp. rewrite Z.leb_le. split.
    + intros Hle. by right.
    + intros [Hlt|[_ Hle]]; [|done]. lra.
  - apply Qlt_alt in Hcmp. split; [done|]. intros [Hlt|[Heq _]]; lra.
  - apply Qgt_alt in Hcmp. split; [|done]. intros _. by left.
Qed.

#[local] Instance ranked_trans : Transitive ranked.
Proof.
  intros a b c. rewrite !ranked_iff. unfold ranked_before.
  intros [Hab|[Hab Hid]] [Hbc|[Hbc Hid']].
  - left. lra.
  - left. lra.
  - left. lra.
  - right. split; [lra | lia].
Qed.

#[local] Instance ranked_total : Total ranked.
Proof.
  intros a b. rewrite !ranked_iff. unfold ranked_before.
  destruct (Q_dec (match_score a) (match_score b)) as [[Hlt|Hgt]|Heq].
  - right. by left.
  - left. by left.
  - destruct (Z.le_ge_cases (id (recipe a)) (id (recipe b))).
    + left. by right.
    + right. right. split; [lra | done].
Qed.

Lemma StronglySorted_impl {A : Type} (R S : relation A) (l : list A) :
  (∀ x y, R x y → S x y) → StronglySorted R l → StronglySorted S l.
Proof.
  intros HRS. induction 1 as [|x l Hl IH Hx]; constructor; [done|].
  eapply Forall_impl; [exact Hx | auto].
Qed.

Lemma overlaps_present (have : gset string) (r : Recipe) :
  overlaps have r = true ↔ (0 < present have r)%nat.
Proof.
  unfold overlaps. destruct (Nat.eqb_spec (present have r) 0); simpl.
  - split; [done | lia].
  - split; [lia | done].
Qed.

Lemma present_le (have : gset string) (r : Recipe) :
  (present have r ≤ length (ingredients r))%nat.
Proof. unfold present. apply List.filter_length_le. Qed.

Lemma score_fraction (have : gset string) (r : Recipe) :
  ingredients r ≠ [] →
  (score have r ==
     inject_Z (Z.of_nat (present have r))
     / inject_Z (Z.of_nat (length (ingredients r))))%Q.
Proof.
  intros Hne. unfold score.
  destruct (ingredients r) as [|i rest] eqn:Hing; [done|].
  rewrite Qmake_Qdiv.
  replace (Z.pos (Pos.of_nat (length (i :: rest))))
    with (Z.of_nat (length (i :: rest))); [reflexivity|].
  simpl length. lia.
Qed.

Lemma score_of_counts (have : gset string) (r : Recipe) (k n : nat) :
  present have r = k → length (ingredients r) = S n →
  (score have r == inject_Z (Z.of_nat k) / inject_Z (Z.of_nat (S n)))%Q.
Proof.
  intros Hk Hn. rewrite score_fraction.
  - by rewrite Hk, Hn.
  - intros Hnil. by rewrite Hnil in Hn.
Qed.

(** For a recipe that lists no ingredient twice, the count is the size of
    the intersection of its ingredient set with the input set. *)
Lemma present_intersection (have : gset string) (r : Recipe) :
  NoDup (ingredient_names r) →
  present have r = size (list_to_set (ingredient_names r) ∩ have : gset string).
Proof.
  unfold present, ingredient_names.
  induction (ingredients r) as [|i rest IH]; intros Hnd.
  - simpl. by rewrite intersection_empty_l_L, size_empty.
  - rewrite fmap_cons in Hnd. apply NoDup_cons in Hnd as [Hi Hnd].
    rewrite fmap_cons, list_to_set_cons. cbn [List.filter].
    assert (ing_name i ∉ (list_to_set (ing_name <$> rest) : gset string))
      as Hfresh by (by rewrite elem_of_list_to_set).
    case_bool_decide as Hin.
    + replace (({[ing_name i]} ∪ list_to_set (ing_name <$> rest)) ∩ have)
        with ({[ing_name i]} ∪ (list_to_set (ing_name <$> rest) ∩ have) : gset string)
        by set_solver.
      rewrite size_union by set_solver.
      rewrite size_singleton. simpl. by rewrite IH.
    + replace (({[ing_name i]} ∪ list_to_set (ing_name <$> rest)) ∩ have)
        with (list_to_set (ing_name <$> rest) ∩ have : gset string)
        by set_solver.
      by apply IH.
Qed.

Lemma find_recipes_Permutation (corpus : list Recipe) (given : list string) :
  find_recipes corpus given ≡ₚ
  scored (list_to_set given) <$> List.filter (overlaps (list_to_set given)) corpus.
Proof. unfold find_recipes. apply merge_sort_Permutation. Qed.

Lemma find_recipes_elem (corpus : list Recipe) (given : list string)
    (x : MatchResult) :
  x ∈ find_recipes corpus given ↔
  ∃ r, r ∈ corpus ∧ (0 < present (list_to_set given) r)%nat
       ∧ x = scored (list_to_set given) r.
Proof.
  rewrite find_recipes_Permutation, list_elem_of_fmap. split.
  - intros (r & -> & Hr). apply list_elem_of_In, filter_In in Hr as [Hr Ho].
    exists r. split; [by apply list_elem_of_In|].
    split; [by apply overlaps_present | done].
  - intros (r & Hr & Hpos & ->). exists r. split; [done|].
    apply list_elem_of_In, filter_In. split; [by apply list_elem_of_In|].
    by apply overlaps_present.
Qed.

(** C2: for a recipe with ingredients the score is the number of its
    required ingredients that are in the input set divided by its number of
    ingredients (3 of 5 is 0.6, 2 of 4 is 0.5); the result holds exactly the
    recipes of the corpus with at least one ingredient in the input set,
    each with its score; and it is ordered by descending score, equal
    scores by ascending recipe id. *)
Theorem find_recipes_ranked (corpus : list Recipe) (given : list string) :
  (∀ r, ingredients r ≠ [] →
     present (list_to_set given) r
       = length (List.filter (fun i => bool_decide (ing_name i ∈ given))
                   (ingredients r))
     ∧ (score (list_to_set given) r ==
          inject_Z (Z.of_nat (present (list_to_set given) r))
          / inject_Z (Z.of_nat (length (ingredients r))))%Q
     ∧ (present (list_to_set given) r = 3%nat →
        length (ingredients r) = 5%nat →
        (score (list_to_set given) r == 0.6)%Q)
     ∧ (present (list_to_set given) r = 2%nat →
        length (ingredients r) = 4%nat →
        (score (list_to_set given) r == 0.5)%Q))
  ∧ find_recipes corpus given ≡ₚ
      scored (list_to_set given)
        <$> List.filter (fun r => negb (Nat.eqb (present (list_to_set given) r) 0))
              corpus
  ∧ (∀ x, x ∈ find_recipes corpus given →
       recipe x ∈ corpus
       ∧ (0 < present (list_to_set given) (recipe x))%nat
       ∧ match_score x = score (list_to_set given) (recipe x))
  ∧ (∀ r, r ∈ corpus → present (list_to_set given) r = 0%nat →
       ∀ x, x ∈ find_recipes corpus given → recipe x ≠ r)
  ∧ StronglySorted ranked_before (find_recipes corpus given).
Proof.
  split; [|split; [|split; [|split]]].
  - intros r Hne. split; [|split; [|split]].
    + unfold present. f_equal. apply List.filter_ext. intros i.
      apply bool_decide_ext. by rewrite elem_of_list_to_set.
    + by apply score_fraction.
    + intros Hk Hn. by rewrite (score_of_counts _ r 3 4).
    + intros Hk Hn. by rewrite (score_of_counts _ r 2 3).
  - apply find_recipes_Permutation.
  - intros x Hx. apply find_recipes_elem in Hx as (r & Hr & Hpos & ->). done.
  - intros r Hr Hzero x Hx <-.
    apply find_recipes_elem in Hx as (r' & _ & Hpos & ->). simpl in Hzero. lia.
  - apply StronglySorted_impl with ranked.
    + intros x y. by rewrite ranked_iff.
    + unfold find_recipes. apply StronglySorted_merge_sort; apply _.
Qed.

Lemma find_recipes_ranked_witness :
  ingredients five_ingredient_recipe ≠ []
  ∧ (score (list_to_set ["onion"; "rice"; "chili"; "salt"]) five_ingredient_recipe
     == 0.6)%Q.
Proof.
  assert (ingredients five_ingredient_recipe ≠ []) as Hne by discriminate.
  split; [exact Hne|].
  destruct (find_recipes_ranked [five_ingredient_recipe]
              ["onion"; "rice"; "chili"; "salt"]) as (Hscore & _).
  destruct (Hscore five_ingredient_recipe Hne) as (_ & _ & Hthree & _).
  apply Hthree; vm_compute; reflexivity.
Defined.

End MatcherFacts.

(** ** The filter form of the Recipes page *)

Section RecipesPageFacts.
Import JS RecipesPage.

Lemma lookup_field_absent (k : string) (l : list (string * jsval)) :
  k ∉ l.*1 → lookup_field k l = JUndefined.
Proof.
  induction l as [|[k' v] l IH]; [done|].
  rewrite fmap_cons, not_elem_of_cons. intros [Hne Hout]. simpl.
  destruct (String.eqb_spec k k'); [done | auto].
Qed.

Lemma filter_keys_subseteq (p : string * jsval → bool) (l : list (string * jsval)) :
  (List.filter p l).*1 ⊆ l.*1.
Proof.
  intros k Hk. apply list_elem_of_fmap in Hk as ([k' v] & -> & Hin).
  apply list_elem_of_In, filter_In in Hin as [Hin _].
  apply list_elem_of_fmap. exists (k', v). split; [done|].
  by apply list_elem_of_In.
Qed.

Lemma lookup_filter_unsupplied (k : string) (l : list (string * jsval)) :
  NoDup l.*1 → supplied (lookup_field k l) = false →
  lookup_field k (List.filter (fun kv => supplied (snd kv)) l) = JUndefined.
Proof.
  induction l as [|[k' v] l IH]; [done|].
  rewrite fmap_cons. intros [Hk' Hnd]%NoDup_cons. cbn [lookup_field fst].
  destruct (String.eqb_spec k k') as [->|Hne]; intros Hv.
  - cbn [List.filter snd]. rewrite Hv.
    apply lookup_field_absent. intros Hin.
    by apply filter_keys_subseteq in Hin.
  - cbn [List.filter snd]. destruct (supplied v); [|auto].
    cbn [lookup_field]. destruct (String.eqb_spec k k'); [done | auto].
Qed.

Lemma convert_absent (k field : string) (clean : list (string * jsval)) :
  lookup_field k clean = JUndefined →
  lookup_field k (convert clean field) = JUndefined.
Proof.
  intros Hk. unfold convert.
  destruct (lookup_field field clean) as [| | | | |s| |] eqn:Hf; try done.
  destruct (truthy (JStr s)); [|done].
  destruct (String.eqb_spec field k) as [->|Hne]; [congruence|].
  by rewrite lookup_set_field_ne.
Qed.

Lemma convert_all_absent (k : string) (fields : list string)
    (clean : list (string * jsval)) :
  lookup_field k clean = JUndefined →
  lookup_field k (fold_left convert fields clean) = JUndefined.
Proof.
  revert clean. induction fields as [|field fields IH]; intros clean Hk; [done|].
  simpl. by apply IH, convert_absent.
Qed.

(** A filter whose input is empty (the empty string, or no dietary
    preference ticked) is not a key of the request. *)
Lemma handleApplyFilters_omits (f : FilterState) (k : string) :
  supplied (lookup_field k (entries f)) = false →
  lookup_field k (handleApplyFilters f) = JUndefined.
Proof.
  intros Hk. unfold handleApplyFilters.
  apply convert_all_absent, lookup_filter_unsupplied; [|done].
  apply (bool_decide_unpack _). by vm_compute.
Qed.

Lemma handleApplyFilters_empty : handleApplyFilters empty_form = [].
Proof. reflexivity. Qed.

End RecipesPageFacts.

(** ** Filter-driven search *)

Section SearchFacts.
Import Recipes Search.

Lemma check_true {A B : Type} (bound : option A) (test : A → B → bool) (v : B) :
  check bound test v = true ↔ ∀ b, bound = Some b → test b v = true.
Proof.
  destruct bound as [b|]; simpl.
  - split; [by intros H ? [= <-] | auto].
  - split; [by intros _ ? | done].
Qed.

Lemma at_most_upper (P : Policy) (bound value : option Q) :
  check bound (at_most P) value = true ↔ upper P bound value.
Proof.
  rewrite check_true. unfold upper, at_most.
  split; intros H b Hb; specialize (H b Hb); destruct value;
    try done; by apply Qle_bool_iff.
Qed.

Lemma at_least_lower (P : Policy) (bound value : option Q) :
  check bound (at_least P) value = true ↔ lower P bound value.
Proof.
  rewrite check_true. unfold lower, at_least.
  split; intros H b Hb; specialize (H b Hb); destruct value;
    try done; by apply Qle_bool_iff.
Qed.

Lemma matches_meets (P : Policy) (f : Filters) (r : Recipe) :
  matches P f r = true ↔ meets P f r.
Proof.
  unfold matches, meets.
  rewrite !andb_true_iff, !at_most_upper, at_least_lower, !check_true.
  rewrite forallb_forall.
  setoid_rewrite orb_true_iff. setoid_rewrite Z.leb_le.
  setoid_rewrite <- list_elem_of_In.
  tauto.
Qed.

Lemma hits_elem (P : Policy) (corpus : list Recipe) (f : Filters) (r : Recipe) :
  r ∈ hits P corpus f ↔ r ∈ corpus ∧ meets P f r.
Proof.
  unfold hits. rewrite <- matches_meets, !list_elem_of_In. apply filter_In.
Qed.

Lemma hits_no_filters (P : Policy) (corpus : list Recipe) :
  hits P corpus no_filters = corpus.
Proof.
  unfold hits. induction corpus as [|r corpus IH]; [done|].
  simpl. by rewrite IH.
Qed.

Lemma meets_own_bounds (P : Policy) (r : Recipe) : meets P (own_bounds r) r.
Proof.
  unfold meets, own_bounds, upper, lower; simpl.
  repeat split; try done.
  - intros b [= <-]. lia.
  - intros b [= <-]. lia.
  - intros p Hp. by apply elem_of_nil in Hp.
  - intros b Hb. rewrite Hb. apply Qle_refl.
  - intros b Hb. rewrite Hb. apply Qle_refl.
  - intros b Hb. rewrite Hb. apply Qle_refl.
  - intros b Hb. rewrite Hb. apply Qle_refl.
  - intros b Hb. rewrite Hb. apply Qle_refl.
  - intros b Hb. rewrite Hb. apply Qle_refl.
Qed.

(** *** Pagination *)

Lemma chunks_cover {A : Type} (n k : nat) (l : list A) :
  (length l ≤ k * n)%nat →
  concat ((fun i => take n (drop (i * n) l)) <$> seq 0 k) = l.
Proof.
  revert l. induction k as [|k IH]; intros l Hlen.
  - simpl. destruct l; [done | simpl in Hlen; lia].
  - cbn [seq fmap list_fmap concat]. simpl Nat.mul. rewrite drop_0.
    rewrite <- fmap_S_seq, <- list_fmap_compose.
    rewrite <- (take_drop n l) at 2. f_equal.
    rewrite <- (IH (drop n l)) by (rewrite length_drop; lia).
    f_equal. apply list_fmap_ext. intros _ i _. simpl.
    by rewrite drop_drop.
Qed.

Lemma page_count_enough (P : Policy) (l : list Recipe) :
  (length l ≤ page_count P l * per_page P)%nat.
Proof.
  unfold page_count, per_page.
  pose proof (Pos2Nat.is_pos (page_size P)) as Hpos.
  set (n := Pos.to_nat (page_size P)) in *.
  pose proof (Nat.div_mod_eq (length l + n - 1) n) as Hdiv.
  pose proof (Nat.mod_upper_bound (length l + n - 1) n) as Hmod.
  nia.
Qed.

Lemma pages_cover (P : Policy) (l : list Recipe) : concat (pages P l) = l.
Proof.
  unfold pages.
  etrans; [|apply (chunks_cover (per_page P) (page_count P l) l),
             page_count_enough].
  f_equal. rewrite <- fmap_S_seq, <- list_fmap_compose. unfold page.
  apply list_fmap_ext. intros _ i _. simpl. by rewrite Nat.sub_0_r.
Qed.

Lemma page_subset (P : Policy) (l : list Recipe) (n : nat) (r : Recipe) :
  r ∈ page P l n → r ∈ l.
Proof.
  unfold page. intros Hr.
  by apply subseteq_take, subseteq_drop in Hr.
Qed.

(** C6: the recipes a search request selects are exactly the recipes of the
    store that meet every filter the request carries; each page returned is
    drawn from them and the pages together are all of them; a request
    without any filter key selects the whole store; and every numeric bound
    is inclusive: a recipe is selected by the request whose bounds are its
    own values.  On the request side, a filter left empty in the form of the
    Recipes page is not a key of the request. *)
Theorem search_conjunctive (P : Policy) (corpus : list Recipe) (f : Filters) :
  (∀ r, r ∈ hits P corpus f ↔ r ∈ corpus ∧ meets P f r)
  ∧ (∀ n r, r ∈ recipes (search P corpus f n) → r ∈ corpus ∧ meets P f r)
  ∧ (∀ n, total_recipes (search P corpus f n) = length (hits P corpus f)
          ∧ concat (pages P (hits P corpus f)) = hits P corpus f)
  ∧ hits P corpus no_filters = corpus
  ∧ (∀ (form : RecipesPage.FilterState) (k : string),
       RecipesPage.supplied (JS.lookup_field k (RecipesPage.entries form)) = false →
       JS.lookup_field k (RecipesPage.handleApplyFilters form) = JS.JUndefined)
  ∧ of_request (RecipesPage.handleApplyFilters RecipesPage.empty_form) = no_filters
  ∧ (∀ r, r ∈ corpus → r ∈ hits P corpus (own_bounds r)).
Proof.
  split; [|split; [|split; [|split; [|split; [|split]]]]].
  - intros r. apply hits_elem.
  - intros n r Hr. apply hits_elem. by apply page_subset in Hr.
  - intros n. split; [done | apply pages_cover].
  - apply hits_no_filters.
  - apply handleApplyFilters_omits.
  - reflexivity.
  - intros r Hr. apply hits_elem. split; [done | apply meets_own_bounds].
Qed.

Lemma search_conjunctive_witness :
  Samples.salsa ∈ Samples.sample_corpus
  ∧ Samples.salsa
    ∈ hits Samples.strict_policy Samples.sample_corpus (own_bounds Samples.salsa).
Proof.
  assert (Samples.salsa ∈ Samples.sample_corpus) as Hin
    by apply list_elem_of_here.
  split; [exact Hin|].
  destruct (search_conjunctive Samples.strict_policy Samples.sample_corpus
              no_filters) as (_ & _ & _ & _ & _ & _ & Hown).
  exact (Hown Samples.salsa Hin).
Defined.

End SearchFacts.

(** ** Scenarios of the design document, run on the sample instances *)

Section Scenarios.
Import Resolver Pipeline Recipes Matcher Search Samples.

(** "Lay's Classic Potato Chips": chips by the Variation tier at 0.95; the
    Direct match of the token "chips" is merged into it. *)
Example lays_scenario :
  resolve sample_tables 0 (Text.candidates "Lay's Classic Potato Chips")
  = [ {| canonical_name := "chips"; confidence := 0.95; tier := Variation;
         source_text := "lays" |};
      {| canonical_name := "potato"; confidence := 0.90; tier := Direct;
         source_text := "potato" |} ].
Proof. vm_compute. reflexivity. Qed.

(** A Keyword match (0.80) takes the place of an earlier Fuzzy match (0.75)
    of the same ingredient. *)
Example keyword_over_fuzzy :
  resolve sample_tables 0 ["chipsy"; "snack"]
  = [ {| canonical_name := "chips"; confidence := 0.80; tier := Keyword;
         source_text := "snack" |} ].
Proof. vm_compute. reflexivity. Qed.

(** A blank image: no text, one Fallback match. *)
Example blank_image_scenario :
  detect sample_platform sample_tables true blank_image
  = inr {| ocr_text := ""; fragments := []; ocr_no_text := true;
           Pipeline.matches := [ {| canonical_name := "onion"; confidence := 64 # 100;
                           tier := Fallback; source_text := "" |} ] |}.
Proof. vm_compute. reflexivity. Qed.

Example empty_buffer_is_malformed :
  detect sample_platform sample_tables false [] = inl MalformedImage.
Proof. reflexivity. Qed.

(** [find-recipes] with tomato and onion against a recipe of tomato, onion,
    garlic and oil: score 0.5. *)
Example find_recipes_scenario :
  find_recipes [salsa] ["tomato"; "onion"]
  = [ {| recipe := salsa; match_score := 2 # 4 |} ]
  ∧ (2 # 4 == 0.5)%Q.
Proof. split; [vm_compute; reflexivity | reflexivity]. Qed.

(** Equal scores: the smaller id first; no overlap: left out. *)
Example tie_broken_by_id :
  (fun x => (id (recipe x), match_score x))
    <$> find_recipes sample_corpus ["tomato"; "onion"]
  = [ (1, 1 # 2); (3, 2 # 4) ].
Proof. vm_compute. reflexivity. Qed.

(** A bound of 500 calories keeps the recipe of exactly 500, drops the one
    of 501 and, under the strict policy, the one without a value. *)
Example calories_bound_inclusive :
  hits strict_policy sample_corpus (calories_at_most 500) = [salsa].
Proof. vm_compute. reflexivity. Qed.

Example pages_of_two :
  (fun n => id <$> recipes (search strict_policy sample_corpus no_filters n))
    <$> [1; 2; 3]%nat
  = [ [3; 1]; [2]; [] ].
Proof. vm_compute. reflexivity. Qed.

Example parseInt_examples :
  RecipesPage.parseInt "500" = JS.JNum 500
  ∧ RecipesPage.parseInt " 12.5" = JS.JNum 12
  ∧ RecipesPage.parseInt "-3" = JS.JNum (-3)
  ∧ RecipesPage.parseInt "abc" = JS.JNaN.
Proof. repeat split. Qed.

End Scenarios.

(** * Part III: further properties of the front-end code *)

(** ** userSlice: favorites, history, flags *)

Section UserSliceMore.
Import JS UserSlice.

Lemma run_cons (s : State) (a : Action) (acts : list Action) :
  run s (a :: acts) = run (reducer s a) acts.
Proof. reflexivity. Qed.

Lemma run_snoc (s : State) (a : Action) (acts : list Action) :
  run s (acts ++ [a]) = reducer (run s acts) a.
Proof. unfold run. by rewrite fold_left_app. Qed.

Lemma filter_absent (id : Z) (l : list Z) :
  id ∉ l → List.filter (fun x => negb (Z.eqb x id)) l = l.
Proof.
  induction l as [|x l IH]; [done|].
  rewrite not_elem_of_cons. intros [Hne Hout]. simpl.
  destruct (Z.eqb_spec x id); [congruence|]. simpl. by rewrite IH.
Qed.

Lemma elem_of_filter_ne (id x : Z) (l : list Z) :
  x ∈ List.filter (fun y => negb (Z.eqb y id)) l ↔ x ∈ l ∧ x ≠ id.
Proof.
  rewrite !list_elem_of_In, filter_In, negb_true_iff, Z.eqb_neq. done.
Qed.

(** [removeFromFavorites] takes every occurrence of the id out and keeps the
    other ids in their order; it is idempotent, and the identity when the
    id is no favorite. *)
Theorem removeFromFavorites_removes (s : State) (id : Z) :
  (id ∉ favorites (profile (removeFromFavorites s id)))
  ∧ (∀ x, x ∈ favorites (profile (removeFromFavorites s id))
          ↔ x ∈ favorites (profile s) ∧ x ≠ id)
  ∧ sublist (favorites (profile (removeFromFavorites s id)))
       (favorites (profile s))
  ∧ removeFromFavorites (removeFromFavorites s id) id = removeFromFavorites s id
  ∧ (id ∉ favorites (profile s) → removeFromFavorites s id = s).
Proof.
  assert (∀ t, id ∉ favorites (profile t) → removeFromFavorites t id = t)
    as Hid.
  { intros t Hout. unfold removeFromFavorites. rewrite filter_absent by done.
    by destruct t as [[] ? ? ?]. }
  assert (id ∉ favorites (profile (removeFromFavorites s id))) as Hgone.
  { simpl. rewrite elem_of_filter_ne. intros [_ Hne]. by apply Hne. }
  split; [done|]. split; [|split; [|split; [by apply Hid | apply Hid]]].
  - intros x. simpl. apply elem_of_filter_ne.
  - simpl. induction (favorites (profile s)) as [|x l IH]; [constructor|].
    simpl. destruct (negb _); by constructor.
Qed.

Lemma removeFromFavorites_removes_witness :
  (7 ∉ favorites (profile initialState))
  ∧ removeFromFavorites initialState 7 = initialState.
Proof.
  assert (7 ∉ favorites (profile initialState)) as Hout by apply not_elem_of_nil.
  split; [exact Hout|].
  exact (proj2 (proj2 (proj2 (proj2 (removeFromFavorites_removes initialState 7))))
           Hout).
Defined.

(** Adding an id that is no favorite and removing it again gives the state
    back; removing an id and adding it again leaves it once, at the end of
    the other favorites. *)
Theorem favorite_added_then_removed (s : State) (id : Z) :
  (id ∉ favorites (profile s) →
   removeFromFavorites (addToFavorites s id) id = s)
  ∧ favorites (profile (addToFavorites (removeFromFavorites s id) id))
    = List.filter (fun x => negb (Z.eqb x id)) (favorites (profile s)) ++ [id].
Proof.
  split.
  - intros Hout. unfold addToFavorites.
    rewrite (proj2 (includes_false _ _) Hout). simpl.
    unfold removeFromFavorites. simpl. rewrite List.filter_app, filter_absent by done.
    simpl. rewrite Z.eqb_refl. simpl. rewrite app_nil_r.
    by destruct s as [[] ? ? ?].
  - rewrite addToFavorites_absent; [done|].
    simpl. rewrite elem_of_filter_ne. intros [_ Hne]. by apply Hne.
Qed.

Lemma favorite_added_then_removed_witness :
  (7 ∉ favorites (profile initialState))
  ∧ removeFromFavorites (addToFavorites initialState 7) 7 = initialState.
Proof.
  assert (7 ∉ favorites (profile initialState)) as Hout by apply not_elem_of_nil.
  split; [exact Hout|].
  exact (proj1 (favorite_added_then_removed initialState 7) Hout).
Defined.

Lemma favorites_distinct_step (s : State) (a : Action) :
  keeps_favorites_distinct a →
  NoDup (favorites (profile s)) → NoDup (favorites (profile (reducer s a))).
Proof.
  intros Ha Hs. destruct a as [p|p|id|id|e| | |]; simpl in *; try done.
  - by destruct (p_favorites p).
  - destruct (decide (id ∈ favorites (profile s))) as [Hin|Hout].
    + by rewrite addToFavorites_present.
    + rewrite addToFavorites_absent by done.
      apply NoDup_app. split; [done|]. split; [|apply NoDup_singleton].
      intros x Hx Hx'. apply list_elem_of_singleton in Hx'. by subst.
  - apply NoDup_ListNoDup, List.NoDup_filter. by apply NoDup_ListNoDup.
  - constructor.
Qed.

(** The favorites stay free of duplicates through every sequence of actions
    in which no [setUserProfile] payload brings a favorites list with a
    repeated id. *)
Theorem favorites_stay_distinct (s : State) (acts : list Action) :
  Forall keeps_favorites_distinct acts →
  NoDup (favorites (profile s)) →
  NoDup (favorites (profile (run s acts))).
Proof.
  revert s. induction acts as [|a acts IH]; intros s Hall Hs; [done|].
  apply Forall_cons in Hall as [Ha Hall]. rewrite run_cons.
  apply IH; [done|]. by apply favorites_distinct_step.
Qed.

Lemma favorites_stay_distinct_witness :
  Forall keeps_favorites_distinct
    [AddToFavorites 3; AddToFavorites 3; RemoveFromFavorites 4; AddToFavorites 4]
  ∧ NoDup (favorites (profile initialState))
  ∧ NoDup (favorites (profile
      (run initialState
         [AddToFavorites 3; AddToFavorites 3; RemoveFromFavorites 4;
          AddToFavorites 4]))).
Proof.
  assert (Forall keeps_favorites_distinct
            [AddToFavorites 3; AddToFavorites 3; RemoveFromFavorites 4;
             AddToFavorites 4]) as Hall by (repeat constructor).
  assert (NoDup (favorites (profile initialState))) as Hnd by constructor.
  split; [exact Hall|]. split; [exact Hnd|].
  exact (favorites_stay_distinct initialState _ Hall Hnd).
Defined.

Lemma take_app_take {A : Type} (n : nat) (l m : list A) :
  take n (l ++ take n m) = take n (l ++ m).
Proof.
  rewrite !take_app, take_take. do 2 f_equal. lia.
Qed.

(** Dispatching [addToHistory] for one entry after the other leaves the
    newest first: the entries in reverse before the former history, cut
    after the twentieth. *)
Theorem history_of_additions (s : State) (e : jsval) (es : list jsval) :
  history (profile (run s (AddToHistory <$> e :: es)))
  = take 20 (reverse (e :: es) ++ history (profile s)).
Proof.
  revert s e. induction es as [|e' es IH]; intros s e.
  - reflexivity.
  - rewrite fmap_cons, run_cons, IH. cbn [reducer].
    cbn [addToHistory profile history with_profile with_history].
    rewrite take_app_take, (reverse_cons _ e). by rewrite <- app_assoc.
Qed.

Lemma loading_error_step (s : State) (a : Action) :
  loading (reducer s a) = loading s
  ∧ (error (reducer s a) = error s ∨ error (reducer s a) = None).
Proof.
  destruct a; simpl; auto.
  unfold addToFavorites. destruct (negb _); auto.
Qed.

(** No action of the slice writes [loading], and [error] is only ever
    cleared: from the initial state they stay [false] and [null]. *)
Theorem loading_and_error_never_set (s : State) (acts : list Action) :
  loading (run s acts) = loading s
  ∧ (error (run s acts) = error s ∨ error (run s acts) = None)
  ∧ loading (run initialState acts) = false
  ∧ error (run initialState acts) = None.
Proof.
  assert (∀ s, loading (run s acts) = loading s
               ∧ (error (run s acts) = error s ∨ error (run s acts) = None))
    as Hgen.
  { induction acts as [|a acts IH]; intros s'; [auto|].
    rewrite run_cons. destruct (IH (reducer s' a)) as [Hl He].
    destruct (loading_error_step s' a) as [Hl' He'].
    split; [congruence|]. destruct He as [He|He]; [|auto].
    rewrite He. done. }
  destruct (Hgen s) as [Hl He]. destruct (Hgen initialState) as [Hl0 He0].
  repeat split; try done. by destruct He0.
Qed.

(** [isAuthenticated] is what the last [setUserProfile] or [logout] made it,
    and a [logout] leaves the empty profile behind whatever came before. *)
Theorem authentication_follows_last_action (s : State) (acts : list Action) :
  isAuthenticated (run s acts)
  = default (isAuthenticated s) (last (omap sets_authentication acts))
  ∧ profile (run s (acts ++ [Logout])) = emptyProfile.
Proof.
  split; [|by rewrite run_snoc].
  induction acts as [|a acts IH] using rev_ind; [done|].
  rewrite run_snoc, omap_app, last_app.
  destruct a; simpl; try done.
  unfold addToFavorites. by destruct (negb _).
Qed.

End UserSliceMore.

(** ** ingredientSlice: edits of the ingredient list, the error field *)

Section IngredientSliceMore.
Import JS IngredientSlice.

Lemma ingredients_run_cons (s : State) (a : Action) (acts : list Action) :
  run s (a :: acts) = run (dispatch s a) acts.
Proof. reflexivity. Qed.

Lemma index_differs_index_of (k : nat) (payload : jsval) :
  index_differs k payload = false ↔ index_of payload = Some k.
Proof.
  destruct payload as [| | |q| | | |]; simpl; try (split; discriminate).
  rewrite negb_false_iff, Qeq_bool_iff. split.
  - intros Hq.
    assert (Qfloor q = Z.of_nat k) as Hfloor by (rewrite Hq; apply Qfloor_Z).
    rewrite Hfloor, (proj2 (Qeq_bool_iff _ _) Hq).
    rewrite (proj2 (Z.leb_le _ _)) by lia. simpl. by rewrite Nat2Z.id.
  - destruct (Qeq_bool q (inject_Z (Qfloor q))) eqn:Hq; [|discriminate].
    destruct (Z.leb_spec 0 (Qfloor q)); [|discriminate]. simpl.
    intros [= <-]. apply Qeq_bool_iff in Hq. by rewrite Z2Nat.id.
Qed.

Lemma filter_index_delete (payload : jsval) (k : nat) (items : list jsval) :
  filter_index payload k items =
    match index_of payload with
    | Some i => if (i <? k)%nat then items else delete (i - k)%nat items
    | None => items
    end.
Proof.
  revert k. induction items as [|x items IH]; intros k.
  - simpl. destruct (index_of payload); [by destruct (_ <? _)%nat | done].
  - cbn [filter_index]. rewrite IH.
    destruct (index_differs k payload) eqn:Hk.
    + destruct (index_of payload) as [i|] eqn:Hi; [|done].
      assert (i ≠ k) as Hne.
      { intros ->. apply index_differs_index_of in Hi. congruence. }
      destruct (Nat.ltb_spec i (S k)), (Nat.ltb_spec i k); try lia; [done|].
      replace (i - k)%nat with (S (i - S k)) by lia. done.
    + apply index_differs_index_of in Hk. rewrite Hk.
      rewrite (proj2 (Nat.ltb_lt _ _)) by lia.
      rewrite (proj2 (Nat.ltb_ge _ _)) by lia.
      by rewrite Nat.sub_diag.
Qed.

(** [removeIngredient] with a payload that denotes the index [i] deletes the
    element at [i] and nothing else; with an index out of range, or a
    payload that is no index (a string, a fraction, a negative number), it
    keeps the list as it is. *)
Theorem removeIngredient_by_index (s : State) (items : list jsval)
    (payload : jsval) :
  detectedIngredients s = JArr items →
  removeIngredient s payload =
    Some (setIngredients s
            (JArr (match index_of payload with
                   | Some i => delete i items
                   | None => items
                   end)))
  ∧ (∀ i, index_of payload = Some i → (length items ≤ i)%nat →
       removeIngredient s payload = Some s).
Proof.
  intros Hs. unfold removeIngredient. rewrite Hs, filter_index_delete.
  split.
  - destruct (index_of payload) as [i|]; [|done].
    simpl. by rewrite Nat.sub_0_r.
  - intros i Hi Hlen. rewrite Hi. simpl. rewrite Nat.sub_0_r.
    rewrite delete_take_drop, take_ge, drop_ge, app_nil_r by lia.
    destruct s; simpl in *. by subst.
Qed.

Lemma removeIngredient_by_index_witness :
  detectedIngredients (setIngredients initialState (JArr [JStr "a"; JStr "b"]))
    = JArr [JStr "a"; JStr "b"]
  ∧ removeIngredient (setIngredients initialState (JArr [JStr "a"; JStr "b"]))
      (JNum 0)
    = Some (setIngredients initialState (JArr [JStr "b"])).
Proof.
  split; [reflexivity|].
  exact (proj1 (removeIngredient_by_index
                  (setIngredients initialState (JArr [JStr "a"; JStr "b"]))
                  [JStr "a"; JStr "b"] (JNum 0) eq_refl)).
Defined.

(** [addIngredient] appends at the end, and removing at the index of the
    new element gives the state back. *)
Theorem ingredient_added_then_removed (s : State) (items : list jsval)
    (x : jsval) :
  detectedIngredients s = JArr items →
  addIngredient s x = Some (setIngredients s (JArr (items ++ [x])))
  ∧ (addIngredient s x
       ≫= fun s' => removeIngredient s'
                      (JNum (inject_Z (Z.of_nat (length items)))))
    = Some s.
Proof.
  intros Hs. unfold addIngredient. rewrite Hs. split; [done|].
  simpl. unfold removeIngredient. simpl. rewrite filter_index_delete.
  assert (index_of (JNum (inject_Z (Z.of_nat (length items))))
          = Some (length items)) as ->.
  { apply index_differs_index_of. simpl.
    by rewrite (proj2 (Qeq_bool_iff _ _)). }
  simpl. rewrite Nat.sub_0_r.
  rewrite delete_middle, app_nil_r.
  destruct s; simpl in *. by subst.
Qed.

Lemma ingredient_added_then_removed_witness :
  detectedIngredients initialState = JArr []
  ∧ addIngredient initialState (JStr "egg")
    = Some (setIngredients initialState (JArr [JStr "egg"])).
Proof.
  split; [reflexivity|].
  exact (proj1 (ingredient_added_then_removed initialState [] (JStr "egg")
                  eq_refl)).
Defined.

(** After a [processImage] response without an [ingredients] key the list
    is [undefined]: [addIngredient] and [removeIngredient] then throw and
    the store stays as it is, until [setIngredients] or [clearIngredients]
    puts an array back. *)
Theorem edits_fail_without_ingredients_key (s s' : State)
    (fields : list (string * jsval)) (x : jsval) :
  lookup_field "ingredients" fields = JUndefined →
  processImage_fulfilled s (JObj fields) = Some s' →
  detectedIngredients s' = JUndefined
  ∧ addIngredient s' x = None
  ∧ removeIngredient s' x = None
  ∧ dispatch s' (AddIngredient x) = s'
  ∧ addIngredient (clearIngredients s') x
    = Some (setIngredients (clearIngredients s') (JArr [x])).
Proof.
  intros Hkey Hful. rewrite processImage_fulfilled_obj in Hful.
  destruct (spread (or_else (lookup_field "ai_generated_recipes" fields) _))
    as [ai|]; simpl in Hful; [|discriminate].
  destruct (spread (or_else (lookup_field "database_matching_recipes" fields) _))
    as [db|]; simpl in Hful; [|discriminate].
  injection Hful as <-. rewrite Hkey. done.
Qed.

Lemma edits_fail_without_ingredients_key_witness :
  lookup_field "ingredients" [("ocr_text", JStr "milk")] = JUndefined
  ∧ ∃ s', processImage_fulfilled initialState (JObj [("ocr_text", JStr "milk")])
          = Some s'
          ∧ addIngredient s' (JStr "milk") = None.
Proof.
  split; [reflexivity|]. eexists. split; [reflexivity|].
  exact (proj1 (proj2 (edits_fail_without_ingredients_key initialState _
                         [("ocr_text", JStr "milk")] (JStr "milk")
                         eq_refl eq_refl))).
Defined.

Lemma error_kept_step (s : State) (a : Action) :
  writes_error a = false → error (dispatch s a) = error s.
Proof.
  intros Ha. unfold dispatch.
  destruct a as [p|p|p| | |p| |p|m| |p|m]; simpl in *; try done.
  - unfold addIngredient. by destruct (detectedIngredients s).
  - unfold removeIngredient. by destruct (detectedIngredients s).
  - destruct (processImage_fulfilled s p) as [s'|] eqn:Hp; [|done].
    unfold processImage_fulfilled in Hp.
    repeat (match type of Hp with
            | context [?o ≫= _] => destruct o; simpl in Hp; [|done]
            end).
    by injection Hp as <-.
  - destruct (findRecipes_fulfilled s p) as [s'|] eqn:Hp; [|done].
    unfold findRecipes_fulfilled in Hp.
    destruct (get_prop p "recipes"); simpl in Hp; [|done].
    by injection Hp as <-.
Qed.

(** The message of a failed request stays in [error] through every later
    action, successful responses included, until [clearError] or another
    failure writes the field. *)
Theorem error_survives_until_cleared (s : State) (acts : list Action) :
  Forall (fun a => writes_error a = false) acts →
  error (run s acts) = error s.
Proof.
  revert s. induction acts as [|a acts IH]; intros s Hall; [done|].
  apply Forall_cons in Hall as [Ha Hall].
  rewrite ingredients_run_cons, IH by done. by apply error_kept_step.
Qed.

Lemma error_survives_until_cleared_witness :
  Forall (fun a => writes_error a = false)
    [ProcessImagePending; ProcessImageFulfilled sample_response; ClearIngredients]
  ∧ error (run (rejected initialState (JStr "Network Error"))
             [ProcessImagePending; ProcessImageFulfilled sample_response;
              ClearIngredients])
    = JStr "Network Error".
Proof.
  assert (Forall (fun a => writes_error a = false)
            [ProcessImagePending; ProcessImageFulfilled sample_response;
             ClearIngredients]) as Hall by (repeat constructor).
  split; [exact Hall|].
  exact (error_survives_until_cleared
           (rejected initialState (JStr "Network Error")) _ Hall).
Defined.

End IngredientSliceMore.

(** ** The filter form: what is typed and what is sent *)

Section FilterFormFacts.
Import JS RecipesPage FilterForm.

Lemma lookup_filter_supplied (k : string) (l : list (string * jsval)) :
  NoDup l.*1 →
  lookup_field k (List.filter (fun kv => supplied (snd kv)) l)
  = if supplied (lookup_field k l) then lookup_field k l else JUndefined.
Proof.
  intros Hnd. destruct (supplied (lookup_field k l)) eqn:Hs;
    [|by apply lookup_filter_unsupplied].
  induction l as [|[k' v] l IH]; [done|].
  rewrite fmap_cons in Hnd. apply NoDup_cons in Hnd as [Hk' Hnd].
  cbn [lookup_field] in *. cbn [List.filter snd].
  destruct (String.eqb_spec k k') as [->|Hne].
  - rewrite Hs. cbn [lookup_field]. by rewrite String.eqb_refl.
  - destruct (supplied v); [|auto]. cbn [lookup_field].
    destruct (String.eqb_spec k k'); [done | auto].
Qed.

Lemma convert_lookup (k field : string) (clean : list (string * jsval)) :
  lookup_field k (convert clean field)
  = if String.eqb field k then converted (lookup_field k clean)
    else lookup_field k clean.
Proof.
  unfold convert. destruct (String.eqb_spec field k) as [->|Hne].
  - unfold converted. destruct (lookup_field k clean) eqn:Hk; try done.
    destruct (truthy (JStr s)); [|done]. apply lookup_set_field_eq.
  - destruct (lookup_field field clean); try done.
    destruct (truthy (JStr s)); [|done]. by apply lookup_set_field_ne.
Qed.

Lemma convert_all_lookup (k : string) (fields : list string)
    (clean : list (string * jsval)) :
  NoDup fields →
  lookup_field k (fold_left convert fields clean)
  = if bool_decide (k ∈ fields) then converted (lookup_field k clean)
    else lookup_field k clean.
Proof.
  revert clean. induction fields as [|fd fields IH]; intros clean Hnd; [done|].
  apply NoDup_cons in Hnd as [Hfd Hnd]. simpl. rewrite IH, convert_lookup by done.
  destruct (String.eqb_spec fd k) as [->|Hne].
  - rewrite bool_decide_eq_false_2 by done.
    by rewrite bool_decide_eq_true_2 by apply list_elem_of_here.
  - case_bool_decide as Hin.
    + by rewrite bool_decide_eq_true_2 by (by apply list_elem_of_further).
    + rewrite bool_decide_eq_false_2; [done|].
      rewrite elem_of_cons. intros [?|?]; congruence.
Qed.

Lemma entries_keys_NoDup (f : FilterState) : NoDup (entries f).*1.
Proof. apply (bool_decide_unpack _). by vm_compute. Qed.

Lemma numericFields_NoDup : NoDup numericFields.
Proof. apply (bool_decide_unpack _). by vm_compute. Qed.

Lemma request_lookup (f : FilterState) (k : string) :
  lookup_field k (handleApplyFilters f) = sent k (lookup_field k (entries f)).
Proof.
  unfold handleApplyFilters, sent.
  rewrite convert_all_lookup by apply numericFields_NoDup.
  rewrite lookup_filter_supplied by apply entries_keys_NoDup.
  destruct (supplied (lookup_field k (entries f))) eqn:Hs.
  - destruct (lookup_field k (entries f)) as [| | | | |s| |] eqn:Hv;
      try (by case_bool_decide).
    simpl in Hs. unfold converted. simpl. rewrite Hs. by case_bool_decide.
  - by case_bool_decide.
Qed.

(** For every key, the request of [handleApplyFilters] carries the form's
    value when it is supplied (a non-empty string, a non-empty array):
    unchanged for the text and preference keys, through [parseInt(., 10)]
    for the eight numeric keys; it carries no key the form does not have. *)
Theorem handleApplyFilters_sends (f : FilterState) (k : string) :
  lookup_field k (handleApplyFilters f) = sent k (lookup_field k (entries f))
  ∧ (k ∉ (entries f).*1 → lookup_field k (handleApplyFilters f) = JUndefined).
Proof.
  split; [apply request_lookup|].
  intros Hout. rewrite request_lookup, lookup_field_absent by done.
  reflexivity.
Qed.

Lemma entries_after_change (f : FilterState) (k : FilterKey) (value k' : string) :
  lookup_field k' (entries (handleFilterChange f k value))
  = if String.eqb k' (key_name k) then JStr value
    else lookup_field k' (entries f).
Proof.
  destruct k; cbn [entries handleFilterChange lookup_field key_name
                   dietary_preferences cuisine_type difficulty_level
                   max_prep_time max_cook_time query max_calories min_protein
                   max_carbs max_fat max_sugar max_sodium];
    repeat match goal with
           | |- context [String.eqb k' ?s] =>
               destruct (String.eqb_spec k' s); [subst; reflexivity|]
           end; reflexivity.
Qed.

(** What the user types into a field is what the next search sends for that
    key (nothing for an empty field, the parsed integer for a numeric
    field), and the change touches no other key of the request. *)
Theorem typed_filter_is_sent (f : FilterState) (k : FilterKey) (value : string) :
  lookup_field (key_name k) (handleApplyFilters (handleFilterChange f k value))
  = sent (key_name k) (JStr value)
  ∧ (∀ k', k' ≠ key_name k →
       lookup_field k' (handleApplyFilters (handleFilterChange f k value))
       = lookup_field k' (handleApplyFilters f)).
Proof.
  split.
  - by rewrite request_lookup, entries_after_change, String.eqb_refl.
  - intros k' Hne. rewrite !request_lookup, entries_after_change.
    by destruct (String.eqb_spec k' (key_name k)).
Qed.

Lemma typed_filter_is_sent_witness :
  lookup_field "max_calories"
    (handleApplyFilters (handleFilterChange empty_form KMaxCalories "500"))
  = JNum 500.
Proof.
  exact (proj1 (typed_filter_is_sent empty_form KMaxCalories "500")).
Defined.

End FilterFormFacts.

Section FilterFormNumbers.
Import JS RecipesPage FilterForm.

Lemma digit_cases (d : N) :
  (d < 10)%N →
  d = 0%N ∨ d = 1%N ∨ d = 2%N ∨ d = 3%N ∨ d = 4%N ∨ d = 5%N ∨ d = 6%N
  ∨ d = 7%N ∨ d = 8%N ∨ d = 9%N.
Proof. lia. Qed.

Lemma digit_digit_char (d : N) :
  (d < 10)%N →
  digit (digit_char d) = Some (Z.of_N d)
  ∧ is_white (digit_char d) = false
  ∧ digit_char d ≠ "-"%char ∧ digit_char d ≠ "+"%char.
Proof.
  intros Hd. destruct (digit_cases d Hd) as [H|[H|[H|[H|[H|[H|[H|[H|[H|H]]]]]]]]];
    subst d; repeat split; discriminate.
Qed.

Lemma digits_numeral (ds : list N) (rest : string) (acc : option Z) :
  Forall (fun d => (d < 10)%N) ds → stops_digits rest →
  digits (numeral ds +:+ rest) acc
  = match ds with
    | [] => acc
    | _ => Some (fold_left (fun a d => 10 * a + Z.of_N d) ds (default 0 acc))
    end.
Proof.
  intros Hds Hrest. revert acc.
  induction Hds as [|d ds Hd Hds IH]; intros acc.
  - simpl. destruct rest as [|c rest]; [done|]. simpl in *. by rewrite Hrest.
  - change (numeral (d :: ds) +:+ rest)
      with (String (digit_char d) (numeral ds +:+ rest)).
    cbn [digits]. destruct (digit_digit_char d Hd) as (-> & _). rewrite IH.
    destruct ds; done.
Qed.

Lemma skip_white_pad (pad t : string) :
  all_white pad = true → skip_white (pad +:+ t) = skip_white t.
Proof.
  induction pad as [|c pad IH]; [done|]. simpl.
  intros [Hc Hpad]%andb_true_iff. rewrite Hc. auto.
Qed.

(** [parseInt(., 10)] reads an optional sign and the digits that follow,
    after any leading white space, and ignores whatever comes behind the
    digits: a bound typed as 12.5 is 12.  The digits denote at most 2^53,
    the range in which every integer is a double. *)
Theorem parseInt_reads_leading_digits
    (pad rest : string) (sign : option bool) (d : N) (ds : list N) :
  all_white pad = true →
  Forall (fun d => (d < 10)%N) (d :: ds) →
  numeral_value (d :: ds) <= 2 ^ 53 →
  stops_digits rest →
  parseInt (pad +:+ sign_text sign +:+ numeral (d :: ds) +:+ rest)
  = JNum (inject_Z (sign_factor sign * numeral_value (d :: ds))).
Proof.
  intros Hpad Hds _ Hrest. unfold parseInt. rewrite skip_white_pad by done.
  pose proof (digits_numeral (d :: ds) rest None Hds Hrest) as Hdigits.
  apply Forall_cons in Hds as [Hd Hds].
  destruct (digit_digit_char d Hd) as (_ & Hw & Hminus & Hplus).
  destruct sign as [[|]|]; cbn [sign_text sign_factor].
  - change ("-" +:+ numeral (d :: ds) +:+ rest)
      with (String "-" (numeral (d :: ds) +:+ rest)).
    cbn [skip_white]. change (is_white "-") with false. cbv iota.
    by rewrite Hdigits.
  - change ("+" +:+ numeral (d :: ds) +:+ rest)
      with (String "+" (numeral (d :: ds) +:+ rest)).
    cbn [skip_white]. change (is_white "+") with false. cbv iota.
    by rewrite Hdigits.
  - change ("" +:+ numeral (d :: ds) +:+ rest)
      with (String (digit_char d) (numeral ds +:+ rest)).
    change (numeral (d :: ds) +:+ rest)
      with (String (digit_char d) (numeral ds +:+ rest)) in Hdigits.
    cbn [skip_white]. rewrite Hw. clear Hw Hminus Hplus.
    destruct (digit_cases d Hd) as [H|[H|[H|[H|[H|[H|[H|[H|[H|H]]]]]]]]];
      subst d;
      match goal with
      | |- context [digit_char ?n] =>
          let c := eval vm_compute in (digit_char n) in
          change (digit_char n) with c in *
      end; cbv iota; by rewrite Hdigits.
Qed.

Lemma parseInt_reads_leading_digits_witness :
  all_white " " = true
  ∧ Forall (fun d => (d < 10)%N) [1; 2]%N
  ∧ numeral_value [1; 2]%N <= 2 ^ 53
  ∧ stops_digits ".5"
  ∧ parseInt " -12.5" = JNum (-12).
Proof.
  assert (Forall (fun d => (d < 10)%N) [1; 2]%N) as Hds
    by (repeat constructor).
  assert (numeral_value [1; 2]%N <= 2 ^ 53) as Hsafe by (by vm_compute).
  split; [reflexivity|]. split; [exact Hds|]. split; [exact Hsafe|].
  split; [reflexivity|].
  exact (parseInt_reads_leading_digits " " ".5" (Some true) 1%N [2%N]
           eq_refl Hds Hsafe eq_refl).
Defined.

Lemma toggled_in (l : list string) (v : string) :
  v ∈ l → JSString.toggled l v = List.filter (fun p => negb (String.eqb p v)) l.
Proof.
  intros Hin. unfold JSString.toggled.
  replace (existsb (String.eqb v) l) with true; [done|].
  symmetry. apply existsb_exists. exists v.
  split; [by apply list_elem_of_In | apply String.eqb_refl].
Qed.

Lemma toggled_out (l : list string) (v : string) :
  v ∉ l → JSString.toggled l v = l ++ [v].
Proof.
  intros Hout. unfold JSString.toggled.
  destruct (existsb (String.eqb v) l) eqn:He; [|done].
  apply existsb_exists in He as (x & Hx & Heq).
  apply String.eqb_eq in Heq. subst x. by apply list_elem_of_In in Hx.
Qed.

Lemma elem_of_filter_other (v x : string) (l : list string) :
  x ∈ List.filter (fun p => negb (String.eqb p v)) l ↔ x ∈ l ∧ x ≠ v.
Proof.
  rewrite !list_elem_of_In, filter_In, negb_true_iff, String.eqb_neq. done.
Qed.

Lemma filter_other_absent (v : string) (l : list string) :
  v ∉ l → List.filter (fun p => negb (String.eqb p v)) l = l.
Proof.
  induction l as [|x l IH]; [done|].
  rewrite not_elem_of_cons. intros [Hne Hout]. simpl.
  destruct (String.eqb_spec x v); [congruence|]. simpl. by rewrite IH.
Qed.

(** The toggle of a check box flips the membership of its value and of no
    other; ticking and unticking a value that was not selected gives the
    list back; a list without duplicates stays so. *)
Lemma toggled_spec (l : list string) (v : string) :
  (v ∈ JSString.toggled l v ↔ v ∉ l)
  ∧ (∀ x, x ≠ v → (x ∈ JSString.toggled l v ↔ x ∈ l))
  ∧ (v ∉ l → JSString.toggled (JSString.toggled l v) v = l)
  ∧ (NoDup l → NoDup (JSString.toggled l v)).
Proof.
  destruct (decide (v ∈ l)) as [Hin|Hout].
  - rewrite toggled_in by done. split; [|split; [|split]].
    + rewrite elem_of_filter_other. split; [by intros [_ ?] | done].
    + intros x Hx. rewrite elem_of_filter_other. split; [by intros [? _] | done].
    + done.
    + intros Hnd. apply NoDup_ListNoDup, List.NoDup_filter.
      by apply NoDup_ListNoDup.
  - rewrite toggled_out by done. split; [|split; [|split]].
    + split; [done|]. intros _. apply elem_of_app. right. apply list_elem_of_here.
    + intros x Hx. rewrite elem_of_app, list_elem_of_singleton. tauto.
    + intros _. rewrite toggled_in
        by (apply elem_of_app; right; apply list_elem_of_here).
      rewrite List.filter_app, filter_other_absent by done.
      simpl. rewrite String.eqb_refl. simpl. apply app_nil_r.
    + intros Hnd. apply NoDup_app. split; [done|]. split; [|apply NoDup_singleton].
      intros x Hx Hx'. apply list_elem_of_singleton in Hx'. by subst.
Qed.

(** Ticking a dietary preference puts it into the request's
    [dietary_preferences] array behind those already ticked; unticking it
    takes it out, and when none is left the request has no such key; the
    other keys of the request are as before. *)
Theorem dietary_toggle_is_sent (f : FilterState) (preference : string) :
  lookup_field "dietary_preferences"
    (handleApplyFilters (handleDietaryPreferenceToggle f preference))
  = match JSString.toggled (dietary_preferences f) preference with
    | [] => JUndefined
    | l => JArr (JStr <$> l)
    end
  ∧ (preference ∈ dietary_preferences
                     (handleDietaryPreferenceToggle f preference)
     ↔ preference ∉ dietary_preferences f)
  ∧ (preference ∉ dietary_preferences f →
     handleDietaryPreferenceToggle
       (handleDietaryPreferenceToggle f preference) preference = f)
  ∧ (∀ k, k ≠ "dietary_preferences" →
       lookup_field k (handleApplyFilters (handleDietaryPreferenceToggle f preference))
       = lookup_field k (handleApplyFilters f)).
Proof.
  destruct (toggled_spec (dietary_preferences f) preference)
    as (Hflip & _ & Htwice & _).
  split; [|split; [done|split]].
  - rewrite request_lookup. cbn.
    by destruct (JSString.toggled (dietary_preferences f) preference).
  - intros Hout. unfold handleDietaryPreferenceToggle at 1.
    cbn [dietary_preferences handleDietaryPreferenceToggle with_dietary].
    rewrite Htwice by done. by destruct f.
  - intros k Hk. rewrite !request_lookup. f_equal.
    cbn. destruct (String.eqb_spec k "dietary_preferences"); done.
Qed.

Lemma dietary_toggle_is_sent_witness :
  lookup_field "dietary_preferences"
    (handleApplyFilters (handleDietaryPreferenceToggle empty_form "vegan"))
  = JArr [JStr "vegan"].
Proof.
  exact (proj1 (dietary_toggle_is_sent empty_form "vegan")).
Defined.

End FilterFormNumbers.

(** ** Recipe cards *)

Section RecipeCardsFacts.
Import JS RecipeCards.

Lemma matchPercent_obj (fields : list (string * jsval)) :
  matchPercent (JObj fields)
  = Some (or_else (or_else (or_else (lookup_field "match_percentage" fields)
                                    (lookup_field "match" fields))
                           (lookup_field "matchScore" fields))
                  (JNum 0)).
Proof. reflexivity. Qed.

(** The card of the Recipes page never reads [match_score], the key under
    which the server reports the score: whatever it holds, the badge is
    decided by [match_percentage], [match] and [matchScore] alone, and a
    recipe with none of them shows no badge. *)
Theorem match_score_never_read
    (number : jsval → option Q) (fields : list (string * jsval)) (v : jsval) :
  matchPercent (JObj (set_field "match_score" v fields)) = matchPercent (JObj fields)
  ∧ isMatching number (JObj (set_field "match_score" v fields))
    = isMatching number (JObj fields)
  ∧ (truthy (lookup_field "match_percentage" fields) = false →
     truthy (lookup_field "match" fields) = false →
     truthy (lookup_field "matchScore" fields) = false →
     matchPercent (JObj (set_field "match_score" v fields)) = Some (JNum 0)
     ∧ isMatching number (JObj (set_field "match_score" v fields)) = Some false).
Proof.
  assert (matchPercent (JObj (set_field "match_score" v fields))
          = matchPercent (JObj fields)) as Hsame.
  { rewrite !matchPercent_obj.
    by rewrite !(lookup_set_field_ne "match_score"). }
  split; [done|]. split.
  - unfold isMatching. by rewrite Hsame.
  - intros Ha Hb Hc. unfold isMatching. rewrite Hsame, matchPercent_obj.
    unfold or_else. rewrite Ha, Hb, Hc. done.
Qed.

Lemma match_score_never_read_witness :
  matchPercent (JObj [("title", JStr "Salsa"); ("match_score", JNum 0.5)])
  = Some (JNum 0).
Proof.
  exact (proj1 (proj2 (proj2 (match_score_never_read (fun _ => None)
                                [("title", JStr "Salsa")] (JNum 0.5)))
                 eq_refl eq_refl eq_refl)).
Defined.

Lemma common_emoji_not_plate (title cuisine : string) :
  common_emoji title cuisine ≠ Some Plate.
Proof.
  unfold common_emoji.
  repeat match goal with
         | |- context [if ?b then _ else _] => destruct b; [discriminate|]
         end.
  discriminate.
Qed.

(** The list page and the detail page pick the same emoji whenever the list
    page picks one other than the plate; where the list page shows the
    plate, the detail page shows the plate or one of its three further
    cuisines; and an uploaded image's URL wins on the detail page before
    the recipe is even read. *)
Theorem detail_emoji_agrees_with_list (recipe : jsval) (e : Emoji) :
  (getRecipeImage recipe = Some e → e ≠ Plate →
   getRecipeImage_detail None recipe = Some (inr e))
  ∧ (getRecipeImage recipe = Some Plate →
     ∃ e', getRecipeImage_detail None recipe = Some (inr e')
           ∧ e' ∈ [Baguette; Olive; Burger; Plate])
  ∧ (getRecipeImage recipe = None → getRecipeImage_detail None recipe = None)
  ∧ (∀ url, url ≠ "" → getRecipeImage_detail (Some url) recipe = Some (inl url)).
Proof.
  unfold getRecipeImage, getRecipeImage_detail, detail_emoji.
  destruct (title_of recipe) as [title|]; simpl;
    [|repeat split; try done;
      intros url Hurl; by destruct (String.eqb_spec url "")].
  destruct (cuisine_of recipe) as [cuisine|]; simpl;
    [|repeat split; try done;
      intros url Hurl; by destruct (String.eqb_spec url "")].
  pose proof (common_emoji_not_plate title cuisine) as Hnp.
  destruct (common_emoji title cuisine) as [e0|]; simpl.
  - split; [by intros [= ->]|]. split; [intros [= ->]; done|].
    split; [done|]. intros url Hurl. by destruct (String.eqb_spec url "").
  - split; [intros [= <-]; done|]. split.
    + intros _. eexists. split; [done|].
      repeat match goal with
             | |- context [if ?b then _ else _] => destruct b
             end; set_solver.
    + split; [done|]. intros url Hurl. by destruct (String.eqb_spec url "").
Qed.

Lemma detail_emoji_agrees_with_list_witness :
  getRecipeImage (JObj [("title", JStr "Chicken Curry");
                        ("cuisine_type", JStr "Indian")]) = Some Chicken
  ∧ getRecipeImage_detail None
      (JObj [("title", JStr "Chicken Curry"); ("cuisine_type", JStr "Indian")])
    = Some (inr Chicken).
Proof.
  split; [reflexivity|].
  apply (proj1 (detail_emoji_agrees_with_list
                  (JObj [("title", JStr "Chicken Curry");
                         ("cuisine_type", JStr "Indian")]) Chicken));
    [reflexivity | discriminate].
Defined.

End RecipeCardsFacts.

(** ** Request headers *)

Section ApiConfigFacts.
Import JS ApiConfig.

Lemma lookup_filter_other k k1 (l : list (string * jsval)) :
  k ≠ k1 →
  lookup_field k (List.filter (fun kv => negb (String.eqb (fst kv) k1)) l)
  = lookup_field k l.
Proof.
  intros Hne. induction l as [|[k2 v2] rest IH]; simpl; [done|].
  destruct (String.eqb_spec k2 k1) as [->|Hk]; simpl.
  - destruct (String.eqb_spec k k1); [congruence | done].
  - by rewrite IH.
Qed.

Lemma has_key_filter_other k k1 (l : list (string * jsval)) :
  k ≠ k1 →
  has_key k (List.filter (fun kv => negb (String.eqb (fst kv) k1)) l)
  = has_key k l.
Proof.
  intros Hne. unfold has_key. induction l as [|[k2 v2] rest IH]; simpl; [done|].
  destruct (String.eqb_spec k2 k1) as [->|Hk]; simpl.
  - destruct (String.eqb_spec k k1); [congruence | done].
  - by rewrite IH.
Qed.

Lemma lookup_own k obj : lookup_field k (own obj) = lookup_field k obj.
Proof.
  revert k. induction obj as [|[k1 v1] rest IH]; intros k; simpl; [done|].
  destruct (String.eqb_spec k k1) as [->|Hk]; [done|].
  by rewrite lookup_filter_other, IH.
Qed.

Lemma has_key_own k obj : has_key k (own obj) = has_key k obj.
Proof.
  revert k. induction obj as [|[k1 v1] rest IH]; intros k; [done|].
  change (has_key k (own ((k1, v1) :: rest)))
    with (String.eqb k k1
          || has_key k (List.filter (fun kv => negb (String.eqb (fst kv) k1))
                          (own rest))).
  change (has_key k ((k1, v1) :: rest)) with (String.eqb k k1 || has_key k rest).
  destruct (String.eqb_spec k k1) as [->|Hk]; [done|]. simpl.
  by rewrite has_key_filter_other, IH.
Qed.

(** Writing the bindings of [l] one after the other: the last binding of a
    key wins. *)
Lemma lookup_fold_set k (l acc : list (string * jsval)) :
  lookup_field k
    (fold_left (fun a kv => set_field (fst kv) (snd kv) a) l acc)
  = if has_key k (rev l) then lookup_field k (rev l) else lookup_field k acc.
Proof.
  revert acc. induction l as [|[k1 v1] rest IH]; intros acc; simpl; [done|].
  rewrite IH. unfold has_key. rewrite existsb_app. fold (has_key k (rev rest)).
  destruct (has_key k (rev rest)) eqn:Hrest; simpl.
  - clear IH. unfold has_key in Hrest.
    induction (rev rest) as [|[k2 v2] r IHr]; simpl in *; [done|].
    destruct (String.eqb k k2); [done|]. by apply IHr.
  - assert (Hl : ∀ r : list (string * jsval),
              existsb (fun kv => String.eqb k (fst kv)) r = false →
              lookup_field k (r ++ [(k1, v1)])
              = if String.eqb k k1 then v1 else JUndefined).
    { clear. induction r as [|[k2 v2] r IHr]; simpl; [done|].
      destruct (String.eqb k k2); [done|]. apply IHr. }
    rewrite (Hl _ Hrest). destruct (String.eqb_spec k k1) as [->|Hk]; simpl.
    + apply lookup_set_field_eq.
    + rewrite lookup_set_field_ne by congruence. done.
Qed.

Lemma has_key_rev k (l : list (string * jsval)) : has_key k (rev l) = has_key k l.
Proof.
  unfold has_key. induction l as [|x l IH]; simpl; [done|].
  rewrite existsb_app, IH. simpl. rewrite orb_false_r. apply orb_comm.
Qed.

Lemma own_keys_NoDup obj : NoDup (fst <$> own obj).
Proof.
  induction obj as [|[k1 v1] rest IH]; simpl; [constructor|].
  constructor.
  - intros Hin. apply list_elem_of_fmap in Hin as ([k2 v2] & -> & Hin).
    apply list_elem_of_In, List.filter_In in Hin as [_ Hne]. simpl in Hne.
    by rewrite String.eqb_refl in Hne.
  - clear -IH. induction (own rest) as [|[k2 v2] r IHr]; simpl; [constructor|].
    inversion IH; subst.
    destruct (negb (String.eqb k2 k1)); simpl; [|by apply IHr].
    constructor; [|by apply IHr].
    intros Hin. apply H1. apply list_elem_of_fmap in Hin as (x & -> & Hin).
    apply list_elem_of_fmap. exists x. split; [done|].
    apply list_elem_of_In. apply list_elem_of_In, List.filter_In in Hin. tauto.
Qed.

Lemma lookup_rev_NoDup k (l : list (string * jsval)) :
  NoDup (fst <$> l) → lookup_field k (rev l) = lookup_field k l.
Proof.
  induction l as [|[k1 v1] rest IH]; intros Hnd; simpl; [done|].
  inversion Hnd as [|? ? Hnotin Hnd']; subst.
  assert (Hl : ∀ r : list (string * jsval),
            lookup_field k (r ++ [(k1, v1)])
            = if has_key k r then lookup_field k r
              else if String.eqb k k1 then v1 else JUndefined).
  { clear. induction r as [|[k2 v2] r IHr]; simpl; [done|].
    unfold has_key; simpl. fold (has_key k r).
    destruct (String.eqb k k2); [done|]. apply IHr. }
  rewrite Hl, has_key_rev, IH by done.
  destruct (String.eqb_spec k k1) as [->|Hk].
  - destruct (has_key k1 rest) eqn:Hk; [|done]. exfalso. apply Hnotin.
    unfold has_key in Hk. apply existsb_exists in Hk as ([k2 v2] & Hin & Heq).
    apply String.eqb_eq in Heq. simpl in Heq. subst.
    apply list_elem_of_fmap. exists (k2, v2). split; [done|].
    by apply list_elem_of_In.
  - destruct (has_key k rest) eqn:Hhk; [done|].
    clear -Hhk. unfold has_key in Hhk.
    induction rest as [|[k2 v2] r IHr]; simpl in *; [done|].
    destruct (String.eqb k k2); [done|]. by apply IHr.
Qed.

(** Reading a key of [{ ...target, ...source }]. *)
Lemma lookup_assign k target source :
  lookup_field k (assign target source)
  = if has_key k source then lookup_field k source else lookup_field k target.
Proof.
  unfold assign. rewrite lookup_fold_set, has_key_rev, has_key_own.
  rewrite lookup_rev_NoDup by apply own_keys_NoDup. by rewrite lookup_own.
Qed.

(** A stored token always ends up in the [Authorization] header of both
    header builders, whatever the caller passed, also an [Authorization]
    header of its own. *)
Theorem token_sets_authorization (t : string)
    (additionalHeaders : list (string * jsval)) :
  t ≠ "" →
  lookup_field "Authorization" (getApiHeaders (Some t) additionalHeaders)
    = JStr ("Bearer " +:+ t)
  ∧ lookup_field "Authorization" (getFormDataHeaders (Some t) additionalHeaders)
    = JStr ("Bearer " +:+ t).
Proof.
  intros Ht. unfold getApiHeaders, getFormDataHeaders, with_token, bearer.
  destruct (String.eqb_spec t ""); [done|].
  split; apply lookup_set_field_eq.
Qed.

Lemma token_sets_authorization_witness :
  lookup_field "Authorization"
    (getApiHeaders (Some "abc") [("Authorization", JStr "Basic xyz")])
    = JStr "Bearer abc"
  ∧ lookup_field "Authorization"
      (getFormDataHeaders (Some "abc") [("Authorization", JStr "Basic xyz")])
    = JStr "Bearer abc".
Proof.
  apply (token_sets_authorization "abc" [("Authorization", JStr "Basic xyz")]).
  discriminate.
Defined.

(** Every header other than [Authorization] is the caller's when the caller
    passed that key, also with the value [undefined]; otherwise
    [getApiHeaders] supplies the JSON content type and nothing else, and
    [getFormDataHeaders] supplies nothing. *)
Theorem caller_headers_come_first (token : option string)
    (additionalHeaders : list (string * jsval)) (k : string) :
  k ≠ "Authorization" →
  lookup_field k (getApiHeaders token additionalHeaders)
    = (if has_key k additionalHeaders then lookup_field k additionalHeaders
       else if String.eqb k "Content-Type" then JStr "application/json"
       else JUndefined)
  ∧ lookup_field k (getFormDataHeaders token additionalHeaders)
    = lookup_field k additionalHeaders.
Proof.
  intros Hk.
  assert (Hw : ∀ hs, lookup_field k (with_token token hs) = lookup_field k hs).
  { intros hs. unfold with_token. destruct (bearer token); [|done].
    apply lookup_set_field_ne. congruence. }
  unfold getApiHeaders, getFormDataHeaders. rewrite !Hw, !lookup_assign.
  split; [done|].
  destruct (has_key k additionalHeaders) eqn:Hhk; [done|].
  simpl. clear -Hhk. unfold has_key in Hhk.
  induction additionalHeaders as [|[k2 v2] r IHr]; simpl in *; [done|].
  destruct (String.eqb k k2); [done|]. by apply IHr.
Qed.

Lemma caller_headers_come_first_witness :
  lookup_field "Content-Type"
    (getApiHeaders (Some "abc") [("Content-Type", JUndefined)])
    = JUndefined
  ∧ lookup_field "Content-Type"
      (getFormDataHeaders (Some "abc") [("Content-Type", JUndefined)])
    = JUndefined.
Proof.
  apply (caller_headers_come_first (Some "abc") [("Content-Type", JUndefined)]
           "Content-Type").
  discriminate.
Defined.

(** [secureFetch] attaches the stored token only when the caller passes no
    headers: a caller's own headers object is sent as it is, without the
    token, and every other option is passed on unchanged. *)
Theorem secureFetch_keeps_caller_headers (token : option string)
    (options : list (string * jsval)) (hs : list (string * jsval)) :
  lookup_field "headers" options = JObj hs →
  lookup_field "headers" (secureFetch token options) = JObj hs
  ∧ ∀ k, lookup_field k (secureFetch token options) = lookup_field k options.
Proof.
  intros Hh.
  assert (Hhead : lookup_field "headers" (secureFetch token options) = JObj hs).
  { unfold secureFetch. rewrite lookup_set_field_eq, Hh. done. }
  split; [done|]. intros k.
  destruct (String.eqb_spec k "headers") as [->|Hk]; [by rewrite Hhead, Hh|].
  unfold secureFetch. rewrite lookup_set_field_ne by congruence.
  rewrite lookup_assign. destruct (has_key k options) eqn:Hhk; [done|].
  simpl. clear -Hhk. unfold has_key in Hhk.
  induction options as [|[k2 v2] r IHr]; simpl in *; [done|].
  destruct (String.eqb k k2); [done|]. by apply IHr.
Qed.

Lemma secureFetch_keeps_caller_headers_witness :
  lookup_field "headers"
    (secureFetch (Some "abc")
       [("method", JStr "POST"); ("headers", JObj [("Accept", JStr "*/*")])])
    = JObj [("Accept", JStr "*/*")]
  ∧ ∀ k,
      lookup_field k
        (secureFetch (Some "abc")
           [("method", JStr "POST"); ("headers", JObj [("Accept", JStr "*/*")])])
      = lookup_field k
          [("method", JStr "POST"); ("headers", JObj [("Accept", JStr "*/*")])].
Proof.
  apply (secureFetch_keeps_caller_headers (Some "abc")
           [("method", JStr "POST"); ("headers", JObj [("Accept", JStr "*/*")])]
           [("Accept", JStr "*/*")]).
  reflexivity.
Defined.

End ApiConfigFacts.

(** ** Trimming, and the manual ingredient input *)

Section TrimFacts.
Import JS JSString.

Lemma trimStart_split s :
  ∃ pre, s = pre +:+ trimStart s ∧ blank pre = true.
Proof.
  induction s as [|c rest (pre & Hs & Hb)]; simpl.
  - by exists "".
  - destruct (is_white c) eqn:Hc.
    + exists (String c pre). split; [|simpl; by rewrite Hc].
      change (String c pre +:+ trimStart rest)
        with (String c (pre +:+ trimStart rest)).
      by f_equal.
    + by exists "".
Qed.

Lemma trimEnd_split s :
  ∃ post, s = trimEnd s +:+ post ∧ blank post = true.
Proof.
  induction s as [|c rest (post & Hs & Hb)]; simpl.
  - by exists "".
  - destruct (is_white c && String.eqb (trimEnd rest) "") eqn:Hc.
    + apply andb_true_iff in Hc as [Hc Hr]. apply String.eqb_eq in Hr.
      rewrite Hr in Hs. simpl in Hs. subst rest.
      exists (String c post). simpl. by rewrite Hc, Hb.
    + exists post. split; [|done].
      change (String c (trimEnd rest) +:+ post)
        with (String c (trimEnd rest +:+ post)).
      by f_equal.
Qed.

Lemma trimEnd_idem s : trimEnd (trimEnd s) = trimEnd s.
Proof.
  induction s as [|c rest IH]; simpl; [done|].
  destruct (is_white c && String.eqb (trimEnd rest) "") eqn:Hc; simpl; [done|].
  by rewrite IH, Hc.
Qed.

Lemma trimStart_trimEnd s :
  trimStart (trimEnd (trimStart s)) = trimEnd (trimStart s).
Proof.
  induction s as [|c rest IH]; simpl; [done|].
  destruct (is_white c) eqn:Hc; [done|]. simpl. rewrite Hc. simpl. by rewrite Hc.
Qed.

Lemma trim_idem s : trim (trim s) = trim s.
Proof. unfold trim. by rewrite trimStart_trimEnd, trimEnd_idem. Qed.

Lemma trim_split s :
  ∃ pre post, s = pre +:+ trim s +:+ post ∧ blank pre = true ∧ blank post = true.
Proof.
  destruct (trimStart_split s) as (pre & Hs & Hpre).
  destruct (trimEnd_split (trimStart s)) as (post & Ht & Hpost).
  exists pre, post. unfold trim. by rewrite <- Ht.
Qed.

Lemma blank_append a b : blank (a +:+ b) = blank a && blank b.
Proof.
  induction a as [|x a IH]; simpl; [done|]. by rewrite IH, andb_assoc.
Qed.

Lemma trimStart_blank s : blank s = true → trimStart s = "".
Proof.
  induction s as [|c rest IH]; simpl; [done|].
  intros [Hc Hr]%andb_true_iff. rewrite Hc. by apply IH.
Qed.

Lemma trim_empty_blank s : trim s = "" → blank s = true.
Proof.
  intros Ht. destruct (trim_split s) as (pre & post & Hs & Hpre & Hpost).
  rewrite Ht in Hs. rewrite Hs, blank_append, Hpre. simpl. exact Hpost.
Qed.

(** The Add button on the Ingredients page: a text with anything but white
    space in it is added without the white space around it, and the input
    is cleared; a blank text adds nothing and stays in the input. *)
Theorem manual_ingredient_is_trimmed (text : string) :
  match IngredientsPage.handleAddManualIngredient text with
  | (Some (IngredientSlice.AddIngredient (JStr t)), rest) =>
      rest = "" ∧ t ≠ "" ∧ trim t = t
      ∧ ∃ pre post,
          text = pre +:+ t +:+ post ∧ blank pre = true ∧ blank post = true
  | (None, rest) => rest = text ∧ blank text = true
  | _ => False
  end.
Proof.
  unfold IngredientsPage.handleAddManualIngredient.
  destruct (String.eqb_spec (trim text) "") as [He|Hne]; simpl.
  - split; [done|]. by apply trim_empty_blank.
  - split; [done|]. split; [done|]. split; [apply trim_idem | apply trim_split].
Qed.

End TrimFacts.

(** ** Saving a generated recipe *)

Section GeneratedRecipeFacts.
Import JS GeneratedRecipe.

Lemma lines_of_nonempty text line :
  line ∈ lines_of text → line ≠ "" ∧ JSString.trim line = line.
Proof.
  unfold lines_of. intros Hin.
  apply list_elem_of_In, List.filter_In in Hin as [Hin Hne].
  apply list_elem_of_In, list_elem_of_fmap in Hin as (raw & -> & _).
  split; [|apply trim_idem].
  intros He. rewrite He in Hne. discriminate.
Qed.

Lemma storable_header line :
  storable line = negb (is_header line) && negb (String.eqb line "").
Proof. done. Qed.

(** What one round of the loop adds to the two lists. *)
Lemma scan_line_adds (st : Scan) (line : string) :
  ∃ ing ins,
    ingredients (scan_line st line) = ingredients st ++ ing
    ∧ instructions (scan_line st line) = instructions st ++ ins
    ∧ sublist ing (List.filter storable [line])
    ∧ sublist ins (List.filter storable [line]).
Proof.
  unfold scan_line. cbn [List.filter]. unfold storable, nonempty.
  destruct (ingredients_header (JSString.toLowerCase line)),
    (instructions_header (JSString.toLowerCase line)),
    (description_header (JSString.toLowerCase line)),
    (String.eqb line ""), (inIngredients st), (inInstructions st),
    (String.eqb (description st) ""); simpl;
    first
      [ solve [exists [], []; rewrite !app_nil_r;
               repeat split; apply sublist_nil_l]
      | solve [exists [line], []; rewrite !app_nil_r;
               repeat split; [done | apply sublist_nil_l]]
      | solve [exists [], [line]; rewrite !app_nil_r;
               repeat split; [apply sublist_nil_l | done]] ].
Qed.

(** What the loop adds to the two lists, from any point on. *)
Lemma scan_from (ls : list string) (st : Scan) :
  ∃ ing ins,
    ingredients (fold_left scan_line ls st) = ingredients st ++ ing
    ∧ instructions (fold_left scan_line ls st) = instructions st ++ ins
    ∧ sublist ing (List.filter storable ls)
    ∧ sublist ins (List.filter storable ls).
Proof.
  revert st. induction ls as [|line ls IH]; intros st.
  - exists [], []. simpl. by rewrite !app_nil_r.
  - cbn [fold_left].
    destruct (IH (scan_line st line)) as (ing & ins & Hi & Hs & Si & Ss).
    destruct (scan_line_adds st line) as (ing0 & ins0 & Hi0 & Hs0 & Si0 & Ss0).
    exists (ing0 ++ ing), (ins0 ++ ins).
    rewrite Hi, Hs, Hi0, Hs0, <- !app_assoc.
    split; [done|]. split; [done|].
    change (line :: ls) with ([line] ++ ls). rewrite List.filter_app.
    split; by apply sublist_app.
Qed.

(** The ingredients and the steps taken from a generated text are lines of
    the text after its first line, in the order of the text, trimmed and
    not empty, and none of them contains one of the section words
    ("ingredients", "instructions", "directions", "steps", "description",
    "about"): a line with such a word is never stored. *)
Theorem parsed_lines_come_from_text (text : string) :
  let body := tail (lines_of text) in
  let st := scan (lines_of text) in
  sublist (ingredients st) body
  ∧ sublist (instructions st) body
  ∧ ∀ line, line ∈ ingredients st ++ instructions st →
      is_header line = false ∧ line ≠ "" ∧ JSString.trim line = line.
Proof.
  intros body st.
  destruct (scan_from body start) as (ing & ins & Hi & Hs & Si & Ss).
  fold (scan (lines_of text)) in Hi, Hs. fold st in Hi, Hs. simpl in Hi, Hs.
  subst ing ins.
  assert (Hsub : sublist (List.filter storable body) body).
  { clear. induction body as [|x l IH]; simpl; [done|].
    destruct (storable x); [by apply sublist_skip | by apply sublist_cons]. }
  split; [by etrans|]. split; [by etrans|].
  intros line Hin.
  assert (Hf : line ∈ List.filter storable body).
  { apply elem_of_app in Hin as [Hin|Hin];
      [by apply (sublist_subseteq _ _ Si) | by apply (sublist_subseteq _ _ Ss)]. }
  apply list_elem_of_In, List.filter_In in Hf as [Hb Hst].
  rewrite storable_header in Hst. apply andb_true_iff in Hst as [Hh _].
  apply negb_true_iff in Hh. split; [done|].
  apply (lines_of_nonempty text). apply list_elem_of_In in Hb.
  unfold body in Hb. destruct (lines_of text); [by apply elem_of_nil in Hb|].
  by apply list_elem_of_further.
Qed.

(** With no section word in the lines after the first one, the loop stores
    no ingredient and no step. *)
Lemma scan_without_headers (ls : list string) (st : Scan) :
  Forall (fun line => is_header line = false ∧ line ≠ "") ls →
  inIngredients st = false → inInstructions st = false →
  let st' := fold_left scan_line ls st in
  ingredients st' = ingredients st ∧ instructions st' = instructions st
  ∧ description st'
    = if String.eqb (description st) "" then hd "" ls else description st.
Proof.
  revert st. induction ls as [|line ls IH]; intros st Hall Hi Hs; simpl.
  - by destruct (String.eqb (description st) "") eqn:He;
      [apply String.eqb_eq in He|].
  - inversion Hall as [|? ? [Hh Hne] Hall']; subst.
    unfold is_header in Hh. apply orb_false_iff in Hh as [Hh H3].
    apply orb_false_iff in Hh as [H1 H2].
    assert (Hstep : scan_line st line
              = if String.eqb (description st) "" then
                  {| inIngredients := false; inInstructions := false;
                     ingredients := ingredients st;
                     instructions := instructions st; description := line |}
                else st).
    { unfold scan_line. rewrite H1, H2, H3, Hi, Hs. unfold nonempty. simpl.
      destruct (String.eqb_spec line ""); [done|]. simpl.
      by destruct (String.eqb (description st) ""). }
    rewrite Hstep. destruct (String.eqb (description st) "") eqn:Hd.
    + destruct (IH {| inIngredients := false; inInstructions := false;
                      ingredients := ingredients st;
                      instructions := instructions st; description := line |}
                  Hall' eq_refl eq_refl) as (Ha & Hb & Hc).
      simpl in Ha, Hb, Hc. split; [done|]. split; [done|].
      rewrite Hc. by destruct (String.eqb_spec line "").
    + destruct (IH st Hall' Hi Hs) as (Ha & Hb & Hc).
      split; [done|]. split; [done|]. by rewrite Hc, Hd.
Qed.

(** A generated text without any section word after its first line is saved
    with the whole text as its only step, the ingredients the generator
    returned (none if it returned none), and its second line as the
    description. *)
Theorem text_without_sections_saved_whole (text : string) (given : jsval) :
  (∀ line, line ∈ tail (lines_of text) → is_header line = false) →
  d_instructions (recipeData text given) = [text]
  ∧ d_ingredients (recipeData text given) = or_else given (JArr [])
  ∧ d_description (recipeData text given) = hd "" (tail (lines_of text))
  ∧ d_title (recipeData text given) = hd "Generated Recipe" (lines_of text).
Proof.
  intros Hno.
  destruct (scan_without_headers (tail (lines_of text)) start) as (Ha & Hb & Hc);
    [|done|done|].
  - apply Forall_forall. intros line Hin. split; [by apply Hno|].
    apply (lines_of_nonempty text).
    destruct (lines_of text); [by apply elem_of_nil in Hin|].
    by apply list_elem_of_further.
  - fold (scan (lines_of text)) in Ha, Hb, Hc. simpl in Ha, Hb, Hc.
    unfold recipeData. cbn [d_instructions d_ingredients d_description d_title].
    rewrite Ha, Hb, Hc. by destruct (lines_of text).
Qed.

Lemma text_without_sections_saved_whole_witness :
  d_instructions (recipeData Samples.toast_text JUndefined)
    = [Samples.toast_text]
  ∧ d_ingredients (recipeData Samples.toast_text JUndefined) = JArr []
  ∧ d_description (recipeData Samples.toast_text JUndefined)
    = "Put bread in the toaster"
  ∧ d_title (recipeData Samples.toast_text JUndefined) = "Toast".
Proof.
  apply (text_without_sections_saved_whole Samples.toast_text JUndefined).
  intros line Hin. vm_compute in Hin.
  apply list_elem_of_singleton in Hin. by subst.
Defined.

(** The recipe that is posted always has a title and at least one step,
    whatever the generated text. *)
Theorem saved_recipe_has_title_and_steps (text : string) (given : jsval) :
  (0 < length (d_instructions (recipeData text given)))%nat
  ∧ d_title (recipeData text given) ≠ "".
Proof.
  unfold recipeData. cbn [d_instructions d_title]. split.
  - destruct (instructions (scan (lines_of text))); simpl; lia.
  - destruct (lines_of text) as [|first rest] eqn:Hl; [done|].
    apply (lines_of_nonempty text). rewrite Hl. apply list_elem_of_here.
Qed.

End GeneratedRecipeFacts.

(** ** The image upload dialog *)

Section ImageUploadModalFacts.
Import JS ImageUploadModal.

Lemma allowed_type_spec (file : File) :
  existsb (String.eqb (file_type file)) allowedTypes = true
  ↔ file_type file ∈ allowedTypes.
Proof.
  rewrite existsb_exists. split.
  - intros (t & Hin & Heq). apply String.eqb_eq in Heq. rewrite Heq.
    by apply list_elem_of_In.
  - intros Hin. exists (file_type file).
    split; [by apply list_elem_of_In | apply String.eqb_refl].
Qed.

Lemma handleFileSelect_accepts st file rest :
  acceptable file →
  handleFileSelect st (file :: rest)
  = {| selectedFile := Some file; preview := preview st;
       uploading := uploading st; error := JStr "" |}.
Proof.
  intros [Hty Hsz]. unfold handleFileSelect.
  apply allowed_type_spec in Hty. rewrite Hty. cbn [negb].
  destruct (Z.ltb_spec (5 * 1024 * 1024) (file_size file)); [lia | done].
Qed.

Lemma handleFileSelect_rejects st file rest :
  ¬ acceptable file →
  selectedFile (handleFileSelect st (file :: rest)) = selectedFile st
  ∧ preview (handleFileSelect st (file :: rest)) = preview st
  ∧ truthy (error (handleFileSelect st (file :: rest))) = true.
Proof.
  intros Hno. unfold handleFileSelect.
  destruct (existsb (String.eqb (file_type file)) allowedTypes) eqn:Hty;
    cbn [negb]; [|done].
  destruct (Z.ltb_spec (5 * 1024 * 1024) (file_size file)); [done|].
  exfalso. apply Hno. split; [by apply allowed_type_spec | done].
Qed.

Lemma handleFileSelect_selected st files file :
  selectedFile (handleFileSelect st files) = Some file →
  acceptable file ∨ selectedFile st = Some file.
Proof.
  destruct files as [|f rest]; [by right|]. unfold handleFileSelect.
  destruct (existsb (String.eqb (file_type f)) allowedTypes) eqn:Hty;
    cbn [negb]; [|by right].
  destruct (Z.ltb_spec (5 * 1024 * 1024) (file_size f)); simpl; [by right|].
  intros [= <-]. left. split; [by apply allowed_type_spec | done].
Qed.

Lemma step_selected st e file :
  selectedFile (step st e) = Some file →
  acceptable file ∨ selectedFile st = Some file.
Proof.
  destruct e as [files|files| | |outcome]; simpl.
  - apply handleFileSelect_selected.
  - destruct files as [|f rest]; [by right|]. apply handleFileSelect_selected.
  - by right.
  - done.
  - unfold handleUpload. destruct (selectedFile st) eqn:Hsel; simpl;
      rewrite ?Hsel; intros; by right.
Qed.

(** Whatever is picked, dropped, reset or uploaded, in any order, the file
    the dialog holds is an image of one of the five accepted types and of
    at most five megabytes: no other file can reach the upload request. *)
Theorem selected_file_always_acceptable (events : list Event) (file : File) :
  selectedFile (fold_left step events initial) = Some file → acceptable file.
Proof.
  assert (Hgen : ∀ st,
            (∀ f, selectedFile st = Some f → acceptable f) →
            selectedFile (fold_left step events st) = Some file →
            acceptable file).
  { induction events as [|e es IH]; intros st Hst; simpl; [by apply Hst|].
    apply IH. intros f Hf.
    destruct (step_selected _ _ _ Hf) as [?|?]; [done | by apply Hst]. }
  apply Hgen. intros f Hf. discriminate.
Qed.

Lemma selected_file_always_acceptable_witness : acceptable Samples.photo.
Proof.
  apply (selected_file_always_acceptable
           [Select [Samples.document]; Drop [Samples.photo; Samples.document];
            Upload UploadThrew; Select [Samples.large_photo]]).
  reflexivity.
Defined.

Lemma rejected_selections (later : list File) (st : ModalState) :
  Forall (fun f => ¬ acceptable f) later →
  selectedFile (fold_left (fun s f => handleFileSelect s [f]) later st)
    = selectedFile st
  ∧ preview (fold_left (fun s f => handleFileSelect s [f]) later st)
    = preview st
  ∧ (later ≠ [] →
     truthy (error (fold_left (fun s f => handleFileSelect s [f]) later st))
     = true).
Proof.
  revert st. induction later as [|f l IH]; intros st Hall; [done|].
  inversion Hall as [|? ? Hf Hl]; subst.
  destruct (handleFileSelect_rejects st f [] Hf) as (Hs & Hp & He).
  destruct (IH (handleFileSelect st [f]) Hl) as (Hs' & Hp' & He').
  cbn [fold_left].
  split; [by rewrite Hs', Hs|]. split; [by rewrite Hp', Hp|].
  intros _. destruct l as [|g l]; [done|]. by apply He'.
Qed.

(** A file the dialog refuses does not replace the file picked before: the
    dialog shows the refusal, but Upload still sends the earlier file. *)
Theorem refused_file_keeps_earlier_one (st : ModalState) (file : File)
    (later : list File) (outcome : UploadOutcome) :
  acceptable file →
  Forall (fun f => ¬ acceptable f) later →
  let st' := fold_left (fun s f => handleFileSelect s [f]) later
               (handleFileSelect st [file]) in
  selectedFile st' = Some file
  ∧ snd (handleUpload st' outcome) = Some file
  ∧ (later ≠ [] → truthy (error st') = true).
Proof.
  intros Hok Hall st'.
  destruct (rejected_selections later (handleFileSelect st [file]) Hall)
    as (Hs & _ & He). fold st' in Hs, He.
  rewrite handleFileSelect_accepts in Hs by done. simpl in Hs.
  split; [done|]. split; [|done].
  unfold handleUpload. by rewrite Hs.
Qed.

Lemma refused_file_keeps_earlier_one_witness :
  selectedFile
    (fold_left (fun s f => handleFileSelect s [f])
       [Samples.large_photo; Samples.document]
       (handleFileSelect initial [Samples.photo])) = Some Samples.photo
  ∧ snd (handleUpload
           (fold_left (fun s f => handleFileSelect s [f])
              [Samples.large_photo; Samples.document]
              (handleFileSelect initial [Samples.photo])) (UploadOk JUndefined))
    = Some Samples.photo
  ∧ ([Samples.large_photo; Samples.document] ≠ [] →
     truthy
       (error
          (fold_left (fun s f => handleFileSelect s [f])
             [Samples.large_photo; Samples.document]
             (handleFileSelect initial [Samples.photo]))) = true).
Proof.
  apply (refused_file_keeps_earlier_one initial Samples.photo
           [Samples.large_photo; Samples.document] (UploadOk JUndefined)).
  - split; [|vm_compute; discriminate].
    apply list_elem_of_In. vm_compute. tauto.
  - repeat constructor.
    + intros [_ Hsz]. vm_compute in Hsz. by apply Hsz.
    + intros [Hty _]. apply list_elem_of_In in Hty. vm_compute in Hty.
      repeat (destruct Hty as [Hty|Hty]; [discriminate|]). done.
Defined.

End ImageUploadModalFacts.

(** ** From detected ingredients to the recipe list *)

Section HandOverFacts.
Import JS.

Lemma js_length_truthy v : truthy v = true → is_Some (RecipeSlice.js_length v).
Proof. destruct v; simpl; intros; try done; by eexists. Qed.

(** The effect of the Ingredients page never throws, although [setRecipes]
    does on a payload without a length: it either leaves the recipe list
    alone and stays on the page, or it makes the matched recipes the recipe
    list and goes to the recipes page, which it does only when loading is
    over. *)
Theorem handOver_never_throws (number : jsval → option Q)
    (ing : IngredientSlice.State) (rec : RecipeSlice.State) :
  IngredientsPage.handOver number ing rec = Some (rec, false)
  ∨ ∃ rec', IngredientsPage.handOver number ing rec = Some (rec', true)
            ∧ RecipeSlice.recipes rec' = IngredientSlice.matchedRecipes ing
            ∧ RecipeSlice.js_length (IngredientSlice.matchedRecipes ing)
              = Some (RecipeSlice.totalRecipes rec')
            ∧ IngredientSlice.loading ing = false.
Proof.
  unfold IngredientsPage.handOver.
  destruct (truthy (IngredientSlice.matchedRecipes ing)) eqn:Ht; [|by left].
  destruct (js_length_truthy _ Ht) as [n Hn]. rewrite Hn. simpl.
  destruct (IngredientsPage.positive number n
            && negb (IngredientSlice.loading ing)) eqn:Hc; [|by left].
  apply andb_true_iff in Hc as [_ Hl]. apply negb_true_iff in Hl.
  right. unfold RecipeSlice.setRecipes. rewrite Hn. simpl.
  eexists. split; [done|]. by simpl.
Qed.

(** When an image has been processed and the page can show the detected
    ingredients (an array of texts under [ingredients]), the recipes of the
    response (those the AI generated first, those from the database after
    them) become the recipe list, with their number as the total, and the
    page changes.  Without an [ingredients] key the page throws while
    rendering, and nothing is handed over. *)
Theorem matched_recipes_handed_over (number : jsval → option Q)
    (imageProcessed : bool)
    (s : IngredientSlice.State) (rec : RecipeSlice.State)
    (fields : list (string * jsval)) (ai db : list jsval) :
  lookup_field "ai_generated_recipes" fields = JArr ai →
  lookup_field "database_matching_recipes" fields = JArr db →
  ai ++ db ≠ [] →
  (∀ ings : list jsval,
     lookup_field "ingredients" fields = JArr ings →
     forallb React.child_ok ings = true →
     React.child_ok (IngredientSlice.error s) = true →
     ∃ rec',
       IngredientsPage.shown number imageProcessed
         (IngredientSlice.dispatch s
            (IngredientSlice.ProcessImageFulfilled (JObj fields))) rec
       = Some (rec', true)
       ∧ RecipeSlice.recipes rec' = JArr (ai ++ db)
       ∧ RecipeSlice.totalRecipes rec'
         = JNum (inject_Z (Z.of_nat (length ai + length db)))
       ∧ RecipeSlice.currentPage rec' = RecipeSlice.currentPage rec)
  ∧ (lookup_field "ingredients" fields = JUndefined →
     IngredientsPage.shown number imageProcessed
       (IngredientSlice.dispatch s
          (IngredientSlice.ProcessImageFulfilled (JObj fields))) rec
     = None).
Proof.
  intros Hai Hdb Hne.
  assert (Hd : IngredientSlice.dispatch s
                 (IngredientSlice.ProcessImageFulfilled (JObj fields))
               = {| IngredientSlice.detectedIngredients :=
                      lookup_field "ingredients" fields;
                    IngredientSlice.uploadedImage := lookup_field "ocr_text" fields;
                    IngredientSlice.matchedRecipes := JArr (ai ++ db);
                    IngredientSlice.loading := false;
                    IngredientSlice.error := IngredientSlice.error s |}).
  { unfold IngredientSlice.dispatch, IngredientSlice.reducer,
      IngredientSlice.processImage_fulfilled.
    cbn [get_prop mbind option_bind]. by rewrite Hai, Hdb. }
  rewrite Hd. unfold IngredientsPage.shown. split.
  - intros ings Hing Hok Herr.
    assert (IngredientsPage.renders number imageProcessed
              {| IngredientSlice.detectedIngredients :=
                   lookup_field "ingredients" fields;
                 IngredientSlice.uploadedImage := lookup_field "ocr_text" fields;
                 IngredientSlice.matchedRecipes := JArr (ai ++ db);
                 IngredientSlice.loading := false;
                 IngredientSlice.error := IngredientSlice.error s |} = true)
      as ->.
    { unfold IngredientsPage.renders.
      cbn [IngredientSlice.detectedIngredients IngredientSlice.error
           IngredientSlice.loading].
      rewrite Hing, Herr, Hok. cbn [RecipeSlice.js_length React.child_ok].
      rewrite !andb_true_r.
      by destruct (negb false && negb (truthy (IngredientSlice.error s))
                   && imageProcessed),
           (IngredientsPage.positive number
              (JNum (inject_Z (Z.of_nat (length ings))))). }
    unfold IngredientsPage.handOver.
    cbn [IngredientSlice.matchedRecipes IngredientSlice.loading truthy].
    destruct (array_length_positive number (ai ++ db) Hne) as [Hl Hp].
    rewrite Hl. cbn [mbind option_bind]. rewrite Hp.
    cbn [negb andb]. unfold RecipeSlice.setRecipes. rewrite Hl.
    cbn [mbind option_bind].
    eexists. split; [done|]. cbn. by rewrite length_app, Nat2Z.inj_add.
  - intros Hing. unfold IngredientsPage.renders.
    cbn [IngredientSlice.detectedIngredients]. rewrite Hing.
    cbn [RecipeSlice.js_length]. by rewrite andb_false_r.
Qed.

Lemma matched_recipes_handed_over_witness :
  ∃ rec',
    IngredientsPage.shown (fun _ => None) false
      (IngredientSlice.dispatch IngredientSlice.initialState
         (IngredientSlice.ProcessImageFulfilled
            (JObj [("ingredients", JArr [JStr "tomato"]);
                   ("ai_generated_recipes", JArr [JStr "soup"]);
                   ("database_matching_recipes", JArr [JStr "stew"])])))
      RecipeSlice.initialState
    = Some (rec', true)
    ∧ RecipeSlice.recipes rec' = JArr ([JStr "soup"] ++ [JStr "stew"])
    ∧ RecipeSlice.totalRecipes rec'
      = JNum (inject_Z (Z.of_nat (length [JStr "soup"] + length [JStr "stew"])))
    ∧ RecipeSlice.currentPage rec'
      = RecipeSlice.currentPage RecipeSlice.initialState.
Proof.
  apply (proj1 (matched_recipes_handed_over (fun _ => None) false
           IngredientSlice.initialState RecipeSlice.initialState
           [("ingredients", JArr [JStr "tomato"]);
            ("ai_generated_recipes", JArr [JStr "soup"]);
            ("database_matching_recipes", JArr [JStr "stew"])]
           [JStr "soup"] [JStr "stew"] eq_refl eq_refl ltac:(discriminate))
         [JStr "tomato"]); reflexivity.
Defined.

End HandOverFacts.

(** ** The preference check boxes of the Profile page *)

Section ProfilePageFacts.
Import JS UserSlice ProfilePage.

(** Ticking a check box of the Profile page switches that one preference
    on or off and nothing else: the other entries of the list, the other
    list, the difficulty, favourites, history and login state stay, and
    ticking a preference that was off twice restores the state. *)
Theorem preference_check_box_toggles (s : State) (ty : PreferenceType)
    (value : string) :
  let s' := handlePreferenceChange s ty value in
  (value ∈ currentPrefs s' ty ↔ value ∉ currentPrefs s ty)
  ∧ (∀ x, x ≠ value → (x ∈ currentPrefs s' ty ↔ x ∈ currentPrefs s ty))
  ∧ currentPrefs s' (other_type ty) = currentPrefs s (other_type ty)
  ∧ difficulty (preferences (profile s')) = difficulty (preferences (profile s))
  ∧ favorites (profile s') = favorites (profile s)
  ∧ history (profile s') = history (profile s)
  ∧ isAuthenticated s' = isAuthenticated s
  ∧ (value ∉ currentPrefs s ty → handlePreferenceChange s' ty value = s).
Proof.
  intros s'.
  destruct (toggled_spec (currentPrefs s ty) value) as (Hflip & Hrest & Htwice & _).
  assert (Hcur : currentPrefs s' ty = JSString.toggled (currentPrefs s ty) value).
  { unfold s'. by destruct ty. }
  rewrite Hcur. split; [done|]. split; [done|].
  split; [unfold s'; by destruct ty|].
  split; [unfold s'; by destruct ty|].
  split; [done|]. split; [done|]. split; [done|].
  intros Hout. unfold handlePreferenceChange at 1. rewrite Hcur, Htwice by done.
  unfold s', handlePreferenceChange, updatePreferences, with_profile,
    with_preferences, spreadPreferences, patch.
  destruct s as [[n e [d c df px] fv hs ex] au ld er].
  destruct ty; cbn; by rewrite !(left_id_L ∅ (∪)).
Qed.

End ProfilePageFacts.

(** ** The recipe browser *)

Section BrowseFacts.
Import JS Browse.

Lemma press_step (number : jsval → option Q) (st : BrowseState)
    (o : FetchOutcome) (rs : list jsval) :
  allRecipes st = JArr rs →
  forallb (card_renders number) rs = true →
  presentable number o →
  ∃ st' rs',
    handleBrowseRecipes st o = Some st'
    ∧ allRecipes st' = JArr rs'
    ∧ forallb (card_renders number) rs' = true
    ∧ showBrowse st' = negb (showBrowse st)
    ∧ (browseLoading st = false → browseLoading st' = false)
    ∧ browse_renders number st' = true.
Proof.
  intros Hst Hrs Ho.
  assert (Hshow : ∀ sh bl rs',
            forallb (card_renders number) rs' = true →
            browse_renders number
              {| allRecipes := JArr rs'; showBrowse := sh; browseLoading := bl |}
            = true).
  { intros sh bl rs' Hrs'. unfold browse_renders.
    cbn [showBrowse allRecipes RecipeSlice.js_length React.child_ok].
    rewrite Hrs'. by destruct sh. }
  unfold handleBrowseRecipes. rewrite Hst.
  destruct rs as [|r rs].
  - change (is_empty (JArr [])) with (Some true). cbn [mbind option_bind].
    destruct o as [data|]; cbn [presentable] in Ho.
    + destruct (get_prop data "recipes") as [v|] eqn:Hv.
      * destruct Ho as [Hfalsy|(rs' & -> & Hrs')].
        -- unfold or_else. rewrite Hfalsy. eexists _, []. split; [done|].
           cbn. split; [done|]. split; [done|]. split; [done|].
           split; [done|]. by destruct (showBrowse st).
        -- eexists _, rs'. split; [done|]. cbn [allRecipes showBrowse browseLoading].
           split; [done|]. split; [done|]. split; [done|]. split; [done|].
           by apply Hshow.
      * eexists _, []. split; [done|]. cbn. split; [done|]. split; [done|].
        split; [done|]. split; [done|]. by destruct (showBrowse st).
    + eexists _, []. split; [done|]. cbn. split; [done|]. split; [done|].
      split; [done|]. split; [done|]. by destruct (showBrowse st).
  - change (is_empty (JArr (r :: rs))) with (Some false).
    cbn [mbind option_bind].
    eexists _, (r :: rs). split; [done|]. cbn [allRecipes showBrowse browseLoading].
    split; [done|]. split; [done|]. split; [done|]. split; [done|].
    by apply Hshow.
Qed.

(** As long as the server answers with recipes the cards can show (or with
    none, or fails), the browse button can be pressed any number of times:
    neither the handler nor the section throws, the panel is open after an
    odd number of presses and closed after an even one, the button is
    enabled again after each press, and the list held is an array of
    recipes that can be shown.  An answer whose [recipes] is anything else
    that is truthy, a number say, is stored as it is and the section throws
    on the next rendering. *)
Theorem browse_button_always_works (number : jsval → option Q)
    (outcomes : list FetchOutcome) :
  Forall (presentable number) outcomes →
  (∃ st rs,
     presses number initial outcomes = Some st
     ∧ showBrowse st = Nat.odd (length outcomes)
     ∧ browseLoading st = false
     ∧ allRecipes st = JArr rs
     ∧ forallb (card_renders number) rs = true)
  ∧ (∀ r, truthy r = true → (∀ rs, r ≠ JArr rs) →
       allRecipes <$> handleBrowseRecipes initial (Fetched (JObj [("recipes", r)]))
         = Some r
       ∧ presses number initial [Fetched (JObj [("recipes", r)])] = None).
Proof.
  intros Hall. split.
  - assert (Hgen : ∀ st0 rs0,
              allRecipes st0 = JArr rs0 →
              forallb (card_renders number) rs0 = true →
              browseLoading st0 = false →
              ∃ st rs,
                presses number st0 outcomes = Some st
                ∧ showBrowse st
                  = xorb (showBrowse st0) (Nat.odd (length outcomes))
                ∧ browseLoading st = false
                ∧ allRecipes st = JArr rs
                ∧ forallb (card_renders number) rs = true).
    { induction Hall as [|o os Ho Hos IH]; intros st0 rs0 Hst Hrs Hl.
      - exists st0, rs0. cbn. by rewrite xorb_false_r.
      - destruct (press_step number st0 o rs0 Hst Hrs Ho)
          as (st1 & rs1 & Hs & Hst1 & Hrs1 & Hsh & Hl1 & Hrender).
        destruct (IH st1 rs1 Hst1 Hrs1 (Hl1 Hl))
          as (st & rs & Hp & Hshow & Hl' & Hst' & Hrs').
        exists st, rs. cbn [presses]. rewrite Hs. cbn [mbind option_bind].
        rewrite Hrender. split; [done|]. split; [|done].
        rewrite Hshow, Hsh. cbn [length]. rewrite Nat.odd_succ, <- Nat.negb_odd.
        by destruct (showBrowse st0), (Nat.odd (length os)). }
    destruct (Hgen initial [] eq_refl eq_refl eq_refl)
      as (st & rs & Hp & Hs & Hrest).
    exists st, rs. by rewrite Hs.
  - intros r Ht Hnot.
    assert (Hh : handleBrowseRecipes initial (Fetched (JObj [("recipes", r)]))
                 = Some {| allRecipes := r; showBrowse := true;
                           browseLoading := false |}).
    { unfold handleBrowseRecipes. cbn. unfold or_else. by rewrite Ht. }
    split; [by rewrite Hh|].
    cbn [presses]. rewrite Hh. cbn [mbind option_bind].
    replace (browse_renders number
               {| allRecipes := r; showBrowse := true; browseLoading := false |})
      with false; [done|].
    unfold browse_renders. cbn [showBrowse allRecipes].
    destruct r as [| | | | | |items|fields]; try done.
    + by destruct (Hnot items).
    + cbn [RecipeSlice.js_length]. by rewrite andb_false_r.
Qed.

Lemma browse_button_always_works_witness :
  ∃ st rs,
    presses (fun _ => None) initial
      [Failed; Fetched (JObj [("recipes", JArr [])]);
       Fetched (JObj [("recipes", JArr [Samples.soup_card])]); Fetched JNull]
    = Some st
    ∧ showBrowse st = Nat.odd 4
    ∧ browseLoading st = false
    ∧ allRecipes st = JArr rs
    ∧ forallb (card_renders (fun _ => None)) rs = true.
Proof.
  apply (browse_button_always_works (fun _ => None)
           [Failed; Fetched (JObj [("recipes", JArr [])]);
            Fetched (JObj [("recipes", JArr [Samples.soup_card])]);
            Fetched JNull]).
  apply List.Forall_cons; [exact I|].
  apply List.Forall_cons; [right; by exists []|].
  apply List.Forall_cons; [right; by exists [Samples.soup_card]|].
  apply List.Forall_cons; [exact I | apply List.Forall_nil].
Defined.

Lemma nonempty_array_not_empty (r : jsval) (rs : list jsval) :
  is_empty (JArr (r :: rs)) = Some false.
Proof. reflexivity. Qed.

(** Once the browser holds recipes it never asks the server again: later
    presses only open and close the panel, whatever a request would have
    returned. *)
Theorem recipes_loaded_once (st : BrowseState) (r : jsval) (rs : list jsval)
    (outcomes : list FetchOutcome) :
  allRecipes st = JArr (r :: rs) →
  ∃ st', clicks st outcomes = Some st'
         ∧ allRecipes st' = JArr (r :: rs)
         ∧ browseLoading st' = browseLoading st.
Proof.
  revert st. induction outcomes as [|o os IH]; intros st Hst.
  - by exists st.
  - cbn [clicks]. unfold handleBrowseRecipes.
    rewrite Hst, nonempty_array_not_empty. cbn [mbind option_bind].
    destruct (IH {| allRecipes := JArr (r :: rs);
                    showBrowse := negb (showBrowse st);
                    browseLoading := browseLoading st |} eq_refl)
      as (st' & Hc & Ha & Hl).
    exists st'. split; [exact Hc|]. split; [exact Ha | exact Hl].
Qed.

Lemma recipes_loaded_once_witness :
  ∃ st', clicks {| allRecipes := JArr [JStr "soup"]; showBrowse := false;
                   browseLoading := false |}
           [Failed; Fetched (JObj [("recipes", JArr [])]); Fetched JNull]
         = Some st'
         ∧ allRecipes st' = JArr [JStr "soup"]
         ∧ browseLoading st' = false.
Proof.
  apply (recipes_loaded_once
           {| allRecipes := JArr [JStr "soup"]; showBrowse := false;
              browseLoading := false |} (JStr "soup") []
           [Failed; Fetched (JObj [("recipes", JArr [])]); Fetched JNull]).
  reflexivity.
Defined.

End BrowseFacts.
